(** * node-hdb-pool: a shallow embedding of hdbPool.js, transformLobs.js and
    hdbMetaPool.js, with the properties of the pool manager stated over it.

    JavaScript objects used as maps are [gmap string _]; a property that may
    be absent is an [option]; callbacks that fire later are events of a step
    function; what the network or the database answers is an input of the
    model. *)

From Stdlib Require Import ZArith String Ascii List Bool Lia.
From stdpp Require Import base option list gmap strings.

Local Open Scope Z_scope.
Local Open Scope string_scope.

(** ** JavaScript values as the sources use them *)

Module JS.

(** Truthiness of a property holding a string: [undefined], [null] and the
    empty string are falsy. *)
Definition truthy (v : option string) : bool :=
  match v with
  | Some EmptyString => false
  | Some _ => true
  | None => false
  end.

Definition truthy_str (s : string) : bool :=
  match s with
  | EmptyString => false
  | _ => true
  end.

(** [a || b] on string properties. *)
Definition or_else (a : option string) (b : string) : string :=
  match a with
  | Some (String c s) => String c s
  | _ => b
  end.

(** [v.indexOf(sub)]: position of the first occurrence, or -1. *)
Fixpoint indexOf_from (i : Z) (sub v : string) : Z :=
  if String.prefix sub v then i
  else match v with
       | EmptyString => -1
       | String _ v' => indexOf_from (i + 1) sub v'
       end.

Definition indexOf (v sub : string) : Z := indexOf_from 0 sub v.

(** Numbers as the arithmetic of the sources meets them: a finite integer,
    [NaN], or the value [undefined] a missing property reads as. *)
Inductive value : Type :=
  | Undefined
  | NaN
  | Num (n : Z).

(** Unary [+] / the operands of binary [-]. *)
Definition toNumber (v : value) : value :=
  match v with
  | Undefined => NaN
  | NaN => NaN
  | Num n => Num n
  end.

Definition sub (a b : value) : value :=
  match toNumber a, toNumber b with
  | Num x, Num y => Num (x - y)
  | _, _ => NaN
  end.

End JS.

(** ** hdbPool.js: delimiter-separated output *)

Module Dsv.

Definition DQUOTE : ascii := "034"%char.
Definition LF : ascii := "010"%char.
Definition CR : ascii := "013"%char.

Definition DSV_DELIMITER : string := String LF EmptyString.
Definition DSV_SEPARATOR : string := ";".

(** [/\r?\n|\r/] tried at the head of [s]. *)
Definition linebreak_at (s : string) : bool :=
  String.prefix (String CR (String LF EmptyString)) s
  || String.prefix (String LF EmptyString) s
  || String.prefix (String CR EmptyString) s.

(** [v.match(/\r?\n|\r/)] is truthy. *)
Fixpoint match_linebreak (v : string) : bool :=
  match v with
  | EmptyString => false
  | String _ v' => linebreak_at v || match_linebreak v'
  end.

(** [v.replace(ESCAPE_REGEXP, DQUOTE DQUOTE)], every occurrence. *)
Fixpoint escape (v : string) : string :=
  match v with
  | EmptyString => EmptyString
  | String c v' =>
      if Ascii.eqb c DQUOTE then String DQUOTE (String DQUOTE (escape v'))
      else String c (escape v')
  end.

Definition dsvquote (v sep : string) : string :=
  if JS.truthy_str v
     && (Z.leb 0 (JS.indexOf v sep)
         || Z.leb 0 (JS.indexOf v (String DQUOTE EmptyString))
         || match_linebreak v)
  then String DQUOTE (escape v ++ String DQUOTE EmptyString)
  else v.

(** What [row[name]] holds, as [line.join] will print it: numbers and
    dates come as their text. *)
Inductive cell : Type :=
  | Undefined
  | Null
  | Text (s : string).

Definition ifnull (v : cell) : cell :=
  match v with
  | Null => Text "\N"
  | other => other
  end.

(** [dsvquote] on whatever [ifnull] returns: a falsy value is handed
    back. *)
Definition dsvquote_cell (v : cell) (sep : string) : cell :=
  match v with
  | Text s => Text (dsvquote s sep)
  | other => other
  end.

(** The tables [DSV_QUOTE] and [DSV_FORMAT], by type name. *)
Definition DSV_QUOTE (dataTypeName : option string) : bool :=
  match dataTypeName with
  | Some n =>
      bool_decide (n ∈ ["CHAR"; "VARCHAR"; "VARCHAR1"; "VARCHAR2"; "STRING";
                        "NSTRING"; "NCHAR"; "NVARCHAR"; "SHORTTEXT"; "TEXT"])
  | None => false
  end.

Definition DSV_FORMAT (dataTypeName : option string) : bool :=
  match dataTypeName with
  | Some n =>
      bool_decide (n ∈ ["DAYDATE"; "DATE"; "TIMESTAMP"; "TIMESTAMP_TZ"])
  | None => false
  end.

(** A column of the metadata of a result set. *)
Record column : Type := mkColumn {
  columnDisplayName : string;
  dataType : Z
}.

(** What a call of the generated function ends in when it does not
    return. *)
Inductive thrown : Type := RangeError | ReferenceError.

(** The characters that end or bend a string literal written between
    [quote]s: the quote itself, the backslash and the line breaks. *)
Definition breaks_literal (quote a : ascii) : bool :=
  Ascii.eqb a quote || Ascii.eqb a "\"%char || Ascii.eqb a LF
  || Ascii.eqb a CR.

(** Pasted between two [quote]s, [s] is the literal of [s]. *)
Fixpoint literal (quote : ascii) (s : string) : bool :=
  match s with
  | EmptyString => true
  | String a rest => negb (breaks_literal quote a) && literal quote rest
  end.

Definition APOSTROPHE : ascii := "'"%char.

Section Stringifier.

(** [hdbTypeCodes]: the names of the type codes of the client library
    (none of them a name of [Object.prototype]).  [moment] is not required
    by hdbPool.js: [iso8601] finds it among the globals or not at all;
    [moment_format] is [moment(d).format('YYYY-MM-DDTHH:mm:ss')] where the
    global is there. *)
Variable hdbTypeCodes : Z -> option string.
Variable moment_format : option (cell -> string).

Definition iso8601 (d : cell) : thrown + cell :=
  let format other :=
    match moment_format with
    | Some f => inr (Text (f other))
    | None => inl ReferenceError
    end in
  match d with
  | Text s => if String.eqb s "\N" then inr (Text "\N") else format d
  | other => format other
  end.

(** [row[name]] *)
Fixpoint at_name (row : list (string * cell)) (name : string) : cell :=
  match row with
  | [] => Undefined
  | (k, v) :: rest => if String.eqb k name then v else at_name rest name
  end.

(** The name pasted into the generated source. *)
Definition row_key (c : column) : string :=
  if String.eqb (columnDisplayName c) "''" then "UnknownColumn"
  else columnDisplayName c.

(** The text of the expression generated for one column ([val]), and the
    text handed to [eval]. *)
Definition val_source (sep : string) (c : column) : string :=
  let dataTypeName := hdbTypeCodes (dataType c) in
  let val := "ifnull(row['" ++ row_key c ++ "'])" in
  let val := if DSV_QUOTE dataTypeName
             then "dsvquote(" ++ val ++ ", '" ++ sep ++ "')" else val in
  if DSV_FORMAT dataTypeName
  then "DSV_FORMAT." ++ default EmptyString dataTypeName ++ "(" ++ val ++ ")"
  else val.

Definition functionBody (metadata : list column) (sep : string) : string :=
  fold_left
    (fun body c =>
       body ++ "line.push(" ++ val_source sep c ++ ")"
       ++ (if Z.eqb (dataType c) 13 then ".toString('hex')" else EmptyString)
       ++ String LF EmptyString)
    metadata
    ("functionBody = function(row) { var line = [];" ++ String LF EmptyString)
  ++ "return line.join(" ++ String DQUOTE (sep ++ String DQUOTE "); }").

(** The text generated for a column is the expression read below when the
    name, and the separator where it is pasted, stand in their literals as
    themselves.  With a name that holds an apostrophe, a backslash or a
    line break the text is another program: it does not parse, or reads
    another key. *)
Definition expression_ok (sep : string) (c : column) : bool :=
  literal APOSTROPHE (row_key c)
  && (negb (DSV_QUOTE (hdbTypeCodes (dataType c))) || literal APOSTROPHE sep).

(** What the statement generated for one column does: the value it pushes,
    unless it throws.  [push] returns the length of the line, a number,
    and [toString('hex')] on a number throws a RangeError: the statement
    of a column of type 13 throws after its value is pushed. *)
Definition pushed (sep : string) (row : list (string * cell)) (c : column)
  : thrown + cell :=
  let dataTypeName := hdbTypeCodes (dataType c) in
  let val := ifnull (at_name row (row_key c)) in
  let val := if DSV_QUOTE dataTypeName then dsvquote_cell val sep else val in
  match (if DSV_FORMAT dataTypeName then iso8601 val else inr val) with
  | inl e => inl e
  | inr v => if Z.eqb (dataType c) 13 then inl RangeError else inr v
  end.

(** An element of [line] as [join] prints it. *)
Definition printed (v : cell) : string :=
  match v with
  | Text s => s
  | _ => EmptyString
  end.

Fixpoint join (sep : string) (line : list cell) : string :=
  match line with
  | [] => EmptyString
  | [v] => printed v
  | v :: rest => printed v ++ sep ++ join sep rest
  end.

(** The statements of the columns, one after the other. *)
Fixpoint line (sep : string) (row : list (string * cell))
    (metadata : list column) : thrown + list cell :=
  match metadata with
  | [] => inr []
  | c :: rest =>
      match pushed sep row c with
      | inl e => inl e
      | inr v =>
          match line sep row rest with
          | inl e => inl e
          | inr vs => inr (v :: vs)
          end
      end
  end.

(** The function the generated source stands for. *)
Definition stringify (metadata : list column) (sep : string)
    (row : list (string * cell)) : thrown + string :=
  match line sep row metadata with
  | inl e => inl e
  | inr l => inr (join sep l)
  end.

Fixpoint join_names (sep : string) (names : list string) : string :=
  match names with
  | [] => EmptyString
  | [n] => n
  | n :: rest => n ++ sep ++ join_names sep rest
  end.

Definition header (metadata : list column) (sep : string) : string :=
  join_names sep (map columnDisplayName metadata) ++ DSV_DELIMITER.

(** [createDsvStringifier(metadata, sep)]: the header and the function
    given to the stringifier; [None] where the text handed to [eval] is not
    the source of that function. *)
Definition createDsvStringifier (metadata : list column) (sep : string)
  : option (string * (list (string * cell) -> thrown + string)) :=
  let sep := if JS.truthy_str sep then sep else DSV_SEPARATOR in
  if forallb (expression_ok sep) metadata && literal DQUOTE sep
  then Some (header metadata sep, stringify metadata sep)
  else None.

Definition createCsvStringifier (metadata : list column) :=
  createDsvStringifier metadata ",".

Definition createSsvStringifier (metadata : list column) :=
  createDsvStringifier metadata ";".

End Stringifier.

(** *** The reader of RFC 4180, one field

    The reader the output is read back with is not the repository's (its
    tests use a CSV parser of their own); it is written here from the
    grammar of RFC 4180: [field = escaped / non-escaped]; an escaped field
    starts and ends with DQUOTE and holds 2DQUOTE for each quote; a
    non-escaped field runs up to the separator or the line break.  The
    reader returns the field and the input left after it. *)

Fixpoint read_escaped (s : string) : option (string * string) :=
  match s with
  | EmptyString => None
  | String c s' =>
      if Ascii.eqb c DQUOTE then
        match s' with
        | String d s'' =>
            if Ascii.eqb d DQUOTE then
              match read_escaped s'' with
              | Some (f, r) => Some (String DQUOTE f, r)
              | None => None
              end
            else Some (EmptyString, s')
        | EmptyString => Some (EmptyString, s')
        end
      else
        match read_escaped s' with
        | Some (f, r) => Some (String c f, r)
        | None => None
        end
  end.

Definition ends_field (sep c : ascii) : bool :=
  Ascii.eqb c sep || Ascii.eqb c CR || Ascii.eqb c LF.

Fixpoint read_plain (sep : ascii) (s : string) : string * string :=
  match s with
  | EmptyString => (EmptyString, EmptyString)
  | String c s' =>
      if ends_field sep c then (EmptyString, s)
      else let '(f, r) := read_plain sep s' in (String c f, r)
  end.

Definition read_field (sep : ascii) (s : string) : option (string * string) :=
  match s with
  | String c s' =>
      if Ascii.eqb c DQUOTE then read_escaped s' else Some (read_plain sep s)
  | EmptyString => Some (EmptyString, EmptyString)
  end.

(** What may follow a field in a record: nothing, the separator, or a line
    break. *)
Definition field_follow (sep : ascii) (rest : string) : bool :=
  match rest with
  | EmptyString => true
  | String c _ => ends_field sep c
  end.

(** The claim's words: the value contains a given character. *)
Fixpoint contains_char (c : ascii) (v : string) : bool :=
  match v with
  | EmptyString => false
  | String d v' => Ascii.eqb d c || contains_char c v'
  end.

Definition needs_quotes (sep : ascii) (v : string) : bool :=
  contains_char sep v || contains_char DQUOTE v
  || contains_char CR v || contains_char LF v.

End Dsv.

(** ** transformLobs.js: the transform stream that inlines LOB columns *)

Module Lobs.

(** How reading [value.createReadStream()] goes: the chunks handed out by
    the [readable] events, closed by [end] or by [error]. *)
Inductive lob_close : Type := LobEnd | LobError.

Record Lob : Type := mkLob {
  lobChunks : list string;
  lobClose : lob_close
}.

Inductive value : Type :=
  | VNull
  | VNum (n : Z)
  | VStr (s : string)
  | VLob (l : Lob).

(** A row is an object: its columns in order, each name once. *)
Definition row : Type := list (string * value).

Definition columns (data : row) : list string := map fst data.

(** [data[column]] *)
Fixpoint get (data : row) (column : string) : option value :=
  match data with
  | [] => None
  | (k, v) :: rest => if String.eqb k column then Some v else get rest column
  end.

(** [data[column] = v] on a column the object has: the slot is overwritten
    where it stands; a new name is appended. *)
Fixpoint set (data : row) (column : string) (v : value) : row :=
  match data with
  | [] => [(column, v)]
  | (k, w) :: rest =>
      if String.eqb k column then (k, v) :: rest
      else (k, w) :: set rest column v
  end.

Definition LOB_ERROR : string := "Error while reading Lob!".

Section Transform.

(** [Buffer.concat(lobChunks).toString(encoding)] is Node's; the chunks are
    joined in the order they were read. *)
Variable toString : string -> string -> string.
Variable encoding : string.

Definition Buffer_concat (chunks : list string) : string :=
  fold_right String.append EmptyString chunks.

(** The body of the iterator of [async.forEachOf(data, ...)] for one
    column: what ends up assigned to [data[column]], if anything. *)
Definition column_result (v : value) : option value :=
  match v with
  | VLob l =>
      match lobClose l with
      | LobError => Some (VStr LOB_ERROR)
      | LobEnd => Some (VStr (toString encoding (Buffer_concat (lobChunks l))))
      end
  | _ => None
  end.

Definition assign (data : row) (entry : string * value) : row :=
  match column_result (snd entry) with
  | Some v => set data (fst entry) v
  | None => data
  end.

Definition transform_row (data : row) : row := fold_left assign data data.

(** [transform(data, encoding, callback)]: the arguments [callback] gets.
    The iterator never calls [cb] with an error, hence [err] is null
    whenever [data] is there. *)
Definition transform (data : option row) : option string * option row :=
  match data with
  | None => (Some "Data is not an object!", None)
  | Some d => (None, Some (transform_row d))
  end.

(** A chunk of the object-mode stream: one row (or a falsy value), or a
    batch of rows as the result set's array stream emits them. *)
Inductive chunk : Type :=
  | One (data : option row)
  | Many (rows : list row).

(** [_transform(chunk, encoding, done)]: what [me.push] receives.
    [async.map] stores each result at the index of its item; an empty
    array takes the other branch, where [transform] finds no column to
    visit and hands the array back. *)
Definition _transform (c : chunk) : chunk :=
  match c with
  | Many (r :: rs) => Many (map transform_row (r :: rs))
  | Many [] => Many []
  | One data => One (snd (transform data))
  end.

(** The stream applies [_transform] to the chunks as they come. *)
Definition pipe (chunks : list chunk) : list chunk := map _transform chunks.

(** What the claim calls a correctly transformed value. *)
Definition inlined (v : value) : value :=
  match v with
  | VLob l =>
      match lobClose l with
      | LobError => VStr LOB_ERROR
      | LobEnd => VStr (toString encoding (Buffer_concat (lobChunks l)))
      end
  | other => other
  end.

(** A column with its value inlined. *)
Definition inline_entry (e : string * value) : string * value :=
  (fst e, inlined (snd e)).

Definition is_lob (v : value) : bool :=
  match v with VLob _ => true | _ => false end.

End Transform.

End Lobs.

(** ** Errors, sessions and requests, as both pool files see them *)

Module Req.

(** What a callback receives as [err]: a string, or an object with the
    properties the sources read ([code], [message], [assertion]). *)
Inductive error : Type :=
  | ErrStr (s : string)
  | ErrObj (code : option Z) (message : option string)
           (assertion : option string).

(** [req.session.passport.user[env]] *)
Record passport_env : Type := mkPassportEnv {
  HANAUser : option string;
  HANAsessionCookie : option string
}.

(** [req.session.passport.user]: the identity, the assertion and one entry
    per environment visited. *)
Record passport_user : Type := mkPassportUser {
  nameID : option string;
  pu_assertion : option string;
  pu_envs : gmap string passport_env
}.

(** [req.session]; [saved] counts the calls of [session.save()]. *)
Record session : Type := mkSession {
  sess_id : option string;
  sess_fields : gmap string string;
  returnTo : option string;
  passport_user_of : option passport_user;
  saved : nat
}.

Record request : Type := mkRequest {
  headers : option (gmap string string);
  query : option (gmap string string);
  body : option (gmap string string);
  req_session : option session;
  SAMLAuthenticated : bool;
  hdbPoolRequestId : option string
}.

Definition set_session (r : request) (s : session) : request :=
  {| headers := headers r; query := query r; body := body r;
     req_session := Some s; SAMLAuthenticated := SAMLAuthenticated r;
     hdbPoolRequestId := hdbPoolRequestId r |}.

Definition set_request_id (r : request) (id : string) : request :=
  {| headers := headers r; query := query r; body := body r;
     req_session := req_session r; SAMLAuthenticated := SAMLAuthenticated r;
     hdbPoolRequestId := Some id |}.

Definition set_passport_env (s : session) (env : string) (e : passport_env)
  : session :=
  match passport_user_of s with
  | Some u =>
      {| sess_id := sess_id s; sess_fields := sess_fields s;
         returnTo := returnTo s;
         passport_user_of :=
           Some {| nameID := nameID u; pu_assertion := pu_assertion u;
                   pu_envs := <[env := e]> (pu_envs u) |};
         saved := saved s |}
  | None => s
  end.

Definition save (s : session) : session :=
  {| sess_id := sess_id s; sess_fields := sess_fields s;
     returnTo := returnTo s; passport_user_of := passport_user_of s;
     saved := S (saved s) |}.

(** [req && req.session && req.session.passport && req.session.passport.user] *)
Definition authenticated_user (req : option request) : option passport_user :=
  r ← req; s ← req_session r; passport_user_of s.

(** The cookie the session store holds for [env]. *)
Definition stored_cookie (req : option request) (env : string)
  : option string :=
  u ← authenticated_user req; e ← pu_envs u !! env; HANAsessionCookie e.

End Req.

(** ** hdbPool.js: options, authentication and handle creation *)

Module HdbPool.

(** [options.assertion]: the signed assertion itself, or a factory
    function that fetches one when a handle is created. *)
Inductive assertion_opt : Type :=
  | AssertionText (s : string)
  | AssertionFunction.

Record options : Type := mkOptions {
  host : option string;
  port : option Z;
  env : option string;
  user : option string;
  password : option string;
  assertion : option assertion_opt;
  sessionCookie : option string;
  maxPoolSize : option Z;
  minPoolSize : option Z;
  idleTimeoutMillis : option Z;
  refreshIdle : option bool;
  defaultSchema : option string;
  resphPrefix : option string
}.

Definition truthy_num (n : option Z) : bool :=
  match n with
  | Some z => negb (Z.eqb z 0)
  | None => false
  end.

Definition truthy_assertion (a : option assertion_opt) : bool :=
  match a with
  | Some (AssertionText s) => JS.truthy_str s
  | Some AssertionFunction => true
  | None => false
  end.

(** [a || b] on numbers. *)
Definition num_or (a : option Z) (b : Z) : Z :=
  if truthy_num a then default b a else b.

(** [a != b] fails: both undefined, or the same number. *)
Definition loose_eq (a b : option Z) : bool :=
  match a, b with
  | Some x, Some y => Z.eqb x y
  | None, None => true
  | _, _ => false
  end.

(** [options.minPoolSize > 0] *)
Definition min_positive (o : options) : bool :=
  match minPoolSize o with
  | Some z => Z.ltb 0 z
  | None => false
  end.

Definition set_user_cookie (o : options) (u c : option string) : options :=
  {| host := host o; port := port o; env := env o; user := u;
     password := password o; assertion := assertion o; sessionCookie := c;
     maxPoolSize := maxPoolSize o; minPoolSize := minPoolSize o;
     idleTimeoutMillis := idleTimeoutMillis o; refreshIdle := refreshIdle o;
     defaultSchema := defaultSchema o; resphPrefix := resphPrefix o |}.

Inductive method : Type := password_ | sessionCookie_ | assertion_.

(** The object handed to [hdbclient.connect]. *)
Record connOpts : Type := mkConnOpts {
  co_user : option string;
  co_password : option string;
  co_sessionCookie : option string;
  co_assertion : option string;
  co_method : method
}.

(** The first part of [create]: the branch taken on the options as they
    are when the pool asks for a handle. *)
Inductive branch : Type :=
  | Connect (c : connOpts)
  | AskFactory
  | NoMethod.

(** [user] is the variable of the constructor's closure; [rnd] is the byte
    [crypto.randomBytes(1)] returns. *)
Definition choose (o : options) (user_var : option string) (rnd : ascii)
  : branch :=
  if JS.truthy (user o) && JS.truthy (password o) then
    Connect {| co_user := user_var; co_password := password o;
               co_sessionCookie := None; co_assertion := None;
               co_method := password_ |}
  else if JS.truthy (user o) && JS.truthy (sessionCookie o) then
    Connect {| co_user := user o;
               co_password := Some (String rnd EmptyString);
               co_sessionCookie := sessionCookie o; co_assertion := None;
               co_method := sessionCookie_ |}
  else if truthy_assertion (assertion o) then AskFactory
  else NoMethod.

(** The strategy a branch stands for. *)
Definition strategy (b : branch) : option method :=
  match b with
  | Connect c => Some (co_method c)
  | AskFactory => Some assertion_
  | NoMethod => None
  end.

(** What the outside answers while one handle is created. *)
Inductive connect_answer : Type :=
  | ConnectFails (code : option Z) (message : option string)
  | ConnectOk (hana_user : option string) (hana_cookie : option string).

Record world : Type := mkWorld {
  randomByte : ascii;
  factoryAnswer : string + string;
  connectAnswer : connect_answer;
  schemaAnswer : option Req.error
}.

(** [assertionFactory(cb)]: the user's function, or the constant one the
    constructor wraps around a string. *)
Definition assertionFactory (o : options) (w : world) : string + option string :=
  match assertion o with
  | Some (AssertionText s) => inr (Some s)
  | Some AssertionFunction =>
      match factoryAnswer w with
      | inl err => inl err
      | inr a => inr (Some a)
      end
  | None => inr None
  end.

(** The connected client, as [hdbclient.get] shows it. *)
Record client : Type := mkClient {
  cl_user : option string;
  cl_sessionCookie : option string;
  cl_method : option method
}.

Definition fresh_client : client :=
  {| cl_user := None; cl_sessionCookie := None; cl_method := None |}.

(** [storeIntoSession(req, env, user, sessionCookie)] *)
Definition storeIntoSession (req : option Req.request) (env : string)
    (user sessionCookie : option string) : option Req.request :=
  match req with
  | Some r =>
      if JS.truthy_str env && JS.truthy user && JS.truthy sessionCookie then
        match Req.req_session r with
        | Some s =>
            match Req.passport_user_of s with
            | Some _ =>
                Some (Req.set_session r
                        (Req.save
                           (Req.set_passport_env s env
                              {| Req.HANAUser := user;
                                 Req.HANAsessionCookie := sessionCookie |})))
            | None => req
            end
        | None => req
        end
      else req
  | None => req
  end.

(** The state [create] closes over and writes: the shared [options], the
    closure's [user], [poolFactory.max] and the request the pool was built
    with. *)
Record closure : Type := mkClosure {
  c_options : options;
  c_user : option string;
  c_env : string;
  c_max : option Z;
  c_req : option Req.request
}.

(** What [callback] receives, with the closure as the call leaves it. *)
Record created : Type := mkCreated {
  cr_err : option Req.error;
  cr_client : client;
  cr_sent : option connOpts;
  cr_closure : closure
}.

(** [setDefaultSchema(options, hdbclient, user, env, callback)] *)
Definition setDefaultSchema (o : options) (w : world) : option Req.error :=
  if JS.truthy (defaultSchema o) then schemaAnswer w else None.

(** [conn()]: connect with [connOpts] and handle the answer. *)
Definition conn (k : closure) (c : connOpts) (w : world) : created :=
  match connectAnswer w with
  | ConnectFails code message =>
      {| cr_err := Some (Req.ErrObj code message
                           (if JS.truthy (co_assertion c) then co_assertion c
                            else None));
         cr_client := fresh_client; cr_sent := Some c; cr_closure := k |}
  | ConnectOk hana_user hana_cookie =>
      let store := match co_method c with
                   | assertion_ => bool_decide (is_Some hana_cookie)
                   | _ => false
                   end in
      let o := set_user_cookie (c_options k) hana_user
                 (if store then hana_cookie else sessionCookie (c_options k)) in
      let req := if store
                 then storeIntoSession (c_req k) (c_env k) (user o)
                        (sessionCookie o)
                 else c_req k in
      let k' := {| c_options := o; c_user := hana_user; c_env := c_env k;
                   c_max := if loose_eq (c_max k) (maxPoolSize o)
                            then c_max k else maxPoolSize o;
                   c_req := req |} in
      {| cr_err := setDefaultSchema o w;
         cr_client := {| cl_user := hana_user; cl_sessionCookie := hana_cookie;
                         cl_method := Some (co_method c) |};
         cr_sent := Some c; cr_closure := k' |}
  end.

(** The rest of [create] once the branch is taken: the factory's answer for
    an assertion, then [conn()]. *)
Definition finish (k : closure) (b : branch) (w : world) : created :=
  match b with
  | Connect c => conn k c w
  | NoMethod =>
      {| cr_err := Some (Req.ErrStr "no authentication method");
         cr_client := fresh_client; cr_sent := None; cr_closure := k |}
  | AskFactory =>
      match assertionFactory (c_options k) w with
      | inl err =>
          {| cr_err := Some (Req.ErrStr ("SAML delegation error:" ++ err));
             cr_client := fresh_client; cr_sent := None; cr_closure := k |}
      | inr a =>
          conn k {| co_user := c_user k;
                    co_password := Some (String (randomByte w) EmptyString);
                    co_sessionCookie := None; co_assertion := a;
                    co_method := assertion_ |} w
      end
  end.

(** The factory's [create(callback)], answered in one go. *)
Definition create (k : closure) (w : world) : created :=
  finish k (choose (c_options k) (c_user k) (randomByte w)) w.

End HdbPool.

(** ** The resource pool under [HDBPool] *)

Module GenericPool.

Import HdbPool.

(** Modelled from the spec: the pool itself is the package generic-pool,
    which the repository only calls ([poolModule.Pool], [acquire],
    [release], [drain], [destroyAllNow], [getPoolSize]).  The model keeps
    what section 4.1 and section 5 of the specification and the comment in
    the [HDBPool] constructor say of it: handles are idle or in use, never
    more than [max] of them; [min] handles are created eagerly at
    construction and topped up after an eviction; acquirers wait in FIFO
    order; a release hands the handle to the longest waiter or back to the
    idle set; a failed creation is reported to the longest waiter.  The
    creation itself is the repository's: [HdbPool.choose] when the pool
    asks for a handle, [HdbPool.finish] when the outside answers.  What the
    version of the package in use does where the specification is silent,
    as with a [min] that reaches [max], the repository does not decide. *)
Record pool : Type := mkPool {
  closure : HdbPool.closure;
  min : Z;
  started : nat;
  creating : list branch;
  idle : list client;
  inUse : list client;
  waiting : list nat;
  delivered : list (nat * option Req.error * client);
  logins : list method
}.

(** [getPoolSize()]: handles alive or being created. *)
Definition count (p : pool) : Z :=
  Z.of_nat (length (creating p) + length (idle p) + length (inUse p)).

Definition below_max (p : pool) : bool :=
  match c_max (closure p) with
  | Some m => Z.ltb (count p) m
  | None => false
  end.

(** The callback of the longest waiter is called with [(err, client)]. *)
Definition hand_over (p : pool) (err : option Req.error) (c : client)
    (keep : bool) : pool :=
  match waiting p with
  | who :: rest =>
      {| closure := closure p; min := min p; started := started p;
         creating := creating p; idle := idle p;
         inUse := if keep then inUse p ++ [c] else inUse p;
         waiting := rest;
         delivered := delivered p ++ [(who, err, c)];
         logins := logins p |}
  | [] =>
      {| closure := closure p; min := min p; started := started p;
         creating := creating p;
         idle := if keep then idle p ++ [c] else idle p;
         inUse := inUse p; waiting := []; delivered := delivered p;
         logins := logins p |}
  end.

Section Machine.

(** [crypto.randomBytes(1)] for the n-th creation. *)
Variable randomBytes : nat -> ascii.

(** The pool calls [create]: the branch is taken now; a pool without any
    authentication method is answered on the spot. *)
Definition start (p : pool) : pool :=
  let k := closure p in
  match choose (c_options k) (c_user k) (randomBytes (started p)) with
  | NoMethod =>
      hand_over
        {| closure := k; min := min p; started := S (started p);
           creating := creating p; idle := idle p; inUse := inUse p;
           waiting := waiting p; delivered := delivered p;
           logins := logins p |}
        (Some (Req.ErrStr "no authentication method")) fresh_client false
  | b =>
      {| closure := k; min := min p; started := S (started p);
         creating := creating p ++ [b]; idle := idle p; inUse := inUse p;
         waiting := waiting p; delivered := delivered p; logins := logins p |}
  end.

(** Serve the longest waiter from the idle set, or create a handle for it
    while the pool is below [max]. *)
Definition dispense (p : pool) : pool :=
  match waiting p with
  | [] => p
  | who :: rest =>
      match idle p with
      | c :: cs =>
          {| closure := closure p; min := min p; started := started p;
             creating := creating p; idle := cs; inUse := inUse p ++ [c];
             waiting := rest; delivered := delivered p ++ [(who, None, c)];
             logins := logins p |}
      | [] => if below_max p then start p else p
      end
  end.

(** Top the pool up to [min], one creation at a time and never beyond
    [max]. *)
Definition top_up (p : pool) : pool :=
  if below_max p then start p else p.

Definition ensureMinimum (p : pool) : pool :=
  Nat.iter (Z.to_nat (min p - count p)) top_up p.

Definition construct (k : HdbPool.closure) (min_ : Z) : pool :=
  ensureMinimum
    {| closure := k; min := min_; started := 0; creating := []; idle := [];
       inUse := []; waiting := []; delivered := []; logins := [] |}.

Definition acquire (who : nat) (p : pool) : pool :=
  dispense
    {| closure := closure p; min := min p; started := started p;
       creating := creating p; idle := idle p; inUse := inUse p;
       waiting := waiting p ++ [who]; delivered := delivered p;
       logins := logins p |}.

Definition release (i : nat) (p : pool) : pool :=
  match inUse p !! i with
  | Some c =>
      dispense
        {| closure := closure p; min := min p; started := started p;
           creating := creating p; idle := idle p ++ [c];
           inUse := delete i (inUse p); waiting := waiting p;
           delivered := delivered p; logins := logins p |}
  | None => p
  end.

(** An idle handle is destroyed (idle sweep, failed validation). *)
Definition evict (i : nat) (p : pool) : pool :=
  match idle p !! i with
  | Some _ =>
      ensureMinimum
        {| closure := closure p; min := min p; started := started p;
           creating := creating p; idle := delete i (idle p);
           inUse := inUse p; waiting := waiting p; delivered := delivered p;
           logins := logins p |}
  | None => p
  end.

(** The outside answers the i-th creation in flight. *)
Definition answer (i : nat) (w : world) (p : pool) : pool :=
  match creating p !! i with
  | Some b =>
      let r := finish (closure p) b w in
      let p' :=
        {| closure := cr_closure r; min := min p; started := started p;
           creating := delete i (creating p); idle := idle p;
           inUse := inUse p; waiting := waiting p; delivered := delivered p;
           logins := match cl_method (cr_client r) with
                     | Some m => logins p ++ [m]
                     | None => logins p
                     end |} in
      match cr_err r with
      | Some e => hand_over p' (Some e) (cr_client r) false
      | None => hand_over p' None (cr_client r) true
      end
  | None => p
  end.

Inductive event : Type :=
  | Acquire (who : nat)
  | Release (i : nat)
  | Answer (i : nat) (w : world)
  | Evict (i : nat)
  | Dispense.

Definition step (p : pool) (e : event) : pool :=
  match e with
  | Acquire who => acquire who p
  | Release i => release i p
  | Answer i w => answer i w p
  | Evict i => evict i p
  | Dispense => dispense p
  end.

Definition run (p : pool) (evs : list event) : pool := fold_left step evs p.

End Machine.

End GenericPool.

(** ** hdbPool.js: the pool object, [createPool] and the query dispatcher *)

Module HDBPool.

Import HdbPool.

(** The object [new HDBPool(options, req)] leaves behind.  [options] is
    the object the factory closes over, so it is read from there. *)
Record t : Type := mkHDBPool {
  reqQueue : gmap string bool;
  env : string;
  user : string;
  pool : GenericPool.pool
}.

Definition options (p : t) : HdbPool.options :=
  c_options (GenericPool.closure (pool p)).

(** The factory and [this.options] are one object: what a creation
    writes into the options ([user], [sessionCookie]) shows on the pool. *)
Definition with_options (p : t) (o : HdbPool.options) : t :=
  let q := pool p in
  let k := GenericPool.closure q in
  {| reqQueue := reqQueue p; env := env p; user := user p;
     pool := {| GenericPool.closure :=
                  {| c_options := o; c_user := c_user k; c_env := c_env k;
                     c_max := c_max k; c_req := c_req k |};
                GenericPool.min := GenericPool.min q;
                GenericPool.started := GenericPool.started q;
                GenericPool.creating := GenericPool.creating q;
                GenericPool.idle := GenericPool.idle q;
                GenericPool.inUse := GenericPool.inUse q;
                GenericPool.waiting := GenericPool.waiting q;
                GenericPool.delivered := GenericPool.delivered q;
                GenericPool.logins := GenericPool.logins q |} |}.

(** A constructor that returns early leaves an object without fields. *)
Inductive instance : Type :=
  | Bare
  | Ready (p : t).

(** The names a [this.<name>] finds on an instance: the fields set by the
    constructor and the methods of the prototype. *)
Definition properties : list string :=
  ["reqQueue"; "env"; "user"; "options"; "pool"; "stream"; "exec"; "meta"].

(** [this.<name>] read where a number is expected. *)
Definition number_property (p : t) (name : string) : JS.value :=
  if bool_decide (name ∈ properties) then JS.NaN else JS.Undefined.

Section Construction.

(** The second group of the NameID pattern the constructor matches the
    assertion against, when the pattern matches. *)
Variable NameID : string -> option string.
Variable randomBytes : nat -> ascii.

Definition new (o : HdbPool.options) (req : option Req.request) : instance :=
  let env_ := JS.or_else (HdbPool.env o)
                (JS.or_else (host o) "Unknown-env") in
  let build (user_ : string) :=
    let maxPoolSize_ := if min_positive o then 1
                        else num_or (maxPoolSize o) 1 in
    Ready {| reqQueue := ∅; env := env_; user := user_;
             pool := GenericPool.construct randomBytes
                       {| c_options := o; c_user := Some user_;
                          c_env := env_; c_max := Some maxPoolSize_;
                          c_req := req |}
                       (num_or (minPoolSize o) 0) |} in
  match assertion o with
  | Some (AssertionText a) =>
      if JS.truthy_str a && negb (JS.truthy (HdbPool.user o)) then
        match NameID a with
        | Some (String c n) => build (String c n)
        | _ => Bare
        end
      else build (JS.or_else (HdbPool.user o) "Unknown-user")
  | _ => build (JS.or_else (HdbPool.user o) "Unknown-user")
  end.

(** Network actions: a handle creation reaching for [host:port]. *)
Definition dial : Type := (option string * option Z)%type.

Definition dials (i : instance) : list dial :=
  match i with
  | Ready p =>
      map (fun _ => (host (options p), port (options p)))
          (GenericPool.creating (pool p))
  | Bare => []
  end.

(** [exports.createPool]: the value returned ([None] for [undefined]) and
    the network actions so far. *)
Definition createPool (o : HdbPool.options) (req : option Req.request)
    (net : list dial) : option instance * list dial :=
  if negb (JS.truthy (host o)) then (None, net)
  else if negb (truthy_num (port o)) then (None, net)
  else let i := new o req in (Some i, (net ++ dials i)%list).

End Construction.

(** [setupRespHeader(options, start, execStart, resp)] at time [now];
    [resp] is the header table of the response. *)
Definition setupRespHeader (o : HdbPool.options) (start execStart : JS.value)
    (now : Z) (resp : option (gmap string JS.value))
  : option (gmap string JS.value) :=
  match resp with
  | Some h =>
      let headerPrefix := JS.or_else (resphPrefix o) EmptyString in
      Some (<[headerPrefix ++ "waiting-time" := JS.sub execStart start]>
              (<[headerPrefix ++ "query-time" :=
                   JS.sub (JS.Num now) execStart]> h))
  | None => None
  end.

(** The headers [execQuery] and [executeQuery] set once the statement has
    answered without error: both read [start] and [execStart] from
    [this]. *)
Definition answered_headers (this : t) (now : Z)
    (resp : option (gmap string JS.value)) : option (gmap string JS.value) :=
  setupRespHeader (options this) (number_property this "start")
    (number_property this "execStart") now resp.

End HDBPool.

(** ** hdbPool.js: [initRequest] and [query], one dispatch at a time

    A dispatch is followed through the callbacks it leaves pending: the
    pool's answer to [acquire], the answer to [prepare], the answer of the
    statement, the events of the streams; and through the events of the
    request it was called with.  What the rest of the program does
    meanwhile to the objects the dispatch shares with it (the options of
    the pool, the entry of the request in the queue of the pool) comes in
    as events too.  [released] counts the calls of [pool.release(client)],
    [called] lists the calls of the caller's [cb], [sent] the bodies given
    to [resp.send]. *)

Module Dispatcher.

Inductive QUERYMODE : Type := EXEC | META | STREAM.

Inductive pending : Type := Acquiring | Preparing | Executing | Streaming.

Record state : Type := mkState {
  this : HDBPool.t;
  reqQueue : gmap string bool;
  id : string;
  querymode : QUERYMODE;
  doPrep : bool;
  req : option Req.request;
  resp : option (gmap string JS.value);
  forget : bool;
  closeCb : bool;
  start : JS.value;
  execStart : JS.value;
  waits : option pending;
  released : nat;
  called : list (option Req.error * option string);
  sent : list string
}.

(** [storeIntoSession(req, env, options.user, options.sessionCookie)] with
    the environment and the options of the pool as they are now. *)
Definition store (p : HDBPool.t) (req : option Req.request)
  : option Req.request :=
  HdbPool.storeIntoSession req (HDBPool.env p)
    (HdbPool.user (HDBPool.options p))
    (HdbPool.sessionCookie (HDBPool.options p)).

(** [initRequest]: the id of the dispatch, the request queue with its
    entry, and the request, with the cookie of the pool stored into its
    session and, when it had no id yet, with this id. *)
Definition initRequest (p : HDBPool.t) (req : option Req.request)
    (uuid : string) : string * gmap string bool * option Req.request :=
  let id := match req with
            | Some r => JS.or_else (Req.hdbPoolRequestId r) uuid
            | None => uuid
            end in
  let req' := match store p req with
              | Some r =>
                  if JS.truthy (Req.hdbPoolRequestId r) then Some r
                  else Some (Req.set_request_id r id)
              | None => None
              end in
  (id, <[id := true]> (HDBPool.reqQueue p), req').

(** The listeners that delete the entry of the queue are put on a request
    that has no id yet, by the dispatch that gives it one. *)
Definition fresh (req : option Req.request) : bool :=
  match req with
  | Some r => negb (JS.truthy (Req.hdbPoolRequestId r))
  | None => false
  end.

(** [query] up to the call of [pool.acquire]; in STREAM mode without a
    list of streams it calls back at once and acquires nothing.  [forget]
    is whether this dispatch has put its listeners on the request. *)
Definition query (p : HDBPool.t) (mode : QUERYMODE) (prep : bool)
    (req : option Req.request) (resp : option (gmap string JS.value))
    (streams_ok : bool) (uuid : string) (now : Z) : state :=
  let '(id, queue, req') := initRequest p req uuid in
  let no_streams := match mode with
                    | STREAM => negb streams_ok
                    | _ => false
                    end in
  {| this := p; reqQueue := queue; id := id; querymode := mode;
     doPrep := prep; req := req'; resp := resp;
     forget := fresh req; closeCb := false;
     start := if no_streams then JS.Undefined else JS.Num now;
     execStart := JS.Undefined;
     waits := if no_streams then None else Some Acquiring;
     released := 0;
     called := if no_streams
               then [(Some (Req.ErrStr "streams[] is missing or empty"), None)]
               else [];
     sent := [] |}.

Definition with_queue (s : state) (q : gmap string bool) : state :=
  {| this := this s; reqQueue := q; id := id s; querymode := querymode s;
     doPrep := doPrep s; req := req s; resp := resp s; forget := forget s;
     closeCb := closeCb s; start := start s; execStart := execStart s;
     waits := waits s; released := released s; called := called s;
     sent := sent s |}.

Definition with_this (s : state) (p : HDBPool.t) : state :=
  {| this := p; reqQueue := reqQueue s; id := id s;
     querymode := querymode s; doPrep := doPrep s; req := req s;
     resp := resp s; forget := forget s; closeCb := closeCb s;
     start := start s; execStart := execStart s; waits := waits s;
     released := released s; called := called s; sent := sent s |}.

(** [pool.release(client)] followed by [cb(err, rows)]; [listening] is
    whether the close listener of [query] stays on the request and [w]
    what the dispatch waits for next. *)
Definition release_and_call (s : state) (err : option Req.error)
    (rows : option string) (listening : bool) (w : option pending) : state :=
  {| this := this s; reqQueue := reqQueue s; id := id s;
     querymode := querymode s; doPrep := doPrep s; req := req s;
     resp := resp s; forget := forget s; closeCb := listening;
     start := start s; execStart := execStart s; waits := w;
     released := S (released s); called := called s ++ [(err, rows)];
     sent := sent s |}.

(** [exCb(err, rows)] *)
Definition exCb (s : state) (err : option Req.error) (rows : option string)
  : state :=
  release_and_call s err rows false None.

(** The events of a dispatch.  [Streamed] is an [error] of the row stream
    or of a stage of the pipeline, or the [finish] of its last stage (no
    error then).  [AnsweredEmpty] is an answer of [statement.exec] without
    error whose [dummyRows] is an empty list.  [OptionsWritten] is a
    creation of a handle writing the options of the pool; [Forgotten] and
    [Reopened] are what other dispatches of the same request on the same
    pool do to the entry of the id: the listeners of the first one delete
    it, the [initRequest] of a later one writes it again. *)
Inductive event : Type :=
  | ReqClose
  | ReqError
  | ReqEnd
  | Acquired (err : option Req.error) (now : Z)
  | Prepared (err : option Req.error)
  | Answered (err exception : option Req.error) (rows : option string)
             (now : Z)
  | Streamed (err : option Req.error)
  | AnsweredEmpty (now : Z)
  | OptionsWritten (o : HdbPool.options)
  | Forgotten
  | Reopened.

Definition on_forget (s : state) : state :=
  if forget s then with_queue s (delete (id s) (reqQueue s)) else s.

(** The callback given to [pool.acquire]. *)
Definition on_acquired (s : state) (err : option Req.error) (now : Z)
  : state :=
  match err with
  | Some e =>
      {| this := this s; reqQueue := reqQueue s; id := id s;
         querymode := querymode s; doPrep := doPrep s; req := req s;
         resp := resp s; forget := forget s; closeCb := closeCb s;
         start := start s; execStart := execStart s; waits := None;
         released := released s; called := called s ++ [(Some e, None)];
         sent := sent s |}
  | None =>
      match reqQueue s !! id s with
      | None => release_and_call s None None (closeCb s) None
      | Some _ =>
          {| this := this s; reqQueue := reqQueue s; id := id s;
             querymode := querymode s; doPrep := doPrep s;
             req := store (this s) (req s);
             resp := resp s; forget := forget s;
             closeCb := bool_decide (is_Some (req s));
             start := start s; execStart := JS.Num now;
             waits := Some (if doPrep s then Preparing else Executing);
             released := released s; called := called s; sent := sent s |}
      end
  end.

(** [setupRespHeader] as [execQuery] and [executeQuery] call it. *)
Definition with_headers (s : state) (now : Z) : state :=
  {| this := this s; reqQueue := reqQueue s; id := id s;
     querymode := querymode s; doPrep := doPrep s; req := req s;
     resp := HDBPool.answered_headers (this s) now (resp s);
     forget := forget s; closeCb := closeCb s; start := start s;
     execStart := execStart s; waits := waits s;
     released := released s; called := called s; sent := sent s |}.

(** The callbacks of [statement.exec] (in [execQuery]) and of
    [statement.execute] (in [executeQuery]). *)
Definition on_answered (s : state) (err exception : option Req.error)
    (rows : option string) (now : Z) : state :=
  match err with
  | Some e => exCb s (Some e) None
  | None =>
      let s' :=
        {| this := this s; reqQueue := reqQueue s; id := id s;
           querymode := querymode s; doPrep := doPrep s; req := req s;
           resp := HDBPool.answered_headers (this s) now (resp s);
           forget := forget s; closeCb := closeCb s; start := start s;
           execStart := execStart s; waits := waits s;
           released := released s; called := called s;
           sent := match querymode s, resp s, exception with
                   | EXEC, Some _, None =>
                       sent s ++ [default EmptyString rows]
                   | META, Some _, _ => sent s ++ [default EmptyString rows]
                   | _, _, _ => sent s
                   end |} in
      match querymode s with
      | EXEC => exCb s' exception rows
      | META => exCb s' None rows
      | STREAM =>
          {| this := this s'; reqQueue := reqQueue s'; id := id s';
             querymode := STREAM; doPrep := doPrep s'; req := req s';
             resp := resp s'; forget := forget s'; closeCb := closeCb s';
             start := start s'; execStart := execStart s';
             waits := Some Streaming; released := released s';
             called := called s'; sent := sent s' |}
      end
  end.

(** [dummyRows[0].errmsg] on an empty list: the callback of
    [statement.exec] has set the headers and throws a TypeError; [exCb] is
    not reached, so the handle is not released, the close listener stays
    on the request and the caller is not called. *)
Definition on_answered_empty (s : state) (now : Z) : state :=
  let s' := with_headers s now in
  {| this := this s'; reqQueue := reqQueue s'; id := id s';
     querymode := querymode s'; doPrep := doPrep s'; req := req s';
     resp := resp s'; forget := forget s'; closeCb := closeCb s';
     start := start s'; execStart := execStart s'; waits := None;
     released := released s'; called := called s'; sent := sent s' |}.

Definition step (s : state) (e : event) : state :=
  match e with
  | ReqClose =>
      let s' := on_forget s in
      if closeCb s' then release_and_call s' None None true (waits s') else s'
  | ReqError => on_forget s
  | ReqEnd => on_forget s
  | Acquired err now =>
      match waits s with
      | Some Acquiring => on_acquired s err now
      | _ => s
      end
  | Prepared err =>
      match waits s with
      | Some Preparing =>
          match err with
          | Some e => release_and_call s (Some e) None (closeCb s) None
          | None =>
              {| this := this s; reqQueue := reqQueue s; id := id s;
                 querymode := querymode s; doPrep := doPrep s; req := req s;
                 resp := resp s; forget := forget s; closeCb := closeCb s;
                 start := start s; execStart := execStart s;
                 waits := Some Executing; released := released s;
                 called := called s; sent := sent s |}
          end
      | _ => s
      end
  | Answered err exception rows now =>
      match waits s with
      | Some Executing => on_answered s err exception rows now
      | _ => s
      end
  | Streamed err =>
      match waits s with
      | Some Streaming => release_and_call s err None false (Some Streaming)
      | _ => s
      end
  | AnsweredEmpty now =>
      match waits s, querymode s with
      | Some Executing, EXEC => on_answered_empty s now
      | _, _ => s
      end
  | OptionsWritten o => with_this s (HDBPool.with_options (this s) o)
  | Forgotten => with_queue s (delete (id s) (reqQueue s))
  | Reopened => with_queue s (<[id s := true]> (reqQueue s))
  end.

Definition run (s : state) (evs : list event) : state := fold_left step evs s.

(** A result or an error reaches the caller's callback. *)
Definition delivers (c : option Req.error * option string) : bool :=
  match c with
  | (None, None) => false
  | _ => true
  end.

End Dispatcher.

(** ** hdbMetaPool.js: environments, routing and recovery *)

Module MetaPool.

(** One environment of [Conf.db]. *)
Record env_conf : Type := mkEnvConf {
  HOST : option string;
  PORT : option Z;
  USER : option string;
  PASS : option string;
  DEFAULT_SCHEMA : option string;
  POOL_SIZE : option Z
}.

(** [Conf.db] is one object: the key [default] holds the name of the
    default environment, every other key of its own holds an
    environment. *)
Record db : Type := mkDb {
  default_env : option string;
  environments : gmap string env_conf
}.

Record Conf : Type := mkConf {
  usernamePrefix : string;
  sourceSysField : string;
  conf_db : db
}.

(** What [Conf.db[key]] reads. *)
Inductive db_entry : Type :=
  | DefaultName (name : string)
  | Environment (c : env_conf)
  | Inherited.

(** The names every object inherits from [Object.prototype]. *)
Definition Object_prototype : list string :=
  ["constructor"; "hasOwnProperty"; "isPrototypeOf"; "propertyIsEnumerable";
   "toLocaleString"; "toString"; "valueOf"; "__proto__";
   "__defineGetter__"; "__defineSetter__"; "__lookupGetter__";
   "__lookupSetter__"].

Definition db_get (d : db) (key : string) : option db_entry :=
  if String.eqb key "default" then
    match default_env d with
    | Some n => Some (DefaultName n)
    | None => None
    end
  else
    match environments d !! key with
    | Some c => Some (Environment c)
    | None => if bool_decide (key ∈ Object_prototype) then Some Inherited
              else None
    end.

Definition truthy_entry (e : option db_entry) : bool :=
  match e with
  | Some (DefaultName n) => JS.truthy_str n
  | Some (Environment _) => true
  | Some Inherited => true
  | None => false
  end.

(** [_.without(_.keys(Conf.db), 'default')]: the environments pools are
    built for. *)
Definition configured (c : Conf) (env : string) : bool :=
  negb (String.eqb env "default")
  && bool_decide (is_Some (environments (conf_db c) !! env)).

Section Requests.

(** [url.parse(returnTo, true).query] *)
Variable url_parse_query : string -> gmap string string.

Definition field (m : option (gmap string string)) (name : string)
  : option string :=
  match m with
  | Some o => o !! name
  | None => None
  end.

(** One [if (... [Conf.sourceSysField]) env = ...]. *)
Definition overwrite (env : string) (v : option string) : string :=
  if JS.truthy v then default env v else env.

Definition getEnvFromRequest (c : Conf) (req : option Req.request) : string :=
  let f := sourceSysField c in
  let session := match req with Some r => Req.req_session r | None => None end in
  let env := JS.or_else (default_env (conf_db c)) "HDB" in
  let env := overwrite env
               (match session with
                | Some s => Req.sess_fields s !! f
                | None => None
                end) in
  let env := overwrite env
               (match req with Some r => field (Req.headers r) f | None => None end) in
  let in_query := match req with Some r => field (Req.query r) f | None => None end in
  let env :=
    if JS.truthy in_query then default env in_query
    else match session with
         | Some s =>
             match Req.returnTo s with
             | Some (String a u) =>
                 overwrite env (url_parse_query (String a u) !! f)
             | _ => env
             end
         | None => env
         end in
  let env := overwrite env
               (match req with Some r => field (Req.body r) f | None => None end) in
  env.

(** The claim's words: the sources of the environment, strongest first. *)
Definition from_body (c : Conf) (req : option Req.request) : option string :=
  r ← req; field (Req.body r) (sourceSysField c).

Definition from_query (c : Conf) (req : option Req.request) : option string :=
  r ← req;
  let q := field (Req.query r) (sourceSysField c) in
  if JS.truthy q then q
  else s ← Req.req_session r; u ← Req.returnTo s;
       if JS.truthy_str u then url_parse_query u !! sourceSysField c else None.

Definition from_header (c : Conf) (req : option Req.request) : option string :=
  r ← req; field (Req.headers r) (sourceSysField c).

Definition from_session (c : Conf) (req : option Req.request) : option string :=
  r ← req; s ← Req.req_session r; Req.sess_fields s !! sourceSysField c.

Fixpoint first_present (sources : list (option string)) (fallback : string)
  : string :=
  match sources with
  | [] => fallback
  | v :: rest => if JS.truthy v then default fallback v
                 else first_present rest fallback
  end.

Definition env_by_precedence (c : Conf) (req : option Req.request) : string :=
  first_present
    [from_body c req; from_query c req; from_header c req; from_session c req]
    (JS.or_else (default_env (conf_db c)) "HDB").

(** [/^[A-Za-z0-9_]+$/] *)
Definition word_char (a : ascii) : bool :=
  let n := nat_of_ascii a in
  ((65 <=? n) && (n <=? 90) || (97 <=? n) && (n <=? 122)
   || (48 <=? n) && (n <=? 57) || (n =? 95))%nat.

Fixpoint all_word_chars (s : string) : bool :=
  match s with
  | EmptyString => true
  | String a rest => word_char a && all_word_chars rest
  end.

Definition env_syntax (s : string) : bool :=
  JS.truthy_str s && all_word_chars s.

(** Where [query] sends a call. *)
Inductive route : Type :=
  | Invalid (err : string)
  | ToUserPool (env : string)
  | ToEnvPool (env : string).

Definition query (c : Conf) (req : option Req.request) : route :=
  let env := getEnvFromRequest c req in
  if negb (JS.truthy_str env) || negb (env_syntax env)
     || negb (truthy_entry (db_get (conf_db c) env))
  then Invalid ("invalid " ++ sourceSysField c ++ " value: " ++ env)
  else
    match req with
    | Some r =>
        if Req.SAMLAuthenticated r
           && bool_decide (is_Some (Req.authenticated_user req))
        then ToUserPool env else ToEnvPool env
    | None => ToEnvPool env
    end.

End Requests.

(** [envPools]: what [initEnvPools] leaves, one entry for each environment
    of the configuration; [None] where [createPool] returned nothing. *)
Definition envPools_of (c : Conf) : gmap string (option env_conf) :=
  (fun e => if JS.truthy (HOST e) && HdbPool.truthy_num (PORT e)
            then Some e else None)
  <$> delete "default" (environments (conf_db c)).

(** [queryEnvPool]: [envPools[env][querymode](...)]. *)
Inductive env_call : Type :=
  | OnPool (env : string) (e : env_conf)
  | TypeError.

Definition queryEnvPool (pools : gmap string (option env_conf)) (env : string)
  : env_call :=
  match pools !! env with
  | Some (Some e) => OnPool env e
  | _ => TypeError
  end.

End MetaPool.

(** ** hdbMetaPool.js: the callback of [queryUserPool] *)

Module Recovery.

(** [pool.pool] as the callback uses it: [getPoolSize()] and [min]. *)
Record pool_view : Type := mkPoolView {
  size : nat;
  min : Z
}.

(** Modelled from the spec: [p.drain(cb)] followed by [p.destroyAllNow()]
    belongs to generic-pool, which is not part of the repository; section
    4.6 of the specification calls the pair a flush, drain and destroy all
    handles: [drain] calls back once every handle is back in the pool and
    [destroyAllNow] destroys the handles of the pool. *)
Definition drain_and_destroy (p : pool_view) : pool_view :=
  {| size := 0; min := min p |}.

(** [userPools[userId].pools[env]] with the [_authMethod] stored on it. *)
Record user_pool : Type := mkUserPool {
  _authMethod : option HdbPool.method;
  pool : pool_view
}.

(** What the callback reads and writes: the registry, the request with its
    session, the pool object it closes over, and the environment pools
    emptied by [destroyAllNow]. *)
Record state : Type := mkState {
  userPools : gmap string (gmap string (option user_pool));
  req : Req.request;
  tenant : user_pool;
  flushed : list string
}.

Inductive outcome : Type :=
  | Called (err : option Req.error) (result : option string)
  | Threw.

Definition PRINCIPAL : string :=
  "Invalid principal id for principal $principalName$".

Definition isAuthFailed (err : option Req.error) : bool :=
  match err with
  | Some (Req.ErrObj (Some code) _ _) => Z.eqb code 10
  | _ => false
  end.

Definition isMissingUser (err : option Req.error) : bool :=
  match err with
  | Some (Req.ErrObj (Some code) (Some message) _) =>
      Z.eqb code 591 && JS.truthy_str message
      && Z.ltb 0 (JS.indexOf message PRINCIPAL)
  | _ => false
  end.

(** [delete error.assertion] *)
Definition delete_assertion (e : Req.error) : Req.error :=
  match e with
  | Req.ErrObj code message _ => Req.ErrObj code message None
  | Req.ErrStr s => Req.ErrStr s
  end.

Definition error_assertion (err : option Req.error) : option string :=
  match err with
  | Some (Req.ErrObj _ _ a) => a
  | _ => None
  end.

(** The cookie of [env] in the session is set to null and the session
    saved, when there is one. *)
Definition clear_cookie (r : Req.request) (env : string) : Req.request :=
  match Req.req_session r with
  | Some s =>
      match Req.passport_user_of s with
      | Some u =>
          match Req.pu_envs u !! env with
          | Some e =>
              if JS.truthy (Req.HANAsessionCookie e) then
                Req.set_session r
                  (Req.save
                     (Req.set_passport_env s env
                        {| Req.HANAUser := Req.HANAUser e;
                           Req.HANAsessionCookie := None |}))
              else r
          | None => r
          end
      | None => r
      end
  | None => r
  end.

(** [_clean(error)] *)
Definition _clean (st : state) (userId env : string) (error : Req.error)
    (result : option string) : outcome * state :=
  match userPools st !! userId with
  | Some pools =>
      (Called (Some error) result,
       {| userPools := <[userId := <[env := None]> pools]> (userPools st);
          req := clear_cookie (req st) env;
          tenant := tenant st; flushed := flushed st |})
  | None => (Threw, st)
  end.

(** [_drain(error)] *)
Definition _drain (st : state) (userId env : string)
    (error : option Req.error) (result : option string) : outcome * state :=
  match error with
  | None => (Threw, st)
  | Some e =>
      let e' := delete_assertion e in
      let p := {| size := size (pool (tenant st)); min := 0 |} in
      let st' p' :=
        {| userPools := userPools st; req := req st;
           tenant := {| _authMethod := _authMethod (tenant st); pool := p' |};
           flushed := flushed st |} in
      if Nat.eqb (size p) 0 then _clean (st' p) userId env e' result
      else _clean (st' (drain_and_destroy p)) userId env e' result
  end.

(** [detectSAMLerror(env, userId, assertion, cb)]: [probe] is the error of
    the direct login on the environment pool, if it fails. *)
Definition detectSAMLerror (st : state) (env : string)
    (probe : option Req.error) : state :=
  match probe with
  | None =>
      {| userPools := userPools st; req := req st; tenant := tenant st;
         flushed := flushed st ++ [env] |}
  | Some _ => st
  end.

(** The callback [function(err, result)] given to [pool[querymode]]. *)
Definition on_result (st : state) (userId env : string)
    (err : option Req.error) (result : option string)
    (probe : option Req.error) : outcome * state :=
  if negb (isAuthFailed err) && negb (isMissingUser err)
  then (Called err result, st)
  else if isMissingUser err then _drain st userId env err result
  else
    match _authMethod (tenant st) with
    | Some HdbPool.assertion_ =>
        if JS.truthy (error_assertion err)
        then _drain (detectSAMLerror st env probe) userId env probe result
        else _drain st userId env err result
    | _ => _drain st userId env err result
    end.

(** The pool of a tenant in the registry, if it has one. *)
Definition registered (st : state) (userId env : string) : option user_pool :=
  pools ← userPools st !! userId; mjoin (pools !! env).

End Recovery.

(** * The words of the claims, and the data of the tests *)

(** ** Authentication and construction *)

(** The claim's words: password over session cookie over assertion, by the
    fields that are populated. *)
Definition strategy_by_precedence (o : HdbPool.options)
  : option HdbPool.method :=
  if JS.truthy (HdbPool.user o) && JS.truthy (HdbPool.password o)
  then Some HdbPool.password_
  else if JS.truthy (HdbPool.user o) && JS.truthy (HdbPool.sessionCookie o)
  then Some HdbPool.sessionCookie_
  else if HdbPool.truthy_assertion (HdbPool.assertion o)
  then Some HdbPool.assertion_
  else None.

(** What one strategy obliges [create] to hand to the client. *)
Definition sends (m : HdbPool.method) (placeholder : bool)
    (r : HdbPool.created) : Prop :=
  exists c, HdbPool.cr_sent r = Some c /\ HdbPool.co_method c = m
            /\ (placeholder = true ->
                exists b, HdbPool.co_password c = Some (String b EmptyString)).

(** The options of the test configuration: an assertion, no password, one
    handle kept alive, up to [n] handles. *)
Definition assertion_options (n : Z) (schema : option string)
  : HdbPool.options :=
  {| HdbPool.host := Some "example.host.com"; HdbPool.port := Some 30015;
     HdbPool.env := None; HdbPool.user := None; HdbPool.password := None;
     HdbPool.assertion := Some (HdbPool.AssertionText "<NameID>U</NameID>");
     HdbPool.sessionCookie := None;
     HdbPool.maxPoolSize := Some n; HdbPool.minPoolSize := Some 1;
     HdbPool.idleTimeoutMillis := None; HdbPool.refreshIdle := Some false;
     HdbPool.defaultSchema := schema; HdbPool.resphPrefix := None |}.

(** The pool of the HTTP tests: user and password, five handles, headers
    prefixed with [test-]. *)
Definition password_options : HdbPool.options :=
  {| HdbPool.host := Some "example.host.com"; HdbPool.port := Some 30015;
     HdbPool.env := None; HdbPool.user := Some "username";
     HdbPool.password := Some "secret"; HdbPool.assertion := None;
     HdbPool.sessionCookie := None; HdbPool.maxPoolSize := Some 5;
     HdbPool.minPoolSize := None; HdbPool.idleTimeoutMillis := None;
     HdbPool.refreshIdle := None; HdbPool.defaultSchema := None;
     HdbPool.resphPrefix := Some "test-" |}.

Definition http_pool : HDBPool.t :=
  {| HDBPool.reqQueue := ∅; HDBPool.env := "example.host.com";
     HDBPool.user := "username";
     HDBPool.pool :=
       GenericPool.construct (fun _ => "000"%char)
         {| HdbPool.c_options := password_options;
            HdbPool.c_user := Some "username";
            HdbPool.c_env := "example.host.com";
            HdbPool.c_max := Some 5; HdbPool.c_req := None |} 0 |}.

Definition http_request : Req.request :=
  {| Req.headers := Some ∅; Req.query := Some ∅; Req.body := None;
     Req.req_session := None; Req.SAMLAuthenticated := false;
     Req.hdbPoolRequestId := None |}.

(** ** Delimiter-separated output *)

(** Two type codes of the client library, and a result set with a
    character column and a LOB column. *)
Definition sample_type_codes (code : Z) : option string :=
  if Z.eqb code 11 then Some "NVARCHAR"
  else if Z.eqb code 26 then Some "NCLOB"
  else None.

Definition sample_metadata : list Dsv.column :=
  [ {| Dsv.columnDisplayName := "COL1"; Dsv.dataType := 11 |};
    {| Dsv.columnDisplayName := "COL2"; Dsv.dataType := 26 |} ].

Definition sample_row : list (string * Dsv.cell) :=
  [ ("COL1"%string, Dsv.Text "value,value");
    ("COL2"%string, Dsv.Text "lorem,ipsum") ].

(** ** The LOB transform *)

Definition lob_sample : list Lobs.row :=
  [ [ ("COL1"%string, Lobs.VStr "c1r1");
      ("COL2"%string, Lobs.VLob {| Lobs.lobChunks := ["lo"; "rem"]%string;
                                   Lobs.lobClose := Lobs.LobError |});
      ("COL3"%string, Lobs.VLob {| Lobs.lobChunks := ["ip"; "sum"]%string;
                                   Lobs.lobClose := Lobs.LobEnd |}) ];
    [ ("COL1"%string, Lobs.VStr "c1r2");
      ("COL2"%string, Lobs.VLob {| Lobs.lobChunks := ["dolor"]%string;
                                   Lobs.lobClose := Lobs.LobEnd |});
      ("COL3"%string, Lobs.VNull) ] ].

(** ** Routing *)

(** The configuration the module starts with, and a request without a
    session that names an environment in a header. *)
Definition Conf0 : MetaPool.Conf :=
  {| MetaPool.usernamePrefix := EmptyString;
     MetaPool.sourceSysField := "source-sys";
     MetaPool.conf_db :=
       {| MetaPool.default_env := Some "HDB";
          MetaPool.environments :=
            {[ "HDB" := {| MetaPool.HOST := Some "hdbhost";
                           MetaPool.PORT := Some 30015;
                           MetaPool.USER := Some "USER";
                           MetaPool.PASS := Some "****";
                           MetaPool.DEFAULT_SCHEMA := Some "USER";
                           MetaPool.POOL_SIZE := Some 3 |} ]} |} |}.

Definition header_request (env : string) : Req.request :=
  {| Req.headers := Some {["source-sys" := env]}; Req.query := None;
     Req.body := None; Req.req_session := None;
     Req.SAMLAuthenticated := false; Req.hdbPoolRequestId := None |}.

(** ** Recovery *)

Section RecoveryWords.

Import Recovery.

(** The classes of section 4.6, in the order the callback tests them. *)
Inductive error_class : Type := MISSING_PRINCIPAL | AUTH_FAILED | OTHER.

Definition classify (err : option Req.error) : error_class :=
  if isMissingUser err then MISSING_PRINCIPAL
  else if isAuthFailed err then AUTH_FAILED
  else OTHER.

(** The callback asks the environment pool about the assertion first: an
    authentication failure on a pool created from an assertion, with the
    assertion on the error. *)
Definition probes (st : state) (err : option Req.error) : bool :=
  match classify err, _authMethod (tenant st) with
  | AUTH_FAILED, Some HdbPool.assertion_ => JS.truthy (error_assertion err)
  | _, _ => false
  end.

(** The state a flush leaves: no handle in the pool, no cookie for the
    environment in the session, no pool for the tenant in the registry. *)
Definition flushed_and_cleared (st : state) (userId env : string) : Prop :=
  size (pool (tenant st)) = 0%nat
  /\ JS.truthy (Req.stored_cookie (Some (req st)) env) = false
  /\ registered st userId env = None.

End RecoveryWords.

(** A tenant whose pool was created from [how], with one handle and the
    cookie ['c00kie'] in the session. *)
Definition tenant_state (how : HdbPool.method) : Recovery.state :=
  let p := {| Recovery._authMethod := Some how;
              Recovery.pool := {| Recovery.size := 1; Recovery.min := 1 |} |} in
  {| Recovery.userPools := {[ "alice" := {[ "HDB" := Some p ]} ]};
     Recovery.req :=
       {| Req.headers := None; Req.query := None; Req.body := None;
          Req.req_session :=
            Some {| Req.sess_id := Some "sid"; Req.sess_fields := ∅;
                    Req.returnTo := None;
                    Req.passport_user_of :=
                      Some {| Req.nameID := Some "alice";
                              Req.pu_assertion := Some "<saml/>";
                              Req.pu_envs :=
                                {[ "HDB" := {| Req.HANAUser := Some "ALICE";
                                               Req.HANAsessionCookie :=
                                                 Some "c00kie" |} ]} |};
                    Req.saved := 0 |};
          Req.SAMLAuthenticated := true; Req.hdbPoolRequestId := None |};
     Recovery.tenant := p;
     Recovery.flushed := [] |}.

Definition auth_failed (assertion : option string) : Req.error :=
  Req.ErrObj (Some 10) (Some "authentication failed") assertion.

Definition protocol_error : Req.error :=
  Req.ErrObj (Some 1033) (Some "error while parsing protocol") None.

(** ** The first connection *)

Section PoolWords.

Import HdbPool GenericPool.

(** The handshake of a creation went through: the client knows how it was
    connected. *)
Definition connected (r : created) : bool :=
  bool_decide (is_Some (cl_method (cr_client r))).

(** [max] is 1 as long as no connection was made, the configured
    [maxPoolSize] from the first one on. *)
Definition max_rule (o : options) (q : pool) : Prop :=
  maxPoolSize (c_options (closure q)) = maxPoolSize o
  /\ c_max (closure q) = match logins q with
                         | [] => Some 1
                         | _ :: _ => maxPoolSize o
                         end.

End PoolWords.

(** What is taken of the database server: it names the user it logged in;
    it issues a session cookie to a login by assertion; a login by
    session cookie runs under the cookie it presented. *)
Definition honest (p : GenericPool.pool) (e : GenericPool.event) : Prop :=
  match e with
  | GenericPool.Answer i w =>
      match HdbPool.connectAnswer w with
      | HdbPool.ConnectOk u ck =>
          JS.truthy u = true
          /\ match GenericPool.creating p !! i with
             | Some (HdbPool.Connect c) =>
                 HdbPool.co_method c = HdbPool.sessionCookie_ ->
                 ck = HdbPool.co_sessionCookie c
             | Some HdbPool.AskFactory => JS.truthy ck = true
             | _ => True
             end
      | HdbPool.ConnectFails _ _ => True
      end
  | _ => True
  end.

Fixpoint honest_run (randomBytes : nat -> ascii) (p : GenericPool.pool)
    (evs : list GenericPool.event) : Prop :=
  match evs with
  | [] => True
  | e :: rest =>
      honest p e /\ honest_run randomBytes (GenericPool.step randomBytes p e) rest
  end.

Definition is_assertion (m : HdbPool.method) : bool :=
  match m with
  | HdbPool.assertion_ => true
  | _ => false
  end.

(** Logins by assertion that went through. *)
Definition assertion_logins (p : GenericPool.pool) : nat :=
  length (List.filter is_assertion (GenericPool.logins p)).

(** Creations by assertion still in flight. *)
Definition assertion_attempts (p : GenericPool.pool) : nat :=
  length (List.filter
            (fun b => match b with HdbPool.AskFactory => true | _ => false end)
            (GenericPool.creating p)).

Definition has_cookie (c : string) (cl : HdbPool.client) : Prop :=
  HdbPool.cl_sessionCookie cl = Some c.

(** A handle given to an acquirer carries the cookie [c]. *)
Definition served (c : string)
    (d : nat * option Req.error * HdbPool.client) : Prop :=
  d.1.2 = None -> has_cookie c d.2.

Definition by_cookie (c : string) (b : HdbPool.branch) : Prop :=
  exists k, b = HdbPool.Connect k
            /\ HdbPool.co_method k = HdbPool.sessionCookie_
            /\ HdbPool.co_sessionCookie k = Some c.

(** Before the first connection: the closure is as constructed, there is
    no handle, at most one creation is in flight, by assertion. *)
Definition quiet (k0 : HdbPool.closure) (p : GenericPool.pool) : Prop :=
  GenericPool.closure p = k0
  /\ GenericPool.idle p = []
  /\ GenericPool.inUse p = []
  /\ (GenericPool.creating p = []
      \/ GenericPool.creating p = [HdbPool.AskFactory])
  /\ GenericPool.logins p = []
  /\ Forall (fun d => d.1.2 <> None) (GenericPool.delivered p).

(** After it: the options hold user and cookie [c], every creation in
    flight and every handle goes by that cookie. *)
Definition cookie_mode (c : string) (p : GenericPool.pool) : Prop :=
  let o := HdbPool.c_options (GenericPool.closure p) in
  JS.truthy_str c = true
  /\ HdbPool.sessionCookie o = Some c
  /\ JS.truthy (HdbPool.user o) = true
  /\ JS.truthy (HdbPool.password o) = false
  /\ Forall (by_cookie c) (GenericPool.creating p)
  /\ Forall (has_cookie c) (GenericPool.idle p)
  /\ Forall (has_cookie c) (GenericPool.inUse p)
  /\ Forall (served c) (GenericPool.delivered p)
  /\ assertion_logins p = 1%nat.

(** What holds of such a pool all along. *)
Definition inv (k0 : HdbPool.closure) (p : GenericPool.pool) : Prop :=
  quiet k0 p \/ exists c, cookie_mode c p.

(** The pool of the test with two parallel first queries: built from an
    assertion, one handle kept alive, up to two handles. *)
Definition first_time_closure (schema : option string) : HdbPool.closure :=
  {| HdbPool.c_options := assertion_options 2 schema;
     HdbPool.c_user := Some "U"; HdbPool.c_env := "example.host.com";
     HdbPool.c_max := Some 1; HdbPool.c_req := None |}.

Definition first_time_pool (schema : option string) : HDBPool.t :=
  {| HDBPool.reqQueue := ∅; HDBPool.env := "example.host.com";
     HDBPool.user := "U";
     HDBPool.pool :=
       GenericPool.construct (fun _ => "000"%char)
         (first_time_closure schema) 1 |}.

(** The server logs the assertion in as [U] and issues a cookie; the
    default schema, where one is configured, is set or refused. *)
Definition login_ok (schema_error : option Req.error) : HdbPool.world :=
  {| HdbPool.randomByte := "000"%char;
     HdbPool.factoryAnswer := inr EmptyString;
     HdbPool.connectAnswer := HdbPool.ConnectOk (Some "U") (Some "c00kie");
     HdbPool.schemaAnswer := schema_error |}.

(** A pool built from an assertion that keeps one handle alive and leaves
    [maxPoolSize] to its default. *)
Definition unset_max_options : HdbPool.options :=
  {| HdbPool.host := Some "example.host.com"; HdbPool.port := Some 30015;
     HdbPool.env := None; HdbPool.user := None; HdbPool.password := None;
     HdbPool.assertion := Some (HdbPool.AssertionText "<NameID>U</NameID>");
     HdbPool.sessionCookie := None;
     HdbPool.maxPoolSize := None; HdbPool.minPoolSize := Some 1;
     HdbPool.idleTimeoutMillis := None; HdbPool.refreshIdle := None;
     HdbPool.defaultSchema := None; HdbPool.resphPrefix := None |}.

Definition unset_max_pool : HDBPool.t :=
  {| HDBPool.reqQueue := ∅; HDBPool.env := "example.host.com";
     HDBPool.user := "U";
     HDBPool.pool :=
       GenericPool.construct (fun _ => "000"%char)
         {| HdbPool.c_options := unset_max_options;
            HdbPool.c_user := Some "U"; HdbPool.c_env := "example.host.com";
            HdbPool.c_max := Some 1; HdbPool.c_req := None |} 1 |}.

Definition two_first_acquisitions : list GenericPool.event :=
  [GenericPool.Acquire 1; GenericPool.Acquire 2;
   GenericPool.Answer 0 (login_ok None); GenericPool.Release 0].

(** * The rest of the code *)

(** ** Reading a record back

    The reader of RFC 4180 again, for a record of [n] fields: fields are
    read one after the other, with the separator between two of them. *)

Module DsvRecord.

Fixpoint read_fields (sep : ascii) (n : nat) (s : string)
  : option (list string * string) :=
  match n with
  | O => Some ([], s)
  | S m =>
      match Dsv.read_field sep s with
      | Some (f, r) =>
          match m with
          | O => Some ([f], r)
          | S _ =>
              match r with
              | String c r' =>
                  if Ascii.eqb c sep then
                    match read_fields sep m r' with
                    | Some (fs, r'') => Some (f :: fs, r'')
                    | None => None
                    end
                  else None
              | EmptyString => None
              end
          end
      | None => None
      end
  end.

(** A column of a quoted type, not of type 13, that holds the text [v] in
    [row]. *)
Definition quoted_text (hdbTypeCodes : Z -> option string)
    (row : list (string * Dsv.cell)) (c : Dsv.column) (v : string) : Prop :=
  Dsv.DSV_QUOTE (hdbTypeCodes (Dsv.dataType c)) = true
  /\ Dsv.dataType c <> 13
  /\ Dsv.at_name row (Dsv.row_key c) = Dsv.Text v.

End DsvRecord.

(** The row of the RFC 4180 test of the repository: three character
    columns holding the separator, a double quote, a line break. *)
Definition rfc4180_metadata : list Dsv.column :=
  [ {| Dsv.columnDisplayName := "COL1"; Dsv.dataType := 11 |};
    {| Dsv.columnDisplayName := "COL2"; Dsv.dataType := 11 |};
    {| Dsv.columnDisplayName := "COL3"; Dsv.dataType := 11 |} ].

Definition rfc4180_values : list string :=
  [ "value,value";
    "value" ++ String Dsv.DQUOTE "value";
    "value" ++ String Dsv.LF "value" ].

Definition rfc4180_row : list (string * Dsv.cell) :=
  [ ("COL1"%string, Dsv.Text "value,value");
    ("COL2"%string, Dsv.Text ("value" ++ String Dsv.DQUOTE "value"));
    ("COL3"%string, Dsv.Text ("value" ++ String Dsv.LF "value")) ].

(** ** What the session holds for an environment *)

Module Session.

(** [req.session.passport.user[env]] *)
Definition stored_entry (req : option Req.request) (env : string)
  : option Req.passport_env :=
  u ← Req.authenticated_user req; Req.pu_envs u !! env.

(** [session.save()] was called that many times. *)
Definition saves (req : option Req.request) : nat :=
  match req with
  | Some r =>
      match Req.req_session r with
      | Some s => Req.saved s
      | None => O
      end
  | None => O
  end.

(** [storeIntoSession] has all it asks for. *)
Definition storable (req : option Req.request) (env : string)
    (user sessionCookie : option string) : bool :=
  JS.truthy_str env && JS.truthy user && JS.truthy sessionCookie
  && bool_decide (is_Some (Req.authenticated_user req)).

End Session.

(** ** The course of a dispatch without request *)




(** What holds all along in standalone mode: while a callback is pending
    the caller was not called and nothing was released; afterwards the
    caller was called once, and the handle was released once unless the
    caller was told an error and no handle was held; or, after the
    TypeError of an empty answer ([thrown]), the caller was not called and
    the handle is still held. *)
Definition standalone (thrown : bool) (s : Dispatcher.state) : Prop :=
  Dispatcher.forget s = false
  /\ Dispatcher.closeCb s = false
  /\ Dispatcher.req s = None
  /\ Dispatcher.querymode s <> Dispatcher.STREAM
  /\ match Dispatcher.waits s with
     | Some w =>
         w <> Dispatcher.Streaming
         /\ Dispatcher.called s = [] /\ Dispatcher.released s = O
     | None =>
         (Dispatcher.released s = 1%nat /\ length (Dispatcher.called s) = 1%nat)
         \/ (Dispatcher.released s = O
             /\ exists e, Dispatcher.called s = [(Some e, None)])
         \/ (thrown = true
             /\ Dispatcher.released s = O /\ Dispatcher.called s = [])
     end.

(** ** hdbMetaPool.js: the registry of user pools *)

Module Registry.

(** The settings of [Conf] the environments do not hold: [Conf.userpool],
    [Conf.http.HEADER_PREFIX], and per environment the keys [SCHEMA] and
    [POOL_TTL_MS] of [Conf.db[env]]. *)
Record Settings : Type := mkSettings {
  POOL_SIZE : option Z;
  POOL_TTL_MS : option Z;
  USER_TIMEOUT : Z;
  HEADER_PREFIX : option string;
  SCHEMA : string -> option string;
  ENV_POOL_TTL_MS : string -> option Z
}.

(** [userPools[userId].pools[env]]: the pool object with the
    [_authMethod] put on it. *)
Record user_pool : Type := mkUserPool {
  instance : HDBPool.instance;
  _authMethod : option HdbPool.method
}.

(** [userPools[userId]]; a pool set to null is [None] in [pools].  The
    sessions are the objects registered, in the state they have when a
    function is called. *)
Record entry : Type := mkEntry {
  created : Z;
  pools : gmap string (option user_pool);
  sessions : gmap string Req.session;
  lastAccess : Z
}.

(** [getUserId(req)], for a configuration without [usernameSessionKey]:
    the key is then [nameID].  A session without [nameID] gives the prefix
    followed by the text of [undefined]. *)
Definition getUserId (c : MetaPool.Conf) (req : option Req.request)
  : option string :=
  match Req.authenticated_user req with
  | Some u =>
      Some (MetaPool.usernamePrefix c
            ++ match Req.nameID u with
               | Some s => s
               | None => "undefined"
               end)
  | None => None
  end.

(** A name read from an object literal that does not hold it finds what
    [Object.prototype] has under that name. *)
Definition inherited (name : string) : bool :=
  bool_decide (name ∈ MetaPool.Object_prototype).

(** [pools[env]] read as a condition. *)
Definition has_pool (ps : gmap string (option user_pool)) (env : string)
  : bool :=
  match ps !! env with
  | Some (Some _) => true
  | Some None => false
  | None => inherited env
  end.

(** [userPools[userId].pools[env]], when it is a pool. *)
Definition pool_at (reg : gmap string entry) (userId env : string)
  : option user_pool :=
  e ← reg !! userId; mjoin (pools e !! env).

(** [Conf.db[env]] read as an environment: a key that holds something
    else has none of the properties. *)
Definition env_conf_of (c : MetaPool.Conf) (env : string)
  : option MetaPool.env_conf :=
  match MetaPool.db_get (MetaPool.conf_db c) env with
  | Some (MetaPool.Environment e) => Some e
  | _ => None
  end.

Definition SESSION_EXPIRED_TOKEN : string := "SESSION_EXPIRED::".

(** [getAssertionFactory(masterAssertion)]: it throws when the assertion
    has expired.  [notOnOrAfter] is the date [wssclient.getAssertionInfo]
    gives, [clock] the time [moment()] reads and [fromNow] the text
    [moment] has for the date. *)
Definition getAssertionFactory (notOnOrAfter : option Z) (clock : Z)
    (fromNow : string) : string + HdbPool.assertion_opt :=
  match notOnOrAfter with
  | Some expDate =>
      if Z.ltb expDate clock
      then inl (SESSION_EXPIRED_TOKEN
                ++ "master assertion no longer valid (expired "
                ++ fromNow ++ ")")
      else inr HdbPool.AssertionFunction
  | None => inr HdbPool.AssertionFunction
  end.

(** [wssclient]: unset, or the client of the delegation service with what
    it answers about the master assertion. *)
Inductive wssclient : Type :=
  | NoClient
  | Client (notOnOrAfter : option Z) (clock : Z) (fromNow : string).

(** [poolAuthOpts]: the credentials of a new user pool, or the error the
    callback is given instead. *)
Inductive auth : Type :=
  | ByCookie (user sessionCookie : option string)
  | ByAssertion (user : string) (assertion : HdbPool.assertion_opt)
  | Refused (err : Req.error).

Definition choose_auth (wss : wssclient) (userId env : string)
    (u : Req.passport_user) : auth :=
  let by_assertion :=
    if JS.truthy (Req.pu_assertion u) then
      match wss with
      | NoClient =>
          ByAssertion userId
            (HdbPool.AssertionText (default EmptyString (Req.pu_assertion u)))
      | Client notOnOrAfter clock fromNow =>
          match getAssertionFactory notOnOrAfter clock fromNow with
          | inl message => Refused (Req.ErrObj None (Some message) None)
          | inr a => ByAssertion userId a
          end
      end
    else Refused (Req.ErrStr "unsupported hdb user pool authentication mode") in
  match Req.pu_envs u !! env with
  | Some e =>
      if JS.truthy (Req.HANAUser e) && JS.truthy (Req.HANAsessionCookie e)
      then ByCookie (Req.HANAUser e) (Req.HANAsessionCookie e)
      else by_assertion
  | None => by_assertion
  end.

Definition method_of (a : auth) : option HdbPool.method :=
  match a with
  | ByCookie _ _ => Some HdbPool.sessionCookie_
  | ByAssertion _ _ => Some HdbPool.assertion_
  | Refused _ => None
  end.

(** [poolOpts] of a user pool, extended with [poolAuthOpts]. *)
Definition poolOpts (c : MetaPool.Conf) (x : Settings) (env : string)
    (user sessionCookie : option string)
    (assertion : option HdbPool.assertion_opt) : HdbPool.options :=
  let e := env_conf_of c env in
  {| HdbPool.host := e ≫= MetaPool.HOST;
     HdbPool.port := e ≫= MetaPool.PORT;
     HdbPool.env := Some env;
     HdbPool.user := user;
     HdbPool.password := None;
     HdbPool.assertion := assertion;
     HdbPool.sessionCookie := sessionCookie;
     HdbPool.maxPoolSize := Some (HdbPool.num_or (POOL_SIZE x) 1);
     HdbPool.minPoolSize := Some 1;
     HdbPool.idleTimeoutMillis := Some (HdbPool.num_or (POOL_TTL_MS x) 30000);
     HdbPool.refreshIdle := Some false;
     HdbPool.defaultSchema :=
       if JS.truthy (e ≫= MetaPool.DEFAULT_SCHEMA)
       then e ≫= MetaPool.DEFAULT_SCHEMA else SCHEMA x env;
     HdbPool.resphPrefix := Some (JS.or_else (HEADER_PREFIX x) "x-hdb-") |}.

Definition auth_options (c : MetaPool.Conf) (x : Settings) (env : string)
    (a : auth) : HdbPool.options :=
  match a with
  | ByCookie user sessionCookie => poolOpts c x env user sessionCookie None
  | ByAssertion user assertion => poolOpts c x env (Some user) None (Some assertion)
  | Refused _ => poolOpts c x env None None None
  end.

(** [poolOpts] of the pool of an environment, in [initEnvPools]. *)
Definition envPoolOpts (x : Settings) (env : string) (e : MetaPool.env_conf)
  : HdbPool.options :=
  {| HdbPool.host := MetaPool.HOST e;
     HdbPool.port := MetaPool.PORT e;
     HdbPool.env := Some env;
     HdbPool.user := MetaPool.USER e;
     HdbPool.password := MetaPool.PASS e;
     HdbPool.assertion := None;
     HdbPool.sessionCookie := None;
     HdbPool.maxPoolSize := MetaPool.POOL_SIZE e;
     HdbPool.minPoolSize := None;
     HdbPool.idleTimeoutMillis :=
       Some (HdbPool.num_or (ENV_POOL_TTL_MS x env) 30000);
     HdbPool.refreshIdle := None;
     HdbPool.defaultSchema :=
       if JS.truthy (MetaPool.DEFAULT_SCHEMA e)
       then MetaPool.DEFAULT_SCHEMA e else SCHEMA x env;
     HdbPool.resphPrefix := Some (JS.or_else (HEADER_PREFIX x) "x-hdb-") |}.

(** What [createUserPool] ends with: [cb(null, userId, env)], [cb(err)],
    or a TypeError. *)
Inductive outcome : Type :=
  | Ok (userId env : string)
  | Err (err : Req.error)
  | Threw.

Section Pools.

Variable url_parse_query : string -> gmap string string.
Variable NameID : string -> option string.
Variable randomBytes : nat -> ascii.

(** The entry of the user, as found or as made, with the session of the
    request registered under its id and the time of access set. *)
Definition touch (found : option entry) (sessionId : string)
    (s : Req.session) (now : Z) : entry :=
  let o := match found with
           | Some o => o
           | None => {| created := now; pools := ∅; sessions := ∅;
                        lastAccess := now |}
           end in
  {| created := created o; pools := pools o;
     sessions := match sessions o !! sessionId with
                 | Some _ => sessions o
                 | None => if inherited sessionId then sessions o
                           else <[sessionId := s]> (sessions o)
                 end;
     lastAccess := now |}.

Definition set_pool (o : entry) (env : string) (p : user_pool) : entry :=
  {| created := created o; pools := <[env := Some p]> (pools o);
     sessions := sessions o; lastAccess := lastAccess o |}.

(** [createUserPool(req, env, cb)] at time [now]; an [env] that is not
    given is the empty text.  Without a request the log line of the
    unauthenticated case reads [req.session] and throws.  The second test
    of the session, before the options are put together, cannot fail where
    [getUserId] has answered. *)
Definition createUserPool (c : MetaPool.Conf) (x : Settings)
    (wss : wssclient) (now : Z) (req : option Req.request) (env : string)
    (reg : gmap string entry) (net : list HDBPool.dial)
  : outcome * gmap string entry * list HDBPool.dial :=
  let session := req ≫= Req.req_session in
  let sessionId := session ≫= Req.sess_id in
  if bool_decide (is_Some session) && negb (JS.truthy sessionId)
  then (Err (Req.ErrStr "empty session id"), reg, net)
  else
    match req, getUserId c req, session, Req.authenticated_user req with
    | None, _, _, _ => (Threw, reg, net)
    | Some _, Some (String a0 uid), Some s, Some u =>
        let userId := String a0 uid in
        let env := if JS.truthy_str env then env
                   else MetaPool.getEnvFromRequest url_parse_query c req in
        if negb (MetaPool.truthy_entry (MetaPool.db_get (MetaPool.conf_db c) env))
        then (Err (Req.ErrStr ("Invalid " ++ MetaPool.sourceSysField c
                               ++ " value: " ++ env)), reg, net)
        else if bool_decide (reg !! userId = None) && inherited userId
        then (Threw, reg, net)
        else
          let o := touch (reg !! userId) (default EmptyString sessionId) s now in
          let reg1 := <[userId := o]> reg in
          if has_pool (pools o) env then (Ok userId env, reg1, net)
          else
            match choose_auth wss userId env u with
            | Refused err => (Err err, reg1, net)
            | a =>
                match HDBPool.createPool NameID randomBytes
                        (auth_options c x env a) req net with
                | (Some i, net') =>
                    (Ok userId env,
                     <[userId := set_pool o env
                                   {| instance := i;
                                      _authMethod := method_of a |}]> reg,
                     net')
                | (None, net') => (Threw, reg1, net')
                end
            end
    | Some _, _, _, _ =>
        (Err (Req.ErrStr "session is not authenticated"), reg, net)
    end.

(** [hasUserPool(req)] *)
Definition hasUserPool (c : MetaPool.Conf) (reg : gmap string entry)
    (req : option Req.request) : bool :=
  let userId := default "null" (getUserId c req) in
  let env := MetaPool.getEnvFromRequest url_parse_query c req in
  match reg !! userId with
  | Some o => has_pool (pools o) env
  | None => false
  end
  || JS.truthy (Req.stored_cookie req env).

(** [hasEnv(req)]; [None] is the TypeError of a request without headers
    or without query. *)
Definition hasEnv (c : MetaPool.Conf) (r : Req.request) : option bool :=
  let f := MetaPool.sourceSysField c in
  match Req.headers r with
  | None => None
  | Some h =>
      if JS.truthy (h !! f) then Some true
      else
        match Req.query r with
        | None => None
        | Some q =>
            if JS.truthy (q !! f) then Some true
            else
              match Req.req_session r with
              | Some s =>
                  match Req.returnTo s with
                  | Some (String a u) =>
                      Some (JS.truthy (url_parse_query (String a u) !! f))
                  | _ => Some false
                  end
              | None => Some false
              end
        end
  end.

End Pools.

(** [drainUserPool(userId, cb)] for a user id that is no name of
    [Object.prototype]: the registry without the user and the environments
    whose pools are drained.  [None] is the TypeError in which the test of
    the first line ends when the user is not registered. *)
Definition drainUserPool (reg : gmap string entry) (userId : string)
  : option (gmap string entry * list string) :=
  match reg !! userId with
  | None => None
  | Some o =>
      Some (delete userId reg,
            omap (fun kv => match kv.2 with
                            | Some p =>
                                match instance p with
                                | HDBPool.Ready _ => Some kv.1
                                | HDBPool.Bare => None
                                end
                            | None => None
                            end)
                 (map_to_list (pools o)))
  end.

(** The body of the iterator over the sessions in [cleanupUserPools]: the
    entries of all environments of the configuration are deleted and the
    session saved; a session without [passport.user] ends it in a
    TypeError.  The environments are taken not to be named like the fields
    [nameID] and [assertion] of the same object. *)
Definition clear_session (c : MetaPool.Conf) (s : Req.session)
  : option Req.session :=
  match Req.passport_user_of s with
  | Some u =>
      Some (Req.save
              {| Req.sess_id := Req.sess_id s;
                 Req.sess_fields := Req.sess_fields s;
                 Req.returnTo := Req.returnTo s;
                 Req.passport_user_of :=
                   Some {| Req.nameID := Req.nameID u;
                           Req.pu_assertion := Req.pu_assertion u;
                           Req.pu_envs :=
                             filter (fun kv => negb (MetaPool.configured c kv.1))
                                    (Req.pu_envs u) |};
                 Req.saved := Req.saved s |})
  | None => None
  end.

(** One turn of the loop of [cleanupUserPools]: the registry and the
    sessions cleared so far; [None] once a TypeError has ended the loop. *)
Definition expire (c : MetaPool.Conf) (threshold : Z)
    (acc : option (gmap string entry * list Req.session))
    (kv : string * entry) : option (gmap string entry * list Req.session) :=
  match acc with
  | None => None
  | Some (reg, cleared) =>
      if Z.ltb (lastAccess kv.2) threshold then
        match drainUserPool reg kv.1 with
        | Some (reg', _) =>
            match mapM (clear_session c) (map snd (map_to_list (sessions kv.2))) with
            | Some ss => Some (reg', (cleared ++ ss)%list)
            | None => None
            end
        | None => None
        end
      else acc
  end.

(** [cleanupUserPools()] at time [now]. *)
Definition cleanupUserPools (c : MetaPool.Conf) (x : Settings) (now : Z)
    (reg : gmap string entry)
  : option (gmap string entry * list Req.session) :=
  fold_left (expire c (now - USER_TIMEOUT x * 1000)) (map_to_list reg)
    (Some (reg, [])).

End Registry.

(** The HANA user and the cookie the session of a request holds for an
    environment, when it holds both. *)
Definition session_login (req : option Req.request) (env : string)
  : option Req.passport_env :=
  u ← Req.authenticated_user req;
  e ← Req.pu_envs u !! env;
  if JS.truthy (Req.HANAUser e) && JS.truthy (Req.HANAsessionCookie e)
  then Some e else None.

(** The registry holds a pool exactly where the state the recovery works
    on has one. *)
Definition same_pools (reg : gmap string Registry.entry)
    (st : Recovery.state) : Prop :=
  forall userId env,
    is_Some (Registry.pool_at reg userId env)
    <-> is_Some (Recovery.registered st userId env).

(** ** Sample data for the registry *)

(** The settings the module starts with, a [url.parse] that finds no
    query, and the request of a user with a session: the assertion of the
    login and, for HDB, a HANA user and a cookie. *)
Definition settings0 : Registry.Settings :=
  {| Registry.POOL_SIZE := Some 3; Registry.POOL_TTL_MS := Some 30000;
     Registry.USER_TIMEOUT := 10; Registry.HEADER_PREFIX := Some "x-hdb-";
     Registry.SCHEMA := fun _ => None;
     Registry.ENV_POOL_TTL_MS := fun _ => Some 30000 |}.

Definition no_query : string -> gmap string string := fun _ => ∅.

Definition alice_request : Req.request :=
  Recovery.req (tenant_state HdbPool.sessionCookie_).

(** The first call of [createUserPool] for that request, at time 1000. *)
Definition first_call
  : Registry.outcome * gmap string Registry.entry * list HDBPool.dial :=
  Registry.createUserPool no_query (fun _ => None) (fun _ => "000"%char)
    Conf0 settings0 Registry.NoClient 1000 (Some alice_request) EmptyString
    ∅ [].

(** The state the recovery leaves after an authentication failure on a
    pool created from the cookie, and the registry that goes with it. *)
Definition recovered : Recovery.outcome * Recovery.state :=
  Recovery._drain (tenant_state HdbPool.sessionCookie_) "alice" "HDB"
    (Some (auth_failed None)) None.

Definition recovered_registry : gmap string Registry.entry :=
  {[ "alice" := {| Registry.created := 0;
                   Registry.pools := {[ "HDB" := None ]};
                   Registry.sessions := ∅;
                   Registry.lastAccess := 1000 |} ]}.

(** A registry with an idle user and a recent one, at time 100000 with a
    timeout of ten seconds. *)
Definition two_users : gmap string Registry.entry :=
  {[ "alice" := {| Registry.created := 0; Registry.pools := ∅;
                   Registry.sessions :=
                     {[ "sid" := default
                                   {| Req.sess_id := None; Req.sess_fields := ∅;
                                      Req.returnTo := None;
                                      Req.passport_user_of := None;
                                      Req.saved := 0 |}
                                   (Req.req_session alice_request) ]};
                   Registry.lastAccess := 1000 |};
     "bob" := {| Registry.created := 95000; Registry.pools := ∅;
                 Registry.sessions := ∅; Registry.lastAccess := 95000 |} ]}.

(** * Properties *)

(** ** Delimiter-separated output *)

Section DsvFacts.

Import Dsv.

Lemma prefix_single (c : ascii) (v : string) :
  String.prefix (String c EmptyString) v
  = match v with
    | String d _ => Ascii.eqb d c
    | EmptyString => false
    end.
Proof.
  destruct v as [|d v']; simpl; [reflexivity|].
  destruct (ascii_dec c d) as [->|Hne].
  - rewrite Ascii.eqb_refl. now destruct v'.
  - symmetry. apply Ascii.eqb_neq. congruence.
Qed.

Lemma indexOf_from_char (c : ascii) (v : string) (i : Z) :
  0 <= i ->
  Z.leb 0 (JS.indexOf_from i (String c EmptyString) v) = contains_char c v.
Proof.
  revert i. induction v as [|d v' IH]; intros i Hi.
  - reflexivity.
  - cbn [JS.indexOf_from contains_char]. rewrite prefix_single.
    destruct (Ascii.eqb d c); simpl.
    + apply Z.leb_le. lia.
    + apply IH. lia.
Qed.

Lemma indexOf_char (c : ascii) (v : string) :
  Z.leb 0 (JS.indexOf v (String c EmptyString)) = contains_char c v.
Proof. unfold JS.indexOf. now apply indexOf_from_char. Qed.

Lemma prefix_cons (a b : ascii) (s1 s2 : string) :
  String.prefix (String a s1) (String b s2)
  = Ascii.eqb b a && String.prefix s1 s2.
Proof.
  cbn [String.prefix]. destruct (ascii_dec a b) as [->|Hne].
  - now rewrite Ascii.eqb_refl.
  - replace (Ascii.eqb b a) with false; [reflexivity|].
    symmetry. apply Ascii.eqb_neq. congruence.
Qed.

Lemma linebreak_at_head (d : ascii) (v : string) :
  linebreak_at (String d v) = Ascii.eqb d CR || Ascii.eqb d LF.
Proof.
  unfold linebreak_at. rewrite prefix_cons, !prefix_single.
  destruct (Ascii.eqb d CR), (Ascii.eqb d LF); simpl;
    rewrite ?orb_true_r, ?orb_false_r; reflexivity.
Qed.

Lemma match_linebreak_chars (v : string) :
  match_linebreak v = contains_char CR v || contains_char LF v.
Proof.
  induction v as [|d v' IH]; [reflexivity|].
  cbn [match_linebreak contains_char]. rewrite linebreak_at_head, IH.
  destruct (Ascii.eqb d CR), (Ascii.eqb d LF), (contains_char CR v'),
    (contains_char LF v'); reflexivity.
Qed.

Lemma needs_quotes_nonempty (sep : ascii) (v : string) :
  needs_quotes sep v = true -> JS.truthy_str v = true.
Proof. destruct v; [discriminate | reflexivity]. Qed.

(** The test of [dsvquote] is the one the claim words. *)
Lemma dsvquote_test (sep : ascii) (v : string) :
  JS.truthy_str v
  && (Z.leb 0 (JS.indexOf v (String sep EmptyString))
      || Z.leb 0 (JS.indexOf v (String DQUOTE EmptyString))
      || match_linebreak v)
  = needs_quotes sep v.
Proof.
  rewrite !indexOf_char, match_linebreak_chars. unfold needs_quotes.
  rewrite orb_assoc.
  destruct (contains_char sep v || contains_char DQUOTE v
            || contains_char CR v || contains_char LF v) eqn:E.
  - rewrite (needs_quotes_nonempty sep v E). reflexivity.
  - apply andb_false_r.
Qed.

Lemma read_escaped_escape (v rest : string) :
  match rest with
  | String c _ => Ascii.eqb c DQUOTE = false
  | EmptyString => True
  end ->
  read_escaped (escape v ++ String DQUOTE rest) = Some (v, rest).
Proof.
  intros Hrest. induction v as [|d v' IH].
  - simpl. destruct rest as [|c r]; [reflexivity|]. now rewrite Hrest.
  - cbn [escape]. destruct (Ascii.eqb d DQUOTE) eqn:Hd.
    + apply Ascii.eqb_eq in Hd. subst d.
      change (read_escaped (String DQUOTE (String DQUOTE
                (escape v' ++ String DQUOTE rest))) = Some (String DQUOTE v', rest)).
      cbn [read_escaped]. rewrite Ascii.eqb_refl. now rewrite IH.
    + change (read_escaped (String d (escape v' ++ String DQUOTE rest))
              = Some (String d v', rest)).
      cbn [read_escaped]. rewrite Hd. now rewrite IH.
Qed.

Lemma read_plain_all (sep : ascii) (v rest : string) :
  needs_quotes sep v = false ->
  field_follow sep rest = true ->
  read_plain sep (v ++ rest) = (v, rest).
Proof.
  intros Hv Hrest. induction v as [|d v' IH].
  - change (read_plain sep rest = (EmptyString, rest)).
    destruct rest as [|c r]; [reflexivity|].
    unfold field_follow in Hrest. cbn [read_plain]. now rewrite Hrest.
  - unfold needs_quotes in Hv. cbn [contains_char] in Hv.
    change (read_plain sep (String d (v' ++ rest)) = (String d v', rest)).
    cbn [read_plain]. unfold ends_field.
    destruct (Ascii.eqb d sep) eqn:E1; [discriminate Hv|].
    destruct (Ascii.eqb d DQUOTE) eqn:E2;
      [rewrite ?orb_true_r in Hv; discriminate Hv|].
    destruct (Ascii.eqb d CR) eqn:E3;
      [rewrite ?orb_true_r in Hv; discriminate Hv|].
    destruct (Ascii.eqb d LF) eqn:E4;
      [rewrite ?orb_true_r in Hv; discriminate Hv|].
    simpl. rewrite IH; [reflexivity|]. exact Hv.
Qed.

Lemma plain_head (sep : ascii) (d : ascii) (v : string) :
  needs_quotes sep (String d v) = false -> Ascii.eqb d DQUOTE = false.
Proof.
  unfold needs_quotes. cbn [contains_char].
  destruct (Ascii.eqb d DQUOTE); [|reflexivity].
  now rewrite ?orb_true_r.
Qed.

End DsvFacts.

Lemma follow_not_quote (sep c : ascii) :
  sep <> Dsv.DQUOTE -> Dsv.ends_field sep c = true ->
  Ascii.eqb c Dsv.DQUOTE = false.
Proof.
  intros Hsep H. apply Ascii.eqb_neq. intros ->.
  unfold Dsv.ends_field in H.
  destruct (Ascii.eqb_spec Dsv.DQUOTE sep) as [E|_]; [congruence|].
  discriminate H.
Qed.

Lemma append_String_assoc (a b c : string) :
  ((a ++ b) ++ c = a ++ (b ++ c))%string.
Proof.
  induction a as [|x a IH]; [reflexivity|].
  change (String x ((a ++ b) ++ c) = String x (a ++ (b ++ c)))%string.
  now rewrite IH.
Qed.

(** [dsvquote] encloses a value in double quotes exactly when the value
    contains the separator, a double quote or a line break (CR or LF), and
    then doubles every double quote inside; a reader of RFC 4180 that meets
    the output, followed by whatever may follow a field in a record, reads
    back the value itself. *)
Lemma dsvquote_roundtrip (sep : ascii) (v rest : string) :
  sep <> Dsv.DQUOTE ->
  Dsv.field_follow sep rest = true ->
  Dsv.dsvquote v (String sep EmptyString)
  = (if Dsv.needs_quotes sep v
     then String Dsv.DQUOTE (Dsv.escape v ++ String Dsv.DQUOTE EmptyString)
     else v)
  /\ Dsv.read_field sep (Dsv.dsvquote v (String sep EmptyString) ++ rest)
     = Some (v, rest).
Proof.
  intros Hsep Hrest. unfold Dsv.dsvquote. rewrite dsvquote_test.
  destruct (Dsv.needs_quotes sep v) eqn:Hq; split; try reflexivity.
  - change (Dsv.read_field sep
              (String Dsv.DQUOTE
                 ((Dsv.escape v ++ String Dsv.DQUOTE EmptyString) ++ rest))
            = Some (v, rest)).
    rewrite append_String_assoc.
    cbn [Dsv.read_field]. rewrite Ascii.eqb_refl.
    apply read_escaped_escape.
    destruct rest as [|c r]; [exact I|].
    now apply (follow_not_quote sep).
  - destruct v as [|d v'].
    + change (Dsv.read_field sep rest = Some (EmptyString, rest)).
      destruct rest as [|c r]; [reflexivity|].
      cbn [Dsv.read_field]. rewrite (follow_not_quote sep c Hsep Hrest).
      cbn [Dsv.read_plain]. unfold Dsv.field_follow in Hrest.
      now rewrite Hrest.
    + change (Dsv.read_field sep (String d (v' ++ rest))
              = Some (String d v', rest)).
      cbn [Dsv.read_field]. rewrite (plain_head sep d v' Hq).
      change (String d (v' ++ rest)) with (String d v' ++ rest)%string.
      now rewrite read_plain_all.
Qed.

Lemma quoted_type_not_formatted (t : option string) :
  Dsv.DSV_QUOTE t = true -> Dsv.DSV_FORMAT t = false.
Proof.
  destruct t as [n|]; [|discriminate]. unfold Dsv.DSV_QUOTE. intros H.
  apply bool_decide_eq_true in H.
  repeat (apply elem_of_cons in H as [->|H]; [vm_compute; reflexivity|]).
  now apply elem_of_nil in H.
Qed.

Lemma read_plain_no_separator (sep : ascii) (s : string) :
  Dsv.contains_char sep (fst (Dsv.read_plain sep s)) = false.
Proof.
  induction s as [|c s IH]; [reflexivity|].
  cbn [Dsv.read_plain].
  destruct (Dsv.ends_field sep c) eqn:He; [reflexivity|].
  destruct (Dsv.read_plain sep s) as [f r]. cbn [fst Dsv.contains_char] in *.
  rewrite IH, orb_false_r.
  unfold Dsv.ends_field in He.
  now destruct (Ascii.eqb c sep).
Qed.

(** What [createDsvStringifier] builds, where it builds the function
    modelled. *)
Lemma createDsvStringifier_Some (hdbTypeCodes : Z -> option string)
    (moment_format : option (Dsv.cell -> string)) (metadata : list Dsv.column)
    (sep : ascii) (h : string)
    (f : list (string * Dsv.cell) -> Dsv.thrown + string) :
  Dsv.createDsvStringifier hdbTypeCodes moment_format metadata
    (String sep EmptyString) = Some (h, f) ->
  f = Dsv.stringify hdbTypeCodes moment_format metadata (String sep EmptyString)
  /\ Forall (fun c => Dsv.literal Dsv.APOSTROPHE (Dsv.row_key c) = true)
       metadata
  /\ sep <> Dsv.DQUOTE /\ sep <> "\"%char.
Proof.
  unfold Dsv.createDsvStringifier. cbn [JS.truthy_str].
  destruct (forallb _ metadata) eqn:Hall; [|discriminate].
  destruct (Dsv.literal Dsv.DQUOTE (String sep EmptyString)) eqn:Hsep;
    [|discriminate].
  intros [= <- <-]. split; [reflexivity|]. split.
  - apply Forall_forall. intros c Hc.
    rewrite forallb_forall in Hall.
    assert (Hin : In c metadata) by now apply list_elem_of_In.
    specialize (Hall c Hin). unfold Dsv.expression_ok in Hall.
    now apply andb_true_iff in Hall.
  - cbn [Dsv.literal] in Hsep. unfold Dsv.breaks_literal in Hsep.
    split; intros ->; cbn in Hsep; discriminate Hsep.
Qed.

(** C7, on the code.  The serializer quotes by the type of the column,
    not by the value: a text in a column whose type is in neither table
    (CLOB and NCLOB are not, so the text of a LOB the transform has
    inlined) is written as it is, although it holds the separator, and a
    reader of RFC 4180 does not read it back: it takes the text up to the
    separator for the field. *)
Theorem text_outside_the_table_is_not_quoted
    (hdbTypeCodes : Z -> option string)
    (moment_format : option (Dsv.cell -> string))
    (sep : ascii) (row : list (string * Dsv.cell)) (c : Dsv.column)
    (v rest h : string)
    (f : list (string * Dsv.cell) -> Dsv.thrown + string) :
  Dsv.createDsvStringifier hdbTypeCodes moment_format [c]
    (String sep EmptyString) = Some (h, f) ->
  Dsv.DSV_QUOTE (hdbTypeCodes (Dsv.dataType c)) = false ->
  Dsv.DSV_FORMAT (hdbTypeCodes (Dsv.dataType c)) = false ->
  Dsv.dataType c <> 13 ->
  Dsv.at_name row (Dsv.row_key c) = Dsv.Text v ->
  Dsv.contains_char sep v = true ->
  String.prefix (String Dsv.DQUOTE EmptyString) v = false ->
  f row = inr v
  /\ Dsv.needs_quotes sep v = true
  /\ exists field left,
       Dsv.read_field sep (v ++ rest) = Some (field, left) /\ field <> v.
Proof.
  intros Hf Hq Hfmt H13 Hv Hsep Hhead.
  destruct (createDsvStringifier_Some _ _ _ _ _ _ Hf) as (-> & _ & _ & _).
  split; [|split].
  - unfold Dsv.stringify, Dsv.line, Dsv.pushed.
    rewrite Hq, Hfmt, Hv. cbn [Dsv.ifnull].
    rewrite (proj2 (Z.eqb_neq _ _) H13). reflexivity.
  - unfold Dsv.needs_quotes. now rewrite Hsep.
  - destruct v as [|d v']; [discriminate Hsep|].
    assert (Hd : Ascii.eqb d Dsv.DQUOTE = false).
    { rewrite prefix_cons in Hhead. cbn in Hhead.
      destruct (Ascii.eqb_spec Dsv.DQUOTE d) as [<-|Hne].
      - now destruct v'.
      - apply Ascii.eqb_neq. congruence. }
    change (String d v' ++ rest)%string with (String d (v' ++ rest)).
    cbn [Dsv.read_field]. rewrite Hd.
    pose proof (read_plain_no_separator sep (String d (v' ++ rest))) as Hno.
    destruct (Dsv.read_plain sep (String d (v' ++ rest))) as [field left].
    exists field, left. split; [reflexivity|].
    intros ->. cbn [fst] in Hno. congruence.
Qed.

(** The text of an NCLOB column, as the LOB transform inlines it. *)
Lemma text_outside_the_table_is_not_quoted_witness :
  Dsv.stringify sample_type_codes None
    [{| Dsv.columnDisplayName := "COL2"; Dsv.dataType := 26 |}] "," sample_row
  = inr "lorem,ipsum"
  /\ Dsv.needs_quotes "," "lorem,ipsum" = true
  /\ exists field left,
       Dsv.read_field "," ("lorem,ipsum" ++ Dsv.DSV_DELIMITER)
       = Some (field, left) /\ field <> "lorem,ipsum".
Proof.
  apply (text_outside_the_table_is_not_quoted sample_type_codes None ","
           sample_row
           {| Dsv.columnDisplayName := "COL2"; Dsv.dataType := 26 |}
           "lorem,ipsum" Dsv.DSV_DELIMITER
           (Dsv.header [{| Dsv.columnDisplayName := "COL2";
                           Dsv.dataType := 26 |}] ","));
    try reflexivity.
  discriminate.
Defined.

(** The result set of the repository's test 'should stream LOB-query as
    CSV', with a separator in the text of the LOB: the line written has
    three fields where the row has two columns. *)
Example lob_row_as_csv :
  exists f,
    Dsv.createCsvStringifier sample_type_codes None sample_metadata
    = Some ("COL1,COL2" ++ Dsv.DSV_DELIMITER, f)
    /\ f sample_row
       = inr (String Dsv.DQUOTE
                ("value,value" ++ String Dsv.DQUOTE ",lorem,ipsum"))
    /\ DsvRecord.read_fields "," 3
         (String Dsv.DQUOTE
            ("value,value" ++ String Dsv.DQUOTE ",lorem,ipsum"))
       = Some (["value,value"; "lorem"; "ipsum"], EmptyString).
Proof. eexists. repeat split; vm_compute; reflexivity. Qed.

(** What else the generated function does instead of writing a line: a
    column of type 13 makes every row end in a RangeError, and a date that
    is not null ends in a ReferenceError when no global [moment] exists. *)
Example rows_that_throw :
  Dsv.stringify (fun _ => Some "VARBINARY") None
    [{| Dsv.columnDisplayName := "B"; Dsv.dataType := 13 |}] ","
    [("B"%string, Dsv.Text "00ff")]
  = inl Dsv.RangeError
  /\ Dsv.stringify (fun _ => Some "TIMESTAMP") None
       [{| Dsv.columnDisplayName := "T"; Dsv.dataType := 16 |}] ","
       [("T"%string, Dsv.Text "2016-01-01 00:00:00")]
     = inl Dsv.ReferenceError
  /\ Dsv.stringify (fun _ => Some "TIMESTAMP") None
       [{| Dsv.columnDisplayName := "T"; Dsv.dataType := 16 |}] ","
       [("T"%string, Dsv.Null)]
     = inr "\N"
  /\ Dsv.createCsvStringifier (fun _ => Some "INTEGER") None
       [{| Dsv.columnDisplayName := "it's"; Dsv.dataType := 3 |}]
     = None.
Proof. repeat split; vm_compute; reflexivity. Qed.

(** ** The LOB transform *)

Section LobFacts.

Import Lobs.

Variable toString : string -> string -> string.
Variable encoding : string.

Local Open Scope list_scope.

Local Abbreviation inlined := (Lobs.inlined toString encoding).
Local Abbreviation assign := (Lobs.assign toString encoding).
Local Abbreviation transform_row := (Lobs.transform_row toString encoding).
Local Abbreviation inline_entry := (Lobs.inline_entry toString encoding).

Lemma columns_inline (d : row) : columns (map inline_entry d) = columns d.
Proof. unfold columns. rewrite map_map. reflexivity. Qed.

Lemma set_at (pre post : row) (c : string) (w v : value) :
  c ∉ columns pre ->
  Lobs.set (pre ++ (c, w) :: post) c v = pre ++ (c, v) :: post.
Proof.
  induction pre as [|[k x] pre IH]; intros Hc.
  - cbn [app Lobs.set]. now rewrite String.eqb_refl.
  - cbn [app Lobs.set]. cbn [columns map fst] in Hc.
    apply not_elem_of_cons in Hc as [Hk Hc].
    destruct (String.eqb_spec k c) as [->|_]; [congruence|].
    f_equal. now apply IH.
Qed.

Lemma assign_at (pre post : row) (e : string * value) :
  fst e ∉ columns pre ->
  assign (pre ++ e :: post) e = pre ++ inline_entry e :: post.
Proof.
  destruct e as [c v]. cbn [fst]. intros Hc.
  unfold Lobs.assign, inline_entry, Lobs.inlined, column_result. cbn [fst snd].
  destruct v as [| n | s | l]; try reflexivity.
  destruct (lobClose l); now apply set_at.
Qed.

Lemma fold_assign (pre post : row) :
  NoDup (columns (pre ++ post)) ->
  fold_left assign post (map inline_entry pre ++ post)
  = map inline_entry (pre ++ post).
Proof.
  revert pre. induction post as [|e post IH]; intros pre Hnd.
  - cbn [fold_left]. now rewrite !app_nil_r.
  - cbn [fold_left]. rewrite assign_at.
    + replace (map inline_entry pre ++ inline_entry e :: post)
        with (map inline_entry (pre ++ [e]) ++ post)
        by (rewrite map_app, <- app_assoc; reflexivity).
      rewrite IH; rewrite <- app_assoc; [reflexivity | exact Hnd].
    + rewrite columns_inline. unfold columns in *.
      rewrite map_app in Hnd. apply NoDup_app in Hnd as (_ & Hdis & _).
      intros Hin. apply (Hdis _ Hin). cbn [map]. apply elem_of_cons. now left.
Qed.

(** On an object, whose column names are distinct, [transform] inlines
    every column where it stands. *)
Lemma transform_row_inlines (d : row) :
  NoDup (columns d) -> transform_row d = map inline_entry d.
Proof. intros Hnd. apply (fold_assign [] d Hnd). Qed.

Lemma get_inline (d : row) (c : string) :
  get (map inline_entry d) c = inlined <$> get d c.
Proof.
  induction d as [|[k v] d IH]; [reflexivity|].
  cbn [map inline_entry fst snd get].
  destruct (String.eqb k c); [reflexivity | exact IH].
Qed.

Lemma assign_plain (acc : row) (e : string * value) :
  is_lob (snd e) = false -> assign acc e = acc.
Proof.
  destruct e as [c v]. unfold Lobs.assign, column_result. cbn [snd].
  now destruct v.
Qed.

Lemma fold_assign_plain (entries acc : row) :
  Forall (fun e => is_lob (snd e) = false) entries ->
  fold_left assign entries acc = acc.
Proof.
  revert acc. induction entries as [|e entries IH]; intros acc Hd;
    [reflexivity|].
  cbn [fold_left]. apply Forall_cons in Hd as [He Hd].
  rewrite assign_plain by exact He. now apply IH.
Qed.

Lemma transform_row_plain (d : row) :
  Forall (fun e => is_lob (snd e) = false) d -> transform_row d = d.
Proof. apply fold_assign_plain. Qed.

End LobFacts.

(** C5. In a row whose LOB column fails to read, that column becomes the
    sentinel string and every column of the row (the siblings included)
    holds its correctly inlined value, under the same name and at the same
    place; a row without LOB columns comes out as it went in; a batch of
    rows is transformed row by row in order, and in a stream of rows each
    row is transformed on its own, whatever happened to the rows before. *)
Theorem transformLobs_isolates_failures
    (toString : string -> string -> string) (encoding : string)
    (rows : list Lobs.row) :
  Forall (fun d => NoDup (Lobs.columns d)) rows ->
  Lobs._transform toString encoding (Lobs.Many rows)
  = Lobs.Many (map (Lobs.transform_row toString encoding) rows)
  /\ Lobs.pipe toString encoding (map (fun d => Lobs.One (Some d)) rows)
     = map (fun d => Lobs.One (Some (Lobs.transform_row toString encoding d)))
         rows
  /\ forall d, d ∈ rows ->
       (forall c l,
           Lobs.get d c = Some (Lobs.VLob l) ->
           Lobs.lobClose l = Lobs.LobError ->
           Lobs.get (Lobs.transform_row toString encoding d) c
           = Some (Lobs.VStr Lobs.LOB_ERROR))
       /\ (forall c v,
              Lobs.get d c = Some v ->
              Lobs.get (Lobs.transform_row toString encoding d) c
              = Some (Lobs.inlined toString encoding v))
       /\ Lobs.columns (Lobs.transform_row toString encoding d)
          = Lobs.columns d
       /\ (Forall (fun e => Lobs.is_lob (snd e) = false) d ->
           Lobs.transform_row toString encoding d = d).
Proof.
  intros Hrows. split; [|split].
  - destruct rows; reflexivity.
  - unfold Lobs.pipe. rewrite map_map. reflexivity.
  - intros d Hd.
    assert (Hnd : NoDup (Lobs.columns d)).
    { rewrite Forall_forall in Hrows. now apply Hrows. }
    pose proof (transform_row_inlines toString encoding d Hnd) as Heq.
    repeat split.
    + intros c l Hget Hfail. rewrite Heq, get_inline, Hget.
      cbn. now rewrite Hfail.
    + intros c v Hget. now rewrite Heq, get_inline, Hget.
    + rewrite Heq. apply columns_inline.
    + apply transform_row_plain.
Qed.

Lemma transformLobs_isolates_failures_witness :
  Lobs._transform (fun _ s => s) "utf8" (Lobs.Many lob_sample)
  = Lobs.Many
      [ [ ("COL1"%string, Lobs.VStr "c1r1");
          ("COL2"%string, Lobs.VStr "Error while reading Lob!");
          ("COL3"%string, Lobs.VStr "ipsum") ];
        [ ("COL1"%string, Lobs.VStr "c1r2");
          ("COL2"%string, Lobs.VStr "dolor");
          ("COL3"%string, Lobs.VNull) ] ].
Proof.
  refine (proj1 (transformLobs_isolates_failures (fun _ s => s) "utf8"
                   lob_sample _)).
  refine (bool_decide_unpack _ _). vm_compute. exact I.
Defined.

(** ** Authentication strategy *)

Lemma choose_strategy (o : HdbPool.options) (u : option string) (b : ascii) :
  HdbPool.strategy (HdbPool.choose o u b) = strategy_by_precedence o.
Proof.
  unfold HdbPool.choose, strategy_by_precedence.
  destruct (JS.truthy (HdbPool.user o) && JS.truthy (HdbPool.password o));
    [reflexivity|].
  destruct (JS.truthy (HdbPool.user o) && JS.truthy (HdbPool.sessionCookie o));
    [reflexivity|].
  destruct (HdbPool.truthy_assertion (HdbPool.assertion o)); reflexivity.
Qed.

Lemma conn_sends (k : HdbPool.closure) (c : HdbPool.connOpts)
    (w : HdbPool.world) :
  HdbPool.cr_sent (HdbPool.conn k c w) = Some c.
Proof. unfold HdbPool.conn. destruct (HdbPool.connectAnswer w); reflexivity. Qed.

(** C6. [create] takes the one strategy the precedence password, session
    cookie, assertion gives for the options: with user and password it
    connects by password with the configured password; else with user and
    session cookie it connects by session cookie, else with an assertion by
    assertion (unless the assertion factory reports an error), both times
    with a one-byte placeholder password; with none of the three it calls
    back with the error 'no authentication method' and connects nowhere. *)
Theorem create_selects_strategy (k : HdbPool.closure) (w : HdbPool.world) :
  let o := HdbPool.c_options k in
  let r := HdbPool.create k w in
  match strategy_by_precedence o with
  | Some HdbPool.password_ =>
      sends HdbPool.password_ false r
      /\ (exists c, HdbPool.cr_sent r = Some c
                    /\ HdbPool.co_password c = HdbPool.password o)
  | Some HdbPool.sessionCookie_ =>
      sends HdbPool.sessionCookie_ true r
      /\ (exists c, HdbPool.cr_sent r = Some c
                    /\ HdbPool.co_sessionCookie c = HdbPool.sessionCookie o)
  | Some HdbPool.assertion_ =>
      sends HdbPool.assertion_ true r
      \/ (exists e, HdbPool.assertion o = Some HdbPool.AssertionFunction
                    /\ HdbPool.factoryAnswer w = inl e
                    /\ HdbPool.cr_sent r = None
                    /\ HdbPool.cr_err r
                       = Some (Req.ErrStr ("SAML delegation error:" ++ e)))
  | None =>
      HdbPool.cr_err r = Some (Req.ErrStr "no authentication method")
      /\ HdbPool.cr_sent r = None
      /\ HdbPool.cr_closure r = k
  end.
Proof.
  intros o r. subst o r. unfold HdbPool.create, strategy_by_precedence.
  unfold HdbPool.choose.
  destruct (JS.truthy (HdbPool.user (HdbPool.c_options k))
            && JS.truthy (HdbPool.password (HdbPool.c_options k))).
  { cbn [HdbPool.finish]. split; eexists; rewrite conn_sends;
      repeat split; try reflexivity. discriminate. }
  destruct (JS.truthy (HdbPool.user (HdbPool.c_options k))
            && JS.truthy (HdbPool.sessionCookie (HdbPool.c_options k))).
  { cbn [HdbPool.finish]. split; eexists; rewrite conn_sends;
      repeat split; try reflexivity. intros _. eexists. reflexivity. }
  destruct (HdbPool.truthy_assertion (HdbPool.assertion (HdbPool.c_options k)))
    eqn:Ha.
  - cbn [HdbPool.finish]. unfold HdbPool.assertionFactory.
    destruct (HdbPool.assertion (HdbPool.c_options k)) as [[s|]|] eqn:Hasrt.
    + left. eexists. rewrite conn_sends. repeat split; try reflexivity.
      intros _. eexists. reflexivity.
    + destruct (HdbPool.factoryAnswer w) as [e|a] eqn:Hf.
      * right. exists e. repeat split; reflexivity.
      * left. eexists. rewrite conn_sends. repeat split; try reflexivity.
        intros _. eexists. reflexivity.
    + discriminate Ha.
  - cbn [HdbPool.finish]. repeat split; reflexivity.
Qed.

(** ** Construction *)

(** C9. Without a host, or without a port, [createPool] returns nothing
    and adds no network action to those already made. *)
Theorem createPool_needs_host_and_port
    (NameID : string -> option string) (randomBytes : nat -> ascii)
    (o : HdbPool.options) (req : option Req.request)
    (net : list HDBPool.dial) :
  JS.truthy (HdbPool.host o) = false
  \/ HdbPool.truthy_num (HdbPool.port o) = false ->
  HDBPool.createPool NameID randomBytes o req net = (None, net).
Proof.
  intros [H|H]; unfold HDBPool.createPool; rewrite H; [reflexivity|].
  now destruct (JS.truthy (HdbPool.host o)).
Qed.

Lemma createPool_needs_host_and_port_witness :
  HDBPool.createPool (fun _ => None) (fun _ => "000"%char)
    {| HdbPool.host := None; HdbPool.port := Some 30015;
       HdbPool.env := None; HdbPool.user := Some "username";
       HdbPool.password := Some "secret"; HdbPool.assertion := None;
       HdbPool.sessionCookie := None; HdbPool.maxPoolSize := None;
       HdbPool.minPoolSize := Some 1; HdbPool.idleTimeoutMillis := None;
       HdbPool.refreshIdle := None; HdbPool.defaultSchema := None;
       HdbPool.resphPrefix := None |}
    None []
  = (None, []).
Proof.
  apply createPool_needs_host_and_port. left. reflexivity.
Defined.

(** With host and port the same options do give a pool, and with
    [minPoolSize] 1 its construction reaches for the network at once. *)
Example createPool_with_host :
  exists p,
    HDBPool.createPool (fun _ => None) (fun _ => "000"%char)
      {| HdbPool.host := Some "example.host.com"; HdbPool.port := Some 30015;
         HdbPool.env := None; HdbPool.user := Some "username";
         HdbPool.password := Some "secret"; HdbPool.assertion := None;
         HdbPool.sessionCookie := None; HdbPool.maxPoolSize := None;
         HdbPool.minPoolSize := Some 1; HdbPool.idleTimeoutMillis := None;
         HdbPool.refreshIdle := None; HdbPool.defaultSchema := None;
         HdbPool.resphPrefix := None |}
      None []
    = (Some (HDBPool.Ready p), [(Some "example.host.com", Some 30015)]).
Proof. eexists. vm_compute. reflexivity. Qed.

(** ** Environment of a request *)

Lemma default_truthy (v : option string) (a b : string) :
  JS.truthy v = true -> default a v = default b v.
Proof. destruct v; [reflexivity | discriminate]. Qed.

Lemma first_present_cons (v : option string) (rest : list (option string))
    (fallback : string) :
  MetaPool.first_present (v :: rest) fallback
  = MetaPool.overwrite (MetaPool.first_present rest fallback) v.
Proof.
  cbn [MetaPool.first_present]. unfold MetaPool.overwrite.
  destruct (JS.truthy v) eqn:Hv; [now apply default_truthy | reflexivity].
Qed.

(** C10. The environment of a request is the first one present among the
    field of the POST body, the GET query parameter (or, without one, the
    query parameter of the session's [returnTo] URL), the request header
    and the field of the session; with none of them it is the default
    environment of the configuration ('HDB' when none is configured). *)
Theorem getEnvFromRequest_precedence
    (url_parse_query : string -> gmap string string)
    (c : MetaPool.Conf) (req : option Req.request) :
  MetaPool.getEnvFromRequest url_parse_query c req
  = MetaPool.env_by_precedence url_parse_query c req.
Proof.
  unfold MetaPool.env_by_precedence. rewrite !first_present_cons.
  cbn [MetaPool.first_present].
  destruct req as [r|]; [|reflexivity].
  unfold MetaPool.getEnvFromRequest, MetaPool.from_body, MetaPool.from_query,
    MetaPool.from_header, MetaPool.from_session.
  cbn [mbind option_bind]. f_equal.
  set (env := MetaPool.overwrite _ (MetaPool.field (Req.headers r) _)).
  replace (MetaPool.overwrite
             (MetaPool.overwrite
                (JS.or_else (MetaPool.default_env (MetaPool.conf_db c)) "HDB")
                (s ← Req.req_session r;
                 Req.sess_fields s !! MetaPool.sourceSysField c))
             (MetaPool.field (Req.headers r) (MetaPool.sourceSysField c)))
    with env by (subst env; destruct (Req.req_session r); reflexivity).
  clearbody env.
  destruct (JS.truthy (MetaPool.field (Req.query r) (MetaPool.sourceSysField c)))
    eqn:Hq.
  - unfold MetaPool.overwrite. now rewrite Hq.
  - destruct (Req.req_session r) as [s|]; cbn [mbind option_bind];
      [|reflexivity].
    destruct (Req.returnTo s) as [[|a u]|]; reflexivity.
Qed.

(** The precedence at work: body over query over header over session. *)
Example getEnvFromRequest_sample :
  let c := {| MetaPool.usernamePrefix := EmptyString;
              MetaPool.sourceSysField := "source-sys";
              MetaPool.conf_db := {| MetaPool.default_env := Some "HDB";
                                     MetaPool.environments := ∅ |} |} in
  let s := {| Req.sess_id := Some "sid";
              Req.sess_fields := {["source-sys" := "SES"]};
              Req.returnTo := Some "/x?source-sys=RET";
              Req.passport_user_of := None; Req.saved := 0 |} in
  let r b q h := {| Req.headers := h; Req.query := q; Req.body := b;
                    Req.req_session := Some s; Req.SAMLAuthenticated := false;
                    Req.hdbPoolRequestId := None |} in
  let parse (_ : string) : gmap string string := {["source-sys" := "RET"]} in
  let f := Some ({["source-sys" := "BODY"]} : gmap string string) in
  let g := Some ({["source-sys" := "QRY"]} : gmap string string) in
  let h := Some ({["source-sys" := "HDR"]} : gmap string string) in
  MetaPool.getEnvFromRequest parse c (Some (r f g h)) = "BODY"
  /\ MetaPool.getEnvFromRequest parse c (Some (r None g h)) = "QRY"
  /\ MetaPool.getEnvFromRequest parse c (Some (r None None h)) = "RET"
  /\ MetaPool.getEnvFromRequest (fun _ => ∅) c (Some (r None None h)) = "HDR"
  /\ MetaPool.getEnvFromRequest (fun _ => ∅) c (Some (r None None None)) = "SES"
  /\ MetaPool.getEnvFromRequest parse c None = "HDB".
Proof. repeat split; vm_compute; reflexivity. Qed.

(** ** Routing by environment *)

(** An environment that fails the syntax, or that [Conf.db] does not hold,
    ends the query with the invalid-value error before any pool is looked
    up. *)
Lemma query_invalid_env
    (url_parse_query : string -> gmap string string)
    (c : MetaPool.Conf) (req : option Req.request) :
  let env := MetaPool.getEnvFromRequest url_parse_query c req in
  MetaPool.env_syntax env = false
  \/ MetaPool.truthy_entry (MetaPool.db_get (MetaPool.conf_db c) env) = false ->
  MetaPool.query url_parse_query c req
  = MetaPool.Invalid
      ("invalid " ++ MetaPool.sourceSysField c ++ " value: " ++ env).
Proof.
  intros env [H|H]; unfold MetaPool.query; fold env; rewrite H;
    [|rewrite orb_true_r; reflexivity].
  now destruct (negb (JS.truthy_str env)).
Qed.

(** C8, on the code: the key [default] of [Conf.db], which holds the name
    of the default environment and is no environment, passes both checks;
    the query goes on to look up [envPools], where no such pool is, and
    ends in a TypeError instead of the invalid-value error.  A name that
    every object inherits passes as well. *)
Theorem query_accepts_default_key :
  MetaPool.configured Conf0 "default" = false
  /\ MetaPool.query (fun _ => ∅) Conf0 (Some (header_request "default"))
     = MetaPool.ToEnvPool "default"
  /\ MetaPool.queryEnvPool (MetaPool.envPools_of Conf0) "default"
     = MetaPool.TypeError
  /\ MetaPool.query (fun _ => ∅) Conf0 (Some (header_request "constructor"))
     = MetaPool.ToEnvPool "constructor"
  /\ MetaPool.query (fun _ => ∅) Conf0 (Some (header_request "HDB"))
     = MetaPool.ToEnvPool "HDB"
  /\ MetaPool.query (fun _ => ∅) Conf0 (Some (header_request "H-DB"))
     = MetaPool.Invalid "invalid source-sys value: H-DB".
Proof. repeat split; vm_compute; reflexivity. Qed.

(** ** The dispatcher *)

Example http_pool_constructed :
  HDBPool.createPool (fun _ => None) (fun _ => "000"%char) password_options
    None []
  = (Some (HDBPool.Ready http_pool), []).
Proof. vm_compute. reflexivity. Qed.

(** Once nothing is pending and the close listener is off the request, no
    event makes the dispatch release or call back again. *)
Lemma settled_stays (s : Dispatcher.state) (evs : list Dispatcher.event) :
  Dispatcher.waits s = None -> Dispatcher.closeCb s = false ->
  Dispatcher.called (Dispatcher.run s evs) = Dispatcher.called s
  /\ Dispatcher.released (Dispatcher.run s evs) = Dispatcher.released s
  /\ Dispatcher.sent (Dispatcher.run s evs) = Dispatcher.sent s.
Proof.
  revert s. induction evs as [|e evs IH]; intros s Hw Hc; [now repeat split|].
  cbn [Dispatcher.run fold_left].
  assert (Hstep : Dispatcher.waits (Dispatcher.step s e) = None
                  /\ Dispatcher.closeCb (Dispatcher.step s e) = false
                  /\ Dispatcher.called (Dispatcher.step s e) = Dispatcher.called s
                  /\ Dispatcher.released (Dispatcher.step s e) = Dispatcher.released s
                  /\ Dispatcher.sent (Dispatcher.step s e) = Dispatcher.sent s).
  { destruct e; cbn [Dispatcher.step]; rewrite ?Hw;
      unfold Dispatcher.on_forget; destruct (Dispatcher.forget s);
      cbn; rewrite ?Hw, ?Hc; cbn; rewrite ?Hw, ?Hc; now repeat split. }
  destruct Hstep as (Hw' & Hc' & H1 & H2 & H3).
  destruct (IH _ Hw' Hc') as (I1 & I2 & I3).
  fold (Dispatcher.run (Dispatcher.step s e) evs).
  rewrite I1, I2, I3. now repeat split.
Qed.

(** A request that closes while its first dispatch waits for a handle: the
    handle is released as soon as it is acquired, the caller is called
    back once, with neither error nor result, and nothing is executed. *)
Lemma close_while_waiting (p : HDBPool.t) (mode : Dispatcher.QUERYMODE)
    (prep : bool) (r : Req.request) (resp : option (gmap string JS.value))
    (uuid : string) (t0 t1 : Z) (evs : list Dispatcher.event) :
  Dispatcher.fresh (Some r) = true ->
  let s := Dispatcher.run
             (Dispatcher.query p mode prep (Some r) resp true uuid t0)
             (Dispatcher.ReqClose :: Dispatcher.Acquired None t1 :: evs) in
  Dispatcher.called s = [(None, None)]
  /\ Dispatcher.released s = 1%nat
  /\ Dispatcher.sent s = [].
Proof.
  intros Hfresh s. subst s. cbn [Dispatcher.run fold_left].
  set (s1 := Dispatcher.step (Dispatcher.step _ _) _).
  assert (H : Dispatcher.waits s1 = None /\ Dispatcher.closeCb s1 = false
              /\ Dispatcher.called s1 = [(None, None)]
              /\ Dispatcher.released s1 = 1%nat /\ Dispatcher.sent s1 = []).
  { subst s1. unfold Dispatcher.query, Dispatcher.initRequest.
    rewrite Hfresh.
    destruct mode; cbn; unfold Dispatcher.on_acquired; cbn;
      rewrite lookup_delete_eq; cbn; now repeat split. }
  destruct H as (Hw & Hc & H1 & H2 & H3).
  destruct (settled_stays s1 evs Hw Hc) as (I1 & I2 & I3).
  fold (Dispatcher.run s1 evs). rewrite I1, I2, I3. now repeat split.
Qed.

(** A dispatch whose request stays open: one release, one call of the
    caller's callback, with the rows. *)
Example query_served :
  let s := Dispatcher.run
             (Dispatcher.query http_pool Dispatcher.EXEC false
                (Some http_request) (Some ∅) true "uuid-1" 1000)
             [Dispatcher.Acquired None 1010;
              Dispatcher.Answered None None (Some "[{}]") 1050;
              Dispatcher.ReqClose] in
  Dispatcher.called s = [(None, Some "[{}]")]
  /\ Dispatcher.released s = 1%nat
  /\ Dispatcher.sent s = ["[{}]"].
Proof. vm_compute. repeat split; reflexivity. Qed.

(** Whatever the dispatch, a close between the acquisition and the answer
    of the statement does not keep [exCb] from releasing and calling the
    caller once more. *)
Lemma close_while_running (s : Dispatcher.state) (err_of_db : Req.error)
    (t : Z) :
  Dispatcher.waits s = Some Dispatcher.Executing ->
  Dispatcher.closeCb s = true ->
  let s' := Dispatcher.run s
              [Dispatcher.ReqClose; Dispatcher.Answered (Some err_of_db) None None t] in
  Dispatcher.called s'
  = (Dispatcher.called s ++ [(None, None); (Some err_of_db, None)])%list
  /\ Dispatcher.released s' = S (S (Dispatcher.released s)).
Proof.
  intros Hw Hc s'. subst s'. cbn [Dispatcher.run fold_left Dispatcher.step].
  unfold Dispatcher.on_forget.
  destruct (Dispatcher.forget s); cbn; rewrite Hc; cbn; rewrite Hw; cbn;
    rewrite <- app_assoc; now split.
Qed.

(** C3, on the code: a request that closes while its statement runs.  The
    close listener releases the handle and calls back with nothing; when
    the statement answers, [exCb] releases the handle a second time and
    hands the rows to the caller's callback, and [execQuery] sends them
    to the response. *)
Theorem close_while_running_still_delivers :
  let s := Dispatcher.run
             (Dispatcher.query http_pool Dispatcher.EXEC false
                (Some http_request) (Some ∅) true "uuid-1" 1000)
             [Dispatcher.Acquired None 1010; Dispatcher.ReqClose;
              Dispatcher.Answered None None (Some "[{}]") 1050] in
  Dispatcher.called s = [(None, None); (None, Some "[{}]")]
  /\ Dispatcher.released s = 2%nat
  /\ Dispatcher.sent s = ["[{}]"]
  /\ existsb Dispatcher.delivers (Dispatcher.called s) = true.
Proof. vm_compute. repeat split; reflexivity. Qed.

(** C4, on the code: [execQuery] and [executeQuery] take [start] and
    [execStart] from [this], where the constructor never put them (they
    are variables of [query]), so whatever the times, both headers are set
    to NaN under the configured prefix. *)
Theorem response_headers_are_NaN (this : HDBPool.t) (now : Z)
    (h : gmap string JS.value) :
  let headerPrefix :=
    JS.or_else (HdbPool.resphPrefix (HDBPool.options this)) EmptyString in
  HDBPool.answered_headers this now (Some h)
  = Some (<[headerPrefix ++ "waiting-time" := JS.NaN]>
            (<[headerPrefix ++ "query-time" := JS.NaN]> h)).
Proof. reflexivity. Qed.

(** A dispatch that waited 10 ms for its handle and ran for 40 ms: the
    variables of [query] hold the times, the headers do not. *)
Example headers_of_a_timed_query :
  let s := Dispatcher.run
             (Dispatcher.query http_pool Dispatcher.EXEC false
                (Some http_request) (Some ∅) true "uuid-1" 1000)
             [Dispatcher.Acquired None 1010;
              Dispatcher.Answered None None (Some "[{}]") 1050] in
  Dispatcher.start s = JS.Num 1000
  /\ Dispatcher.execStart s = JS.Num 1010
  /\ JS.sub (JS.Num 1050) (Dispatcher.execStart s) = JS.Num 40
  /\ JS.sub (Dispatcher.execStart s) (Dispatcher.start s) = JS.Num 10
  /\ Dispatcher.resp s
     = Some {[ "test-query-time" := JS.NaN; "test-waiting-time" := JS.NaN ]}.
Proof. vm_compute. repeat split; reflexivity. Qed.

(** ** Recovery after a failed query on a user pool *)

Section RecoveryFacts.

Import Recovery.

Lemma clear_cookie_clears (r : Req.request) (env : string) :
  JS.truthy (Req.stored_cookie (Some (clear_cookie r env)) env) = false.
Proof.
  unfold clear_cookie, Req.stored_cookie, Req.authenticated_user.
  destruct (Req.req_session r) as [s|] eqn:Hs; cbn [mbind option_bind];
    [|now rewrite Hs].
  destruct (Req.passport_user_of s) as [u|] eqn:Hu;
    [|rewrite Hs; cbn; now rewrite Hu].
  destruct (Req.pu_envs u !! env) as [e|] eqn:He;
    [|rewrite Hs; cbn; rewrite Hu; cbn; now rewrite He].
  destruct (JS.truthy (Req.HANAsessionCookie e)) eqn:Hc.
  - cbn. unfold Req.set_passport_env. rewrite Hu. cbn.
    now rewrite lookup_insert_eq.
  - rewrite Hs. cbn. rewrite Hu. cbn. rewrite He. exact Hc.
Qed.

Lemma _drain_flushes (st : state) (userId env : string) (e : Req.error)
    (result : option string) :
  is_Some (userPools st !! userId) ->
  exists st',
    _drain st userId env (Some e) result
    = (Called (Some (delete_assertion e)) result, st')
    /\ flushed_and_cleared st' userId env
    /\ flushed st' = flushed st.
Proof.
  intros [pools Hp]. unfold _drain. cbn [size].
  destruct (Nat.eqb (size (pool (tenant st))) 0) eqn:Hz;
    unfold _clean; cbn [userPools]; rewrite Hp; eexists;
    (split; [reflexivity|]); (split; [|reflexivity]);
    unfold flushed_and_cleared, registered; cbn;
    rewrite lookup_insert_eq; cbn; rewrite lookup_insert_eq; cbn;
    repeat split; try apply clear_cookie_clears.
  now apply Nat.eqb_eq in Hz.
Qed.


Lemma classify_other (err : option Req.error) :
  classify err = OTHER ->
  negb (isAuthFailed err) && negb (isMissingUser err) = true.
Proof.
  unfold classify. destruct (isMissingUser err); [discriminate|].
  destruct (isAuthFailed err); [discriminate | reflexivity].
Qed.

(** Where the recovery goes through.  For a tenant that is registered: an
    error of class OTHER (and a success) goes to the caller's callback as
    it is and nothing else happens.  An error of class MISSING_PRINCIPAL or
    AUTH_FAILED, unless the assertion is probed and the probe succeeds,
    empties the pool, clears the cookie of the environment in the session
    and takes the tenant's pool off the registry; the callback then gets
    the original error without its [assertion] property, or after a probe
    the error of the probe. *)
Lemma on_result_recovers (st : state) (userId env : string)
    (err : option Req.error) (result : option string)
    (probe : option Req.error) :
  is_Some (userPools st !! userId) ->
  (probes st err = true -> is_Some probe) ->
  match classify err with
  | OTHER => on_result st userId env err result probe = (Called err result, st)
  | _ =>
      exists e st',
        (if probes st err then probe else err) = Some e
        /\ on_result st userId env err result probe
           = (Called (Some (delete_assertion e)) result, st')
        /\ flushed_and_cleared st' userId env
        /\ flushed st' = flushed st
  end.
Proof.
  intros Hreg Hprobe. unfold probes in *.
  destruct (classify err) eqn:Hc.
  - (* MISSING_PRINCIPAL *)
    unfold classify in Hc. unfold on_result.
    destruct (isMissingUser err) eqn:Hm; [|destruct (isAuthFailed err); discriminate].
    rewrite andb_false_r.
    destruct err as [e|]; [|discriminate Hm].
    destruct (_drain_flushes st userId env e result Hreg) as (st' & H1 & H2 & H3).
    exists e, st'. now rewrite H1.
  - (* AUTH_FAILED *)
    unfold classify in Hc. unfold on_result.
    destruct (isMissingUser err) eqn:Hm; [discriminate|].
    destruct (isAuthFailed err) eqn:Ha; [|discriminate].
    cbn [negb andb].
    destruct err as [e|]; [|discriminate Ha].
    destruct (_authMethod (tenant st)) as [[| |]|] eqn:Hmeth;
      try (destruct (_drain_flushes st userId env e result Hreg)
             as (st' & H1 & H2 & H3);
           exists e, st'; now rewrite H1).
    destruct (JS.truthy (error_assertion (Some e))) eqn:Hasrt.
    + destruct (Hprobe eq_refl) as [e2 ->]. cbn [detectSAMLerror].
      destruct (_drain_flushes st userId env e2 result Hreg)
        as (st' & H1 & H2 & H3).
      exists e2, st'. now rewrite H1.
    + destruct (_drain_flushes st userId env e result Hreg)
        as (st' & H1 & H2 & H3).
      exists e, st'. now rewrite H1.
  - unfold on_result. now rewrite (classify_other err Hc).
Qed.

End RecoveryFacts.

(** The message of the server, 'internal error: Invalid principal id ...',
    is classified; the bare phrase, found at position 0, is not. *)
Example principal_phrase_position :
  classify (Some (Req.ErrObj (Some 591)
                    (Some ("internal error: " ++ Recovery.PRINCIPAL)) None))
  = MISSING_PRINCIPAL
  /\ classify (Some (Req.ErrObj (Some 591) (Some Recovery.PRINCIPAL) None))
     = OTHER
  /\ classify (Some (Req.ErrStr "no authentication method")) = OTHER
  /\ classify None = OTHER.
Proof. repeat split; vm_compute; reflexivity. Qed.

(** An expired cookie: the pool is flushed and the error comes back. *)
Example expired_cookie_recovered :
  exists st',
    Recovery.on_result (tenant_state HdbPool.sessionCookie_) "alice" "HDB"
      (Some (auth_failed None)) None None
    = (Recovery.Called (Some (auth_failed None)) None, st')
    /\ flushed_and_cleared st' "alice" "HDB".
Proof.
  eexists. split; [vm_compute; reflexivity|].
  repeat split; vm_compute; reflexivity.
Qed.

(** A probe that fails: the caller is told the error of the probe, not the
    error of its query. *)
Example probe_error_reported :
  fst (Recovery.on_result (tenant_state HdbPool.assertion_) "alice" "HDB"
         (Some (auth_failed (Some "<saml/>"))) None (Some protocol_error))
  = Recovery.Called (Some protocol_error) None.
Proof. vm_compute. reflexivity. Qed.

(** C1, on the code.  An authentication failure on a pool created from an
    assertion, with the assertion on the error, is probed on the pool of
    the environment; when the probe succeeds, [detectSAMLerror] empties the
    pool of the environment and calls [_drain] with the null error of the
    probe, and [_drain] throws on [delete error.assertion]: the error is of
    class AUTH_FAILED, yet the pool of the tenant is still registered, the
    session of the request still holds what it held, cookie included, and
    the caller's callback is never called. *)
Theorem successful_probe_aborts_recovery (st : Recovery.state)
    (userId env : string) (err : option Req.error) (result : option string)
    (p : Recovery.user_pool) :
  probes st err = true ->
  Recovery.registered st userId env = Some p ->
  let out := Recovery.on_result st userId env err result None in
  classify err = AUTH_FAILED
  /\ fst out = Recovery.Threw
  /\ Recovery.registered (snd out) userId env = Some p
  /\ Recovery.req (snd out) = Recovery.req st
  /\ Recovery.tenant (snd out) = Recovery.tenant st
  /\ Recovery.flushed (snd out) = (Recovery.flushed st ++ [env])%list
  /\ ~ flushed_and_cleared (snd out) userId env.
Proof.
  intros Hprobe Hreg out. subst out. unfold probes in Hprobe.
  destruct (classify err) eqn:Hc; try discriminate Hprobe.
  destruct (Recovery._authMethod (Recovery.tenant st)) as [[| |]|] eqn:Hm;
    try discriminate Hprobe.
  unfold classify in Hc.
  destruct (Recovery.isMissingUser err) eqn:Hmiss; [discriminate Hc|].
  destruct (Recovery.isAuthFailed err) eqn:Hauth; [|discriminate Hc].
  unfold Recovery.on_result. rewrite Hauth, Hmiss, Hm, Hprobe.
  cbn [negb andb Recovery.detectSAMLerror Recovery._drain fst snd].
  cbn [Recovery.req Recovery.tenant Recovery.flushed].
  repeat (split; [first [reflexivity | exact Hreg]|]).
  intros (_ & _ & Hnone).
  unfold Recovery.registered in Hnone, Hreg. cbn in Hnone. congruence.
Qed.

(** The tenant of the tests, its pool created from the assertion. *)
Lemma successful_probe_aborts_recovery_witness :
  let out := Recovery.on_result (tenant_state HdbPool.assertion_) "alice" "HDB"
               (Some (auth_failed (Some "<saml/>"))) None None in
  classify (Some (auth_failed (Some "<saml/>"))) = AUTH_FAILED
  /\ fst out = Recovery.Threw
  /\ Recovery.registered (snd out) "alice" "HDB"
     = Some (Recovery.tenant (tenant_state HdbPool.assertion_))
  /\ Recovery.req (snd out) = Recovery.req (tenant_state HdbPool.assertion_)
  /\ Recovery.tenant (snd out)
     = Recovery.tenant (tenant_state HdbPool.assertion_)
  /\ Recovery.flushed (snd out) = ["HDB"]
  /\ ~ flushed_and_cleared (snd out) "alice" "HDB".
Proof.
  apply (successful_probe_aborts_recovery (tenant_state HdbPool.assertion_)
           "alice" "HDB" (Some (auth_failed (Some "<saml/>"))) None
           (Recovery.tenant (tenant_state HdbPool.assertion_)));
    vm_compute; reflexivity.
Defined.

(** ** The first connection of a pool with [minPoolSize > 0] *)

Section FirstConnection.

Import HdbPool GenericPool.

Variable randomBytes : nat -> ascii.

Lemma conn_max (k : HdbPool.closure) (c : connOpts) (w : world) :
  c_max (cr_closure (conn k c w))
  = if connected (conn k c w) then maxPoolSize (c_options k) else c_max k.
Proof.
  unfold conn, connected. destruct (connectAnswer w) as [code msg|u ck];
    [reflexivity|].
  cbn. destruct (c_max k) as [m|], (maxPoolSize (c_options k)) as [n|];
    cbn; try reflexivity.
  destruct (Z.eqb_spec m n); congruence.
Qed.

(** [poolFactory.max] after a creation: the configured [maxPoolSize] once
    the connection was made, what it was before otherwise. *)
Lemma finish_max (k : HdbPool.closure) (b : branch) (w : world) :
  c_max (cr_closure (finish k b w))
  = if connected (finish k b w) then maxPoolSize (c_options k) else c_max k.
Proof.
  destruct b as [c| |]; cbn [finish]; [apply conn_max | | reflexivity].
  destruct (assertionFactory (c_options k) w); [reflexivity | apply conn_max].
Qed.

Lemma hand_over_closure (p : pool) err c keep :
  closure (hand_over p err c keep) = closure p.
Proof. unfold hand_over. destruct (waiting p); reflexivity. Qed.

Lemma start_closure (p : pool) :
  closure (start randomBytes p) = closure p.
Proof.
  unfold start.
  destruct (choose _ _ _); try reflexivity.
  now rewrite hand_over_closure.
Qed.

Lemma top_up_closure (p : pool) :
  closure (top_up randomBytes p) = closure p.
Proof.
  unfold top_up. destruct (below_max p); [apply start_closure | reflexivity].
Qed.

Lemma ensureMinimum_closure (p : pool) :
  closure (ensureMinimum randomBytes p) = closure p.
Proof.
  unfold ensureMinimum. generalize (Z.to_nat (min p - count p)) as n.
  induction n as [|n IH]; [reflexivity|].
  rewrite Nat.iter_succ. now rewrite top_up_closure.
Qed.

End FirstConnection.

(** ** One assertion login for a pool that keeps a handle alive *)

Section SingleLogin.

Import HdbPool GenericPool.

Variable randomBytes : nat -> ascii.
Variable k0 : HdbPool.closure.

Hypothesis no_password : JS.truthy (password (c_options k0)) = false.
Hypothesis no_cookie : JS.truthy (sessionCookie (c_options k0)) = false.
Hypothesis an_assertion : truthy_assertion (assertion (c_options k0)) = true.
Hypothesis max_one : c_max k0 = Some 1.

Lemma choose_k0 (rnd : ascii) :
  choose (c_options k0) (c_user k0) rnd = AskFactory.
Proof.
  unfold choose. rewrite no_password, no_cookie, an_assertion.
  now rewrite !andb_false_r.
Qed.

Lemma start_quiet (p : pool) :
  quiet k0 p -> creating p = [] -> quiet k0 (start randomBytes p).
Proof.
  intros (Hk & Hi & Hu & _ & Hl & Hd) Hc. unfold start.
  rewrite Hk, choose_k0. unfold quiet. cbn. rewrite Hc.
  repeat split; auto.
Qed.

Lemma dispense_quiet (p : pool) :
  quiet k0 p -> quiet k0 (dispense randomBytes p).
Proof.
  intros Hq. pose proof Hq as (Hk & Hi & Hu & Hc & Hl & Hd).
  unfold dispense. destruct (waiting p) as [|who rest]; [exact Hq|].
  rewrite Hi. unfold below_max, count. rewrite Hk, max_one, Hi, Hu.
  destruct Hc as [Hc|Hc]; rewrite Hc; cbn [length Nat.add Z.of_nat Z.ltb Z.compare].
  - apply start_quiet; assumption.
  - exact Hq.
Qed.

Lemma hand_over_quiet (p : pool) (e : Req.error) (cl : client) :
  quiet k0 p -> quiet k0 (hand_over p (Some e) cl false).
Proof.
  intros (Hk & Hi & Hu & Hc & Hl & Hd). unfold hand_over, quiet.
  destruct (waiting p) as [|who rest]; cbn; repeat split; auto.
  apply Forall_app. split; [exact Hd|]. now repeat constructor.
Qed.

Lemma hand_over_cookie (c : string) (p : pool) (err : option Req.error)
    (cl : client) (keep : bool) :
  cookie_mode c p ->
  (keep = true -> has_cookie c cl) ->
  (err = None -> has_cookie c cl) ->
  cookie_mode c (hand_over p err cl keep).
Proof.
  intros (H1 & H2 & H3 & H4 & H5 & H6 & H7 & H8 & H9) Hkeep Herr.
  unfold hand_over, cookie_mode.
  destruct (waiting p) as [|who rest]; cbn; repeat split; auto.
  - destruct keep; [|exact H6].
    apply Forall_app. split; [exact H6|]. repeat constructor. now apply Hkeep.
  - destruct keep; [|exact H7].
    apply Forall_app. split; [exact H7|]. repeat constructor. now apply Hkeep.
  - apply Forall_app. split; [exact H8|]. repeat constructor. exact Herr.
Qed.

Lemma start_cookie (c : string) (p : pool) :
  cookie_mode c p -> cookie_mode c (start randomBytes p).
Proof.
  intros Hm. pose proof Hm as (H1 & H2 & H3 & H4 & H5 & H6 & H7 & H8 & H9).
  unfold start, choose. rewrite H3, H4, H2. cbn [andb JS.truthy].
  destruct c as [|a c']; [discriminate H1|]. cbn [andb].
  unfold cookie_mode. cbn. repeat split; auto.
  apply Forall_app. split; [exact H5|]. repeat constructor.
  eexists. repeat split.
Qed.

Lemma dispense_cookie (c : string) (p : pool) :
  cookie_mode c p -> cookie_mode c (dispense randomBytes p).
Proof.
  intros Hm. pose proof Hm as (H1 & H2 & H3 & H4 & H5 & H6 & H7 & H8 & H9).
  unfold dispense. destruct (waiting p) as [|who rest]; [exact Hm|].
  destruct (idle p) as [|cl cls] eqn:Hidle.
  - destruct (below_max p); [now apply start_cookie | exact Hm].
  - apply Forall_cons in H6 as [Hcl Hcls].
    unfold cookie_mode. cbn. repeat split; auto.
    + apply Forall_app. split; [exact H7|]. now repeat constructor.
    + apply Forall_app. split; [exact H8|]. repeat constructor.
      intros _. exact Hcl.
Qed.

Lemma iter_start_cookie (c : string) (n : nat) (p : pool) :
  cookie_mode c p -> cookie_mode c (Nat.iter n (top_up randomBytes) p).
Proof.
  intros Hm. induction n as [|n IH]; [exact Hm|].
  rewrite Nat.iter_succ. unfold top_up at 1.
  destruct (below_max _); [now apply start_cookie | exact IH].
Qed.

Lemma answer_quiet (p : pool) (i : nat) (w : world) :
  quiet k0 p -> honest p (Answer i w) -> inv k0 (answer i w p).
Proof.
  intros Hq Hh. pose proof Hq as (Hk & Hi & Hu & Hc & Hl & Hd).
  unfold answer.
  destruct Hc as [Hc|Hc]; rewrite Hc; [left; exact Hq|].
  destruct i as [|i]; cbn [lookup list_lookup]; [|left; exact Hq].
  cbn [honest] in Hh. rewrite Hc in Hh. cbn [lookup list_lookup] in Hh.
  rewrite Hk. cbn [finish].
  assert (Hq0 : quiet k0
                  {| closure := k0; min := min p; started := started p;
                     creating := delete 0%nat [AskFactory]; idle := idle p;
                     inUse := inUse p; waiting := waiting p;
                     delivered := delivered p; logins := logins p |}).
  { unfold quiet. cbn. repeat split; auto. }
  destruct (assertionFactory (c_options k0) w) as [e|a].
  { left. cbn. now apply hand_over_quiet. }
  unfold conn. destruct (connectAnswer w) as [code msg|u ck].
  { left. cbn. now apply hand_over_quiet. }
  destruct Hh as [Hu' Hck]. destruct ck as [[|a0 c]|]; try discriminate Hck.
  right. exists (String a0 c). cbn.
  assert (Hm : cookie_mode (String a0 c)
                 {| closure :=
                      {| c_options := set_user_cookie (c_options k0) u
                                        (Some (String a0 c));
                         c_user := u; c_env := c_env k0;
                         c_max := if loose_eq (c_max k0) (maxPoolSize (c_options k0))
                                  then c_max k0 else maxPoolSize (c_options k0);
                         c_req := storeIntoSession (c_req k0) (c_env k0) u
                                    (Some (String a0 c)) |};
                    min := min p; started := started p;
                    creating := delete 0%nat [AskFactory]; idle := idle p;
                    inUse := inUse p; waiting := waiting p;
                    delivered := delivered p;
                    logins := logins p ++ [assertion_] |}).
  { unfold cookie_mode, assertion_logins. cbn. rewrite Hi, Hu, Hl. cbn.
    repeat split; auto using no_password.
    eapply Forall_impl; [exact Hd|]. intros d Hne He. congruence. }
  destruct (setDefaultSchema _ w) as [e|];
    apply hand_over_cookie; try exact Hm; try discriminate; reflexivity.
Qed.

Lemma answer_cookie (c : string) (p : pool) (i : nat) (w : world) :
  cookie_mode c p -> honest p (Answer i w) -> cookie_mode c (answer i w p).
Proof.
  intros Hm Hh. pose proof Hm as (H1 & H2 & H3 & H4 & H5 & H6 & H7 & H8 & H9).
  unfold answer. destruct (creating p !! i) as [b|] eqn:Hb; [|exact Hm].
  cbn [honest] in Hh. rewrite Hb in Hh.
  pose proof (Forall_lookup_1 _ _ _ _ H5 Hb) as (k & -> & Hmeth & Hck).
  cbn [finish]. unfold conn.
  assert (Hdel : Forall (by_cookie c) (delete i (creating p))).
  { now apply Forall_delete. }
  destruct (connectAnswer w) as [code msg|u ck].
  - cbn. apply hand_over_cookie; try discriminate.
    unfold cookie_mode. cbn. repeat split; auto.
  - destruct Hh as [Hu' Hsame]. specialize (Hsame Hmeth). subst ck.
    rewrite Hmeth. cbn.
    assert (Hm' : cookie_mode c
                    {| closure :=
                         {| c_options :=
                              set_user_cookie (c_options (closure p)) u
                                (sessionCookie (c_options (closure p)));
                            c_user := u; c_env := c_env (closure p);
                            c_max := if loose_eq (c_max (closure p))
                                          (maxPoolSize (c_options (closure p)))
                                     then c_max (closure p)
                                     else maxPoolSize (c_options (closure p));
                            c_req := c_req (closure p) |};
                       min := min p; started := started p;
                       creating := delete i (creating p); idle := idle p;
                       inUse := inUse p; waiting := waiting p;
                       delivered := delivered p;
                       logins := logins p ++ [sessionCookie_] |}).
    { unfold cookie_mode, assertion_logins. cbn. repeat split; auto.
      rewrite List.filter_app, length_app. cbn.
      unfold assertion_logins in H9. lia. }
    destruct (setDefaultSchema _ w) as [e|];
      apply hand_over_cookie; try exact Hm'; try discriminate;
      intros _; exact Hck.
Qed.

Lemma step_inv (p : pool) (e : event) :
  inv k0 p -> honest p e -> inv k0 (step randomBytes p e).
Proof.
  intros [Hq|[c Hm]] Hh.
  - pose proof Hq as (Hk & Hi & Hu & Hc & Hl & Hd).
    destruct e as [who|i|i w|i|]; cbn [step].
    + left. unfold acquire. apply dispense_quiet. exact Hq.
    + left. unfold release. rewrite Hu. exact Hq.
    + now apply answer_quiet.
    + left. unfold evict. rewrite Hi. exact Hq.
    + left. now apply dispense_quiet.
  - right. exists c.
    pose proof Hm as (H1 & H2 & H3 & H4 & H5 & H6 & H7 & H8 & H9).
    destruct e as [who|i|i w|i|]; cbn [step].
    + unfold acquire. apply dispense_cookie. exact Hm.
    + unfold release. destruct (inUse p !! i) as [cl|] eqn:Hcl; [|exact Hm].
      apply dispense_cookie. unfold cookie_mode. cbn. repeat split; auto.
      * apply Forall_app. split; [exact H6|]. repeat constructor.
        exact (Forall_lookup_1 _ _ _ _ H7 Hcl).
      * now apply Forall_delete.
    + now apply answer_cookie.
    + unfold evict. destruct (idle p !! i) as [cl|] eqn:Hcl; [|exact Hm].
      unfold ensureMinimum. apply iter_start_cookie.
      unfold cookie_mode. cbn. repeat split; auto.
      now apply Forall_delete.
    + now apply dispense_cookie.
Qed.

Lemma run_inv (evs : list event) (p : pool) :
  inv k0 p -> honest_run randomBytes p evs -> inv k0 (run randomBytes p evs).
Proof.
  revert p. induction evs as [|e evs IH]; intros p Hi Hh; [exact Hi|].
  destruct Hh as [He Hrest]. cbn [run fold_left].
  apply (IH (step randomBytes p e)); [now apply step_inv | exact Hrest].
Qed.

End SingleLogin.

(** ** [max] along the life of a pool *)

Section MaxRule.

Import HdbPool GenericPool.

Variable randomBytes : nat -> ascii.

Lemma hand_over_logins (p : pool) err c keep :
  logins (hand_over p err c keep) = logins p.
Proof. unfold hand_over. destruct (waiting p); reflexivity. Qed.

Lemma start_logins (p : pool) : logins (start randomBytes p) = logins p.
Proof.
  unfold start. destruct (choose _ _ _); try reflexivity.
  now rewrite hand_over_logins.
Qed.

Lemma iter_start_frame (n : nat) (p : pool) :
  closure (Nat.iter n (top_up randomBytes) p) = closure p
  /\ logins (Nat.iter n (top_up randomBytes) p) = logins p.
Proof.
  induction n as [|n [IH1 IH2]]; [now split|].
  rewrite Nat.iter_succ. unfold top_up at 1 3.
  destruct (below_max _); [|now split].
  rewrite start_closure, start_logins. now split.
Qed.

Lemma dispense_frame (p : pool) :
  closure (dispense randomBytes p) = closure p
  /\ logins (dispense randomBytes p) = logins p.
Proof.
  unfold dispense. destruct (waiting p); [now split|].
  destruct (idle p); [|now split].
  destruct (below_max p); [|now split].
  now rewrite start_closure, start_logins.
Qed.

Lemma conn_options (k : HdbPool.closure) (c : connOpts) (w : world) :
  maxPoolSize (c_options (cr_closure (conn k c w)))
  = maxPoolSize (c_options k).
Proof. unfold conn. destruct (connectAnswer w); reflexivity. Qed.

Lemma finish_options (k : HdbPool.closure) (b : branch) (w : world) :
  maxPoolSize (c_options (cr_closure (finish k b w)))
  = maxPoolSize (c_options k).
Proof.
  destruct b as [c| |]; cbn [finish]; [apply conn_options | | reflexivity].
  destruct (assertionFactory (c_options k) w); [reflexivity | apply conn_options].
Qed.

Lemma step_max_rule (o : options) (q : pool) (e : event) :
  max_rule o q -> max_rule o (step randomBytes q e).
Proof.
  intros [Ho Hm]. unfold max_rule.
  destruct e as [who|i|i w|i|]; cbn [step].
  - unfold acquire.
    destruct (dispense_frame
                {| closure := closure q; min := min q; started := started q;
                   creating := creating q; idle := idle q; inUse := inUse q;
                   waiting := waiting q ++ [who]; delivered := delivered q;
                   logins := logins q |}) as [-> ->]. now split.
  - unfold release. destruct (inUse q !! i) as [c|]; [|now split].
    destruct (dispense_frame
                {| closure := closure q; min := min q; started := started q;
                   creating := creating q; idle := idle q ++ [c];
                   inUse := delete i (inUse q); waiting := waiting q;
                   delivered := delivered q; logins := logins q |})
      as [-> ->]. now split.
  - unfold answer. destruct (creating q !! i) as [b|]; [|now split].
    pose proof (finish_max (closure q) b w) as Hmax.
    pose proof (finish_options (closure q) b w) as Hopt.
    unfold connected in Hmax.
    destruct (cr_err (finish (closure q) b w));
      rewrite hand_over_closure, hand_over_logins; cbn [closure logins];
      (split; [congruence|]); rewrite Hmax;
      destruct (cl_method (cr_client (finish (closure q) b w))) as [m|];
      cbn; try exact Hm;
      destruct (logins q); cbn; congruence.
  - unfold evict. destruct (idle q !! i) as [c|]; [|now split].
    unfold ensureMinimum.
    match goal with
    | |- context [Nat.iter ?n _ ?p] =>
        destruct (iter_start_frame n p) as [-> ->]
    end. now split.
  - destruct (dispense_frame q) as [-> ->]. now split.
Qed.

Lemma run_max_rule (o : options) (evs : list event) (q : pool) :
  max_rule o q -> max_rule o (run randomBytes q evs).
Proof.
  revert q. induction evs as [|e evs IH]; intros q Hq; [exact Hq|].
  cbn [run fold_left]. apply (IH (step randomBytes q e)).
  now apply step_max_rule.
Qed.

End MaxRule.

Section FirstConnectionTheorem.

Import HdbPool GenericPool.

Variable randomBytes : nat -> ascii.

Lemma by_cookie_no_attempt (c : string) (bs : list branch) :
  Forall (by_cookie c) bs ->
  List.filter (fun b => match b with AskFactory => true | _ => false end) bs
  = [].
Proof.
  induction 1 as [|b bs (k & -> & _) _ IH]; [reflexivity | exact IH].
Qed.

Lemma inv_single (k0 : HdbPool.closure) (q : pool) :
  inv k0 q -> (assertion_logins q + assertion_attempts q <= 1)%nat.
Proof.
  unfold assertion_logins, assertion_attempts.
  intros [(_ & _ & _ & Hc & Hl & _)|(c & _ & _ & _ & _ & H5 & _ & _ & _ & H9)].
  - rewrite Hl. destruct Hc as [-> | ->]; cbn; lia.
  - unfold assertion_logins in H9.
    rewrite H9, (by_cookie_no_attempt c _ H5). cbn. lia.
Qed.

Lemma inv_same_cookie (k0 : HdbPool.closure) (q : pool) d1 d2 :
  inv k0 q -> d1 ∈ delivered q -> d2 ∈ delivered q ->
  d1.1.2 = None -> d2.1.2 = None ->
  cl_sessionCookie d1.2 = cl_sessionCookie d2.2.
Proof.
  intros [(_ & _ & _ & _ & _ & Hd)|(c & _ & _ & _ & _ & _ & _ & _ & H8 & _)]
    H1 H2 E1 E2.
  - rewrite Forall_forall in Hd. now destruct (Hd d1 H1).
  - rewrite Forall_forall in H8.
    rewrite (H8 d1 H1 E1), (H8 d2 H2 E2). reflexivity.
Qed.

Lemma construct_quiet (k0 : HdbPool.closure) :
  JS.truthy (password (c_options k0)) = false ->
  JS.truthy (sessionCookie (c_options k0)) = false ->
  truthy_assertion (assertion (c_options k0)) = true ->
  quiet k0 (construct randomBytes k0 1).
Proof.
  intros H1 H2 H3.
  change (quiet k0
            (top_up randomBytes
               {| closure := k0; min := 1; started := 0; creating := [];
                  idle := []; inUse := []; waiting := []; delivered := [];
                  logins := [] |})).
  assert (Hq : quiet k0
                 {| closure := k0; min := 1; started := 0; creating := [];
                    idle := []; inUse := []; waiting := []; delivered := [];
                    logins := [] |}).
  { unfold quiet. cbn. repeat split; auto. }
  unfold top_up. destruct (below_max _); [|exact Hq].
  apply start_quiet; auto.
Qed.

Lemma new_pool (NameID : string -> option string) (o : options)
    (req : option Req.request) (p : HDBPool.t) :
  min_positive o = true ->
  HDBPool.new NameID randomBytes o req = HDBPool.Ready p ->
  exists k0,
    HDBPool.pool p = construct randomBytes k0 (num_or (minPoolSize o) 0)
    /\ c_options k0 = o /\ c_max k0 = Some 1.
Proof.
  intros Hmin. unfold HDBPool.new. rewrite Hmin.
  destruct (assertion o) as [[a|]|];
    try (intros [= <-]; eexists; repeat split; reflexivity).
  destruct (JS.truthy_str a && negb (JS.truthy (user o)));
    [|intros [= <-]; eexists; repeat split; reflexivity].
  destruct (NameID a) as [[|c n]|]; try discriminate.
  intros [= <-]. eexists. repeat split; reflexivity.
Qed.

End FirstConnectionTheorem.

(** The limit along the runs of the pool.  A pool built with
    [minPoolSize > 0] has [max] 1, and along every run of the pool [max] is
    1 as long as no connection was made and [options.maxPoolSize] from the
    first connection on (made, even if the default schema then fails the
    creation).  For a pool created from an assertion with [minPoolSize]
    1, against a server that names the user, issues a cookie to an
    assertion login and keeps it for the cookie logins: at any time at
    most one login by assertion was made or is under way, and all handles
    the acquirers got carry the same session cookie. *)
Lemma first_connection_serialized
    (NameID : string -> option string) (randomBytes : nat -> ascii)
    (o : HdbPool.options) (req : option Req.request) (p : HDBPool.t)
    (evs : list GenericPool.event) :
  HdbPool.min_positive o = true ->
  HDBPool.new NameID randomBytes o req = HDBPool.Ready p ->
  let q := GenericPool.run randomBytes (HDBPool.pool p) evs in
  HdbPool.c_max (GenericPool.closure (HDBPool.pool p)) = Some 1
  /\ HdbPool.c_max (GenericPool.closure q)
     = match GenericPool.logins q with
       | [] => Some 1
       | _ :: _ => HdbPool.maxPoolSize o
       end
  /\ (HdbPool.minPoolSize o = Some 1 ->
      JS.truthy (HdbPool.password o) = false ->
      JS.truthy (HdbPool.sessionCookie o) = false ->
      HdbPool.truthy_assertion (HdbPool.assertion o) = true ->
      honest_run randomBytes (HDBPool.pool p) evs ->
      (assertion_logins q + assertion_attempts q <= 1)%nat
      /\ forall d1 d2,
           d1 ∈ GenericPool.delivered q -> d2 ∈ GenericPool.delivered q ->
           d1.1.2 = None -> d2.1.2 = None ->
           HdbPool.cl_sessionCookie d1.2 = HdbPool.cl_sessionCookie d2.2).
Proof.
  intros Hmin Hnew q.
  destruct (new_pool randomBytes NameID o req p Hmin Hnew)
    as (k0 & Hp & Ho & Hmax).
  assert (Hrule : max_rule o (HDBPool.pool p)).
  { rewrite Hp. unfold max_rule, GenericPool.construct,
      GenericPool.ensureMinimum.
    match goal with
    | |- context [Nat.iter ?n _ ?s] =>
        destruct (iter_start_frame randomBytes n s) as [-> ->]
    end. cbn. now rewrite Ho, Hmax. }
  split; [|split].
  - destruct Hrule as [_ Hm]. rewrite Hm. rewrite Hp.
    unfold GenericPool.construct, GenericPool.ensureMinimum.
    match goal with
    | |- context [Nat.iter ?n _ ?s] =>
        destruct (iter_start_frame randomBytes n s) as [_ ->]
    end. reflexivity.
  - apply (run_max_rule randomBytes o evs _ Hrule).
  - intros Hone Hpw Hck Has Hh.
    assert (Hinv : inv k0 q).
    { subst q. apply (run_inv randomBytes k0); rewrite ?Ho; auto.
      left. rewrite Hp. unfold HdbPool.num_or. rewrite Hone. cbn.
      apply construct_quiet; rewrite Ho; assumption. }
    split; [exact (inv_single k0 q Hinv)|].
    intros d1 d2. now apply (inv_same_cookie k0 q).
Qed.

Example first_time_pool_constructed (schema : option string) :
  HDBPool.new (fun _ => Some "U") (fun _ => "000"%char)
    (assertion_options 2 schema) None
  = HDBPool.Ready (first_time_pool schema).
Proof. reflexivity. Qed.

(** Two acquirers right after construction: one login by assertion, the
    same handle for both, and [max] back at 2. *)
Example two_first_acquisitions_run :
  let q := GenericPool.run (fun _ => "000"%char)
             (HDBPool.pool (first_time_pool None)) two_first_acquisitions in
  let cl := {| HdbPool.cl_user := Some "U";
               HdbPool.cl_sessionCookie := Some "c00kie";
               HdbPool.cl_method := Some HdbPool.assertion_ |} in
  GenericPool.delivered q = [(1%nat, None, cl); (2%nat, None, cl)]
  /\ GenericPool.logins q = [HdbPool.assertion_]
  /\ GenericPool.started q = 1%nat
  /\ HdbPool.c_max (GenericPool.closure q) = Some 2.
Proof. vm_compute. repeat split; reflexivity. Qed.

Example first_connection_serialized_sample :
  let q := GenericPool.run (fun _ => "000"%char)
             (HDBPool.pool (first_time_pool None)) two_first_acquisitions in
  (assertion_logins q + assertion_attempts q <= 1)%nat
  /\ forall d1 d2,
       d1 ∈ GenericPool.delivered q -> d2 ∈ GenericPool.delivered q ->
       d1.1.2 = None -> d2.1.2 = None ->
       HdbPool.cl_sessionCookie d1.2 = HdbPool.cl_sessionCookie d2.2.
Proof.
  refine (proj2 (proj2 (first_connection_serialized
                          (fun _ => Some "U"%string) (fun _ => "000"%char)
                          (assertion_options 2 None) None
                          (first_time_pool None) two_first_acquisitions
                          eq_refl eq_refl))
            eq_refl eq_refl eq_refl eq_refl _).
  vm_compute. repeat split.
Qed.

(** The connection is made, the default schema is refused, and the
    creation fails: no handle was created and none was handed out, yet
    [max] is already the configured 2. *)
Example max_restored_before_a_handle_exists :
  let r := HdbPool.create (first_time_closure (Some "S"))
             (login_ok (Some (Req.ErrObj (Some 362) (Some "invalid schema name") None))) in
  let q := GenericPool.run (fun _ => "000"%char)
             (HDBPool.pool (first_time_pool (Some "S")))
             [GenericPool.Acquire 1;
              GenericPool.Answer 0
                (login_ok (Some (Req.ErrObj (Some 362)
                                   (Some "invalid schema name") None)))] in
  HdbPool.cr_err r
  = Some (Req.ErrObj (Some 362) (Some "invalid schema name") None)
  /\ HdbPool.c_max (HdbPool.cr_closure r) = Some 2
  /\ GenericPool.idle q = [] /\ GenericPool.inUse q = []
  /\ GenericPool.delivered q
     = [(1%nat, Some (Req.ErrObj (Some 362) (Some "invalid schema name") None),
         {| HdbPool.cl_user := Some "U";
            HdbPool.cl_sessionCookie := Some "c00kie";
            HdbPool.cl_method := Some HdbPool.assertion_ |})]
  /\ HdbPool.c_max (GenericPool.closure q) = Some 2
  /\ HdbPool.c_max (GenericPool.closure q) <> Some 1.
Proof. vm_compute. repeat split; try reflexivity. discriminate. Qed.

(** C2, on the code.  A pool built with [minPoolSize > 0] and without
    [maxPoolSize] starts with [max] 1, the default the constructor itself
    takes for [maxPoolSize]; but the first connection that is made sets
    [poolFactory.max] to [options.maxPoolSize] as it is, and that is
    undefined: the maximum is not restored to the configured one, it is
    gone. *)
Theorem unset_maxPoolSize_leaves_no_maximum
    (NameID : string -> option string) (randomBytes : nat -> ascii)
    (o : HdbPool.options) (req : option Req.request) (p : HDBPool.t)
    (w : HdbPool.world) :
  HdbPool.min_positive o = true ->
  HdbPool.maxPoolSize o = None ->
  HDBPool.new NameID randomBytes o req = HDBPool.Ready p ->
  let k := GenericPool.closure (HDBPool.pool p) in
  let r := HdbPool.create k w in
  connected r = true ->
  HdbPool.c_max k = Some 1
  /\ HdbPool.num_or (HdbPool.maxPoolSize o) 1 = 1
  /\ HdbPool.c_max (HdbPool.cr_closure r) = None.
Proof.
  intros Hmin Hunset Hnew k r Hconn. subst r.
  destruct (new_pool randomBytes NameID o req p Hmin Hnew)
    as (k0 & Hp & Ho & Hmax).
  assert (Hk : k = k0).
  { subst k. rewrite Hp. unfold GenericPool.construct.
    now rewrite ensureMinimum_closure. }
  rewrite Hk in *. split; [exact Hmax|]. split; [now rewrite Hunset|].
  unfold HdbPool.create in *. rewrite finish_max, Hconn, Ho. exact Hunset.
Qed.

Example unset_max_pool_constructed :
  HDBPool.new (fun _ => Some "U") (fun _ => "000"%char) unset_max_options None
  = HDBPool.Ready unset_max_pool.
Proof. reflexivity. Qed.

Lemma unset_maxPoolSize_leaves_no_maximum_witness :
  let k := GenericPool.closure (HDBPool.pool unset_max_pool) in
  HdbPool.c_max k = Some 1
  /\ HdbPool.num_or (HdbPool.maxPoolSize unset_max_options) 1 = 1
  /\ HdbPool.c_max (HdbPool.cr_closure (HdbPool.create k (login_ok None)))
     = None.
Proof.
  apply (unset_maxPoolSize_leaves_no_maximum (fun _ => Some "U"%string)
           (fun _ => "000"%char) unset_max_options None unset_max_pool
           (login_ok None)); reflexivity.
Defined.

(** What becomes of such a pool, with the pool as the specification
    describes it: the handle of the first login serves its acquirer; once
    it is gone nothing can be created any more, neither to keep the
    minimum nor for the next acquirer, who waits. *)
Example unset_max_pool_starves :
  let q := GenericPool.run (fun _ => "000"%char) (HDBPool.pool unset_max_pool)
             [GenericPool.Answer 0 (login_ok None); GenericPool.Acquire 1;
              GenericPool.Release 0; GenericPool.Evict 0;
              GenericPool.Acquire 2; GenericPool.Dispense] in
  HdbPool.c_max (GenericPool.closure q) = None
  /\ GenericPool.below_max q = false
  /\ GenericPool.creating q = [] /\ GenericPool.idle q = []
  /\ GenericPool.inUse q = [] /\ GenericPool.waiting q = [2%nat].
Proof. vm_compute. repeat split; reflexivity. Qed.

(** What the limit is there for, as the comment in the constructor tells
    it: were [max] 2 from the start, an acquisition arriving before the
    eager creation has answered would start a second login by
    assertion. *)
Example without_the_limit_two_logins :
  let k := {| HdbPool.c_options := assertion_options 2 None;
              HdbPool.c_user := Some "U"; HdbPool.c_env := "example.host.com";
              HdbPool.c_max := Some 2; HdbPool.c_req := None |} in
  let q := GenericPool.run (fun _ => "000"%char)
             (GenericPool.construct (fun _ => "000"%char) k 1)
             [GenericPool.Acquire 1] in
  assertion_attempts q = 2%nat.
Proof. vm_compute. reflexivity. Qed.

(** * More properties of the code *)

(** ** The LOB transform leaves no LOB behind *)

Lemma inlined_not_lob (toString : string -> string -> string)
    (encoding : string) (v : Lobs.value) :
  Lobs.is_lob (Lobs.inlined toString encoding v) = false.
Proof. destruct v as [| n | s | l]; try reflexivity. cbn. now destruct (Lobs.lobClose l). Qed.

(** X1. On an object, the row [transform] hands on holds no LOB any more,
    whether the LOBs could be read or not, and transforming it again
    changes nothing. *)
Theorem transform_row_final
    (toString : string -> string -> string) (encoding : string)
    (d : Lobs.row) :
  NoDup (Lobs.columns d) ->
  Forall (fun e => Lobs.is_lob (snd e) = false)
         (Lobs.transform_row toString encoding d)
  /\ Lobs.transform_row toString encoding
       (Lobs.transform_row toString encoding d)
     = Lobs.transform_row toString encoding d.
Proof.
  intros Hnd.
  assert (H : Forall (fun e => Lobs.is_lob (snd e) = false)
                     (Lobs.transform_row toString encoding d)).
  { rewrite (transform_row_inlines toString encoding d Hnd).
    apply Forall_forall. intros e He. apply list_elem_of_fmap in He as (x & -> & _).
    apply inlined_not_lob. }
  split; [exact H | now apply transform_row_plain].
Qed.

Lemma transform_row_final_witness :
  Forall (fun e => Lobs.is_lob (snd e) = false)
         (Lobs.transform_row (fun _ s => s) "utf8"
            [("COL1"%string, Lobs.VStr "c1r1");
             ("COL2"%string,
              Lobs.VLob {| Lobs.lobChunks := ["lo"; "rem"]%string;
                           Lobs.lobClose := Lobs.LobError |})])
  /\ Lobs.transform_row (fun _ s => s) "utf8"
       (Lobs.transform_row (fun _ s => s) "utf8"
          [("COL1"%string, Lobs.VStr "c1r1");
           ("COL2"%string,
            Lobs.VLob {| Lobs.lobChunks := ["lo"; "rem"]%string;
                         Lobs.lobClose := Lobs.LobError |})])
     = Lobs.transform_row (fun _ s => s) "utf8"
         [("COL1"%string, Lobs.VStr "c1r1");
          ("COL2"%string,
           Lobs.VLob {| Lobs.lobChunks := ["lo"; "rem"]%string;
                        Lobs.lobClose := Lobs.LobError |})].
Proof.
  apply transform_row_final.
  refine (bool_decide_unpack _ _). vm_compute. exact I.
Defined.

(** ** A record of quoted columns reads back *)

Lemma pushed_quoted (hdbTypeCodes : Z -> option string)
    (moment_format : option (Dsv.cell -> string)) (sep : string)
    (row : list (string * Dsv.cell)) (c : Dsv.column) (v : string) :
  DsvRecord.quoted_text hdbTypeCodes row c v ->
  Dsv.pushed hdbTypeCodes moment_format sep row c
  = inr (Dsv.Text (Dsv.dsvquote v sep)).
Proof.
  intros (Hq & H13 & Hv). unfold Dsv.pushed.
  rewrite Hq, (quoted_type_not_formatted _ Hq), Hv.
  cbn [Dsv.ifnull Dsv.dsvquote_cell].
  now rewrite (proj2 (Z.eqb_neq _ _) H13).
Qed.

Lemma line_quoted (hdbTypeCodes : Z -> option string)
    (moment_format : option (Dsv.cell -> string)) (sep : string)
    (row : list (string * Dsv.cell)) (metadata : list Dsv.column)
    (values : list string) :
  Forall2 (DsvRecord.quoted_text hdbTypeCodes row) metadata values ->
  Dsv.line hdbTypeCodes moment_format sep row metadata
  = inr (map (fun v => Dsv.Text (Dsv.dsvquote v sep)) values).
Proof.
  induction 1 as [|c v md vs Hc _ IH]; [reflexivity|].
  cbn [Dsv.line map]. now rewrite (pushed_quoted _ _ _ _ _ _ Hc), IH.
Qed.

Lemma follow_separator (sep : ascii) (s : string) :
  Dsv.field_follow sep (String sep s) = true.
Proof.
  unfold Dsv.field_follow, Dsv.ends_field. now rewrite Ascii.eqb_refl.
Qed.

Lemma read_quoted_line (sep : ascii) (values : list string) (rest : string) :
  values <> [] ->
  sep <> Dsv.DQUOTE ->
  Dsv.field_follow sep rest = true ->
  DsvRecord.read_fields sep (length values)
    (Dsv.join (String sep EmptyString)
       (map (fun v => Dsv.Text (Dsv.dsvquote v (String sep EmptyString)))
            values) ++ rest)
  = Some (values, rest).
Proof.
  intros Hne Hsep Hrest.
  induction values as [|v vs IH]; [congruence|].
  destruct vs as [|v' vs'].
  - cbn [map length Dsv.join Dsv.printed DsvRecord.read_fields].
    destruct (dsvquote_roundtrip sep v rest Hsep Hrest) as [_ ->].
    reflexivity.
  - assert (IH' := IH ltac:(discriminate)). clear IH.
    set (tail := Dsv.join (String sep EmptyString)
                   (map (fun v => Dsv.Text
                                    (Dsv.dsvquote v (String sep EmptyString)))
                        (v' :: vs'))) in *.
    change (Dsv.join (String sep EmptyString)
              (map (fun v => Dsv.Text
                               (Dsv.dsvquote v (String sep EmptyString)))
                   (v :: v' :: vs')))
      with (Dsv.dsvquote v (String sep EmptyString)
            ++ String sep EmptyString ++ tail)%string.
    rewrite append_String_assoc.
    change ((String sep EmptyString ++ tail) ++ rest)%string
      with (String sep (tail ++ rest)).
    change (length (v :: v' :: vs')) with (S (S (length vs'))).
    change (length (v' :: vs')) with (S (length vs')) in IH'.
    cbn [DsvRecord.read_fields].
    destruct (dsvquote_roundtrip sep v (String sep (tail ++ rest)) Hsep
                (follow_separator sep _)) as [_ ->].
    rewrite Ascii.eqb_refl.
    cbn [DsvRecord.read_fields] in IH'. now rewrite IH'.
Qed.

(** X2. Where [createDsvStringifier] builds its function (the names of the
    columns stand in the generated source as they are), a row whose
    columns all have a quoted type other than 13 and hold text is written
    as a record from which a reader of RFC 4180 reads back exactly the
    values of the row, in the order of the columns, whatever separators,
    quotes and line breaks the values hold. *)
Theorem stringify_record_roundtrip
    (hdbTypeCodes : Z -> option string)
    (moment_format : option (Dsv.cell -> string))
    (sep : ascii) (row : list (string * Dsv.cell))
    (metadata : list Dsv.column) (values : list string) (rest h : string)
    (f : list (string * Dsv.cell) -> Dsv.thrown + string) :
  Dsv.createDsvStringifier hdbTypeCodes moment_format metadata
    (String sep EmptyString) = Some (h, f) ->
  Forall2 (DsvRecord.quoted_text hdbTypeCodes row) metadata values ->
  metadata <> [] ->
  Dsv.field_follow sep rest = true ->
  exists written,
    f row = inr written
    /\ DsvRecord.read_fields sep (length metadata) (written ++ rest)
       = Some (values, rest).
Proof.
  intros Hf Hall Hne Hrest.
  destruct (createDsvStringifier_Some _ _ _ _ _ _ Hf) as (-> & _ & Hsep & _).
  unfold Dsv.stringify. rewrite (line_quoted _ _ _ _ _ _ Hall).
  eexists. split; [reflexivity|].
  rewrite (Forall2_length _ _ _ Hall).
  apply read_quoted_line; [|exact Hsep | exact Hrest].
  intros ->. inversion Hall. congruence.
Qed.

Lemma stringify_record_roundtrip_witness :
  exists written,
    Dsv.stringify sample_type_codes None rfc4180_metadata "," rfc4180_row
    = inr written
    /\ DsvRecord.read_fields "," 3 (written ++ Dsv.DSV_DELIMITER)
       = Some (rfc4180_values, Dsv.DSV_DELIMITER).
Proof.
  apply (stringify_record_roundtrip sample_type_codes None ","
           rfc4180_row rfc4180_metadata rfc4180_values Dsv.DSV_DELIMITER
           (Dsv.header rfc4180_metadata ",")).
  - reflexivity.
  - repeat constructor; discriminate.
  - discriminate.
  - reflexivity.
Defined.

(** ** Null values *)

(** X3. In a column whose name stands in the generated source as it is, a
    null value is written as backslash-N, without quotes, whether the type
    of the column is quoted, formatted as a date or neither and whether or
    not a global [moment] exists, as long as the separator is neither of
    these two characters; except in a column of type 13, whose statement
    throws a RangeError whatever the value. *)
Theorem null_written_as_backslash_N
    (hdbTypeCodes : Z -> option string)
    (moment_format : option (Dsv.cell -> string))
    (sep : ascii) (row : list (string * Dsv.cell)) (c : Dsv.column) :
  Dsv.expression_ok hdbTypeCodes (String sep EmptyString) c = true ->
  Dsv.at_name row (Dsv.row_key c) = Dsv.Null ->
  sep <> "\"%char -> sep <> "N"%char ->
  Dsv.pushed hdbTypeCodes moment_format (String sep EmptyString) row c
  = if Z.eqb (Dsv.dataType c) 13 then inl Dsv.RangeError
    else inr (Dsv.Text "\N").
Proof.
  intros _ Hnull H1 H2. unfold Dsv.pushed. rewrite Hnull. cbn [Dsv.ifnull].
  assert (Hq : Dsv.dsvquote "\N" (String sep EmptyString) = "\N").
  { unfold Dsv.dsvquote. rewrite dsvquote_test.
    unfold Dsv.needs_quotes. cbn [Dsv.contains_char].
    apply Ascii.eqb_neq in H1, H2.
    rewrite (Ascii.eqb_sym "\"%char sep), (Ascii.eqb_sym "N"%char sep).
    rewrite H1, H2. reflexivity. }
  destruct (Dsv.DSV_QUOTE (hdbTypeCodes (Dsv.dataType c)));
    destruct (Dsv.DSV_FORMAT (hdbTypeCodes (Dsv.dataType c)));
    cbn [Dsv.dsvquote_cell Dsv.iso8601]; rewrite ?Hq; reflexivity.
Qed.

Lemma null_written_as_backslash_N_witness :
  Dsv.pushed sample_type_codes None ";"
    [("COL1"%string, Dsv.Null)]
    {| Dsv.columnDisplayName := "COL1"; Dsv.dataType := 11 |}
  = inr (Dsv.Text "\N").
Proof.
  apply (null_written_as_backslash_N sample_type_codes None ";"
           [("COL1"%string, Dsv.Null)]
           {| Dsv.columnDisplayName := "COL1"; Dsv.dataType := 11 |});
    [reflexivity | reflexivity | discriminate | discriminate].
Defined.

(** ** The session store *)

(** X4. [storeIntoSession] writes exactly when environment, user and
    cookie are all set and the request carries an authenticated session:
    then the entry of the environment holds that user and that cookie, the
    entries of the other environments are as before and the session was
    saved once; otherwise the request is left as it is. *)
Theorem storeIntoSession_roundtrip (req : option Req.request) (env : string)
    (user sessionCookie : option string) :
  let req' := HdbPool.storeIntoSession req env user sessionCookie in
  if Session.storable req env user sessionCookie then
    Session.stored_entry req' env
    = Some {| Req.HANAUser := user; Req.HANAsessionCookie := sessionCookie |}
    /\ Req.stored_cookie req' env = sessionCookie
    /\ (forall other, other <> env ->
          Session.stored_entry req' other = Session.stored_entry req other)
    /\ Session.saves req' = S (Session.saves req)
  else req' = req.
Proof.
  unfold Session.storable, HdbPool.storeIntoSession, Session.stored_entry,
    Req.stored_cookie, Req.authenticated_user, Session.saves.
  destruct req as [r|]; cbn [mbind option_bind];
    [|now rewrite andb_false_r].
  destruct (JS.truthy_str env && JS.truthy user && JS.truthy sessionCookie);
    [|reflexivity].
  destruct (Req.req_session r) as [s|] eqn:Hs; cbn [mbind option_bind andb];
    [|reflexivity].
  destruct (Req.passport_user_of s) as [u|] eqn:Hu; [|reflexivity].
  cbn. unfold Req.set_passport_env. rewrite Hu. cbn.
  rewrite lookup_insert_eq. repeat split.
  intros other Hne. now rewrite lookup_insert_ne.
Qed.

(** X5. What the pool stored, the recovery clears: after
    [storeIntoSession] and then the clean-up of the same environment, the
    session holds the HANA user but no cookie for that environment, and
    the other environments are untouched by the clean-up. *)
Theorem stored_cookie_cleared (r : Req.request) (r' : Req.request)
    (env : string) (user sessionCookie : option string) :
  Session.storable (Some r) env user sessionCookie = true ->
  HdbPool.storeIntoSession (Some r) env user sessionCookie = Some r' ->
  Session.stored_entry (Some (Recovery.clear_cookie r' env)) env
  = Some {| Req.HANAUser := user; Req.HANAsessionCookie := None |}
  /\ forall other, other <> env ->
       Session.stored_entry (Some (Recovery.clear_cookie r' env)) other
       = Session.stored_entry (Some r') other.
Proof.
  unfold Session.storable, HdbPool.storeIntoSession, Session.stored_entry,
    Req.authenticated_user. cbn [mbind option_bind].
  destruct (JS.truthy_str env && JS.truthy user) eqn:E1; [|discriminate].
  destruct (JS.truthy sessionCookie) eqn:E2; [|discriminate].
  cbn [andb].
  destruct (Req.req_session r) as [s|] eqn:Hs; cbn [mbind option_bind];
    [|discriminate].
  destruct (Req.passport_user_of s) as [u|] eqn:Hu; [|discriminate].
  intros _ [= <-]. unfold Recovery.clear_cookie. cbn.
  unfold Req.set_passport_env. rewrite Hu. cbn. rewrite lookup_insert_eq.
  cbn. rewrite E2. cbn. rewrite lookup_insert_eq. split; [reflexivity|].
  intros other Hne. now rewrite !lookup_insert_ne.
Qed.

Lemma stored_cookie_cleared_witness :
  exists r',
    HdbPool.storeIntoSession
      (Some (Recovery.req (tenant_state HdbPool.assertion_))) "HDB"
      (Some "ALICE") (Some "n3w") = Some r'
    /\ Req.stored_cookie (Some r') "HDB" = Some "n3w"
    /\ Session.stored_entry (Some (Recovery.clear_cookie r' "HDB")) "HDB"
       = Some {| Req.HANAUser := Some "ALICE";
                 Req.HANAsessionCookie := None |}.
Proof.
  eexists. split; [reflexivity|]. split; [reflexivity|].
  refine (proj1 (stored_cookie_cleared
                   (Recovery.req (tenant_state HdbPool.assertion_)) _ "HDB"
                   (Some "ALICE"%string) (Some "n3w"%string) eq_refl eq_refl)).
Defined.

(** ** Handle creation *)

(** X6. First the assertion, then the cookie: once a creation by
    assertion has connected and the server has named the user and issued a
    cookie, the options of the pool hold both, and the next creation of a
    pool without password connects by session cookie, with that user and
    that cookie. *)
Theorem assertion_login_switches_to_cookie
    (k : HdbPool.closure) (w : HdbPool.world)
    (a hana_user hana_cookie : option string) (rnd : ascii) :
  JS.truthy (HdbPool.password (HdbPool.c_options k)) = false ->
  HdbPool.choose (HdbPool.c_options k) (HdbPool.c_user k)
    (HdbPool.randomByte w) = HdbPool.AskFactory ->
  HdbPool.assertionFactory (HdbPool.c_options k) w = inr a ->
  HdbPool.connectAnswer w = HdbPool.ConnectOk hana_user hana_cookie ->
  JS.truthy hana_user = true ->
  JS.truthy hana_cookie = true ->
  let k' := HdbPool.cr_closure (HdbPool.create k w) in
  HdbPool.user (HdbPool.c_options k') = hana_user
  /\ HdbPool.sessionCookie (HdbPool.c_options k') = hana_cookie
  /\ HdbPool.c_req k'
     = HdbPool.storeIntoSession (HdbPool.c_req k) (HdbPool.c_env k)
         hana_user hana_cookie
  /\ HdbPool.choose (HdbPool.c_options k') (HdbPool.c_user k') rnd
     = HdbPool.Connect
         {| HdbPool.co_user := hana_user;
            HdbPool.co_password := Some (String rnd EmptyString);
            HdbPool.co_sessionCookie := hana_cookie;
            HdbPool.co_assertion := None;
            HdbPool.co_method := HdbPool.sessionCookie_ |}.
Proof.
  intros Hpw Hch Hf Hc Hu Hck k'. subst k'.
  unfold HdbPool.create. rewrite Hch. cbn [HdbPool.finish]. rewrite Hf.
  unfold HdbPool.conn. rewrite Hc. cbn.
  destruct hana_cookie as [[|c0 ck]|]; try discriminate Hck.
  destruct hana_user as [[|u0 u]|]; try discriminate Hu.
  cbn. repeat split. unfold HdbPool.choose. cbn. now rewrite Hpw.
Qed.

Lemma assertion_login_switches_to_cookie_witness :
  let k' := HdbPool.cr_closure
              (HdbPool.create (first_time_closure None) (login_ok None)) in
  HdbPool.user (HdbPool.c_options k') = Some "U"
  /\ HdbPool.sessionCookie (HdbPool.c_options k') = Some "c00kie"
  /\ HdbPool.c_req k'
     = HdbPool.storeIntoSession None "example.host.com"
         (Some "U") (Some "c00kie")
  /\ HdbPool.choose (HdbPool.c_options k') (HdbPool.c_user k') "007"%char
     = HdbPool.Connect
         {| HdbPool.co_user := Some "U";
            HdbPool.co_password := Some (String "007"%char EmptyString);
            HdbPool.co_sessionCookie := Some "c00kie";
            HdbPool.co_assertion := None;
            HdbPool.co_method := HdbPool.sessionCookie_ |}.
Proof.
  apply (assertion_login_switches_to_cookie (first_time_closure None)
           (login_ok None) (Some "<NameID>U</NameID>"%string)
           (Some "U"%string) (Some "c00kie"%string) "007"%char);
    reflexivity.
Defined.

(** X7. Only a login by assertion touches the cookie: a creation that
    connects by password or by session cookie leaves the cookie of the
    options and the session of the request as they were, whatever cookie
    the server reports. *)
Theorem other_logins_keep_cookie (k : HdbPool.closure) (w : HdbPool.world) :
  strategy_by_precedence (HdbPool.c_options k) <> Some HdbPool.assertion_ ->
  let k' := HdbPool.cr_closure (HdbPool.create k w) in
  HdbPool.sessionCookie (HdbPool.c_options k')
  = HdbPool.sessionCookie (HdbPool.c_options k)
  /\ HdbPool.c_req k' = HdbPool.c_req k.
Proof.
  intros Hs k'. subst k'. unfold HdbPool.create.
  rewrite <- (choose_strategy _ (HdbPool.c_user k) (HdbPool.randomByte w)) in Hs.
  unfold HdbPool.choose in *.
  destruct (JS.truthy (HdbPool.user (HdbPool.c_options k))
            && JS.truthy (HdbPool.password (HdbPool.c_options k))).
  { cbn [HdbPool.finish]. unfold HdbPool.conn.
    destruct (HdbPool.connectAnswer w); now split. }
  destruct (JS.truthy (HdbPool.user (HdbPool.c_options k))
            && JS.truthy (HdbPool.sessionCookie (HdbPool.c_options k))).
  { cbn [HdbPool.finish]. unfold HdbPool.conn.
    destruct (HdbPool.connectAnswer w); now split. }
  destruct (HdbPool.truthy_assertion (HdbPool.assertion (HdbPool.c_options k)));
    [now contradiction Hs | now split].
Qed.

Lemma other_logins_keep_cookie_witness :
  let w := {| HdbPool.randomByte := "000"%char;
              HdbPool.factoryAnswer := inr EmptyString;
              HdbPool.connectAnswer :=
                HdbPool.ConnectOk (Some "USERNAME") (Some "c00kie");
              HdbPool.schemaAnswer := None |} in
  let k := {| HdbPool.c_options := password_options;
              HdbPool.c_user := Some "username";
              HdbPool.c_env := "example.host.com";
              HdbPool.c_max := Some 5; HdbPool.c_req := None |} in
  HdbPool.sessionCookie
    (HdbPool.c_options (HdbPool.cr_closure (HdbPool.create k w))) = None
  /\ HdbPool.c_req (HdbPool.cr_closure (HdbPool.create k w)) = None.
Proof.
  apply (other_logins_keep_cookie
           {| HdbPool.c_options := password_options;
              HdbPool.c_user := Some "username"%string;
              HdbPool.c_env := "example.host.com"%string;
              HdbPool.c_max := Some 5; HdbPool.c_req := None |}).
  discriminate.
Defined.

(** X8. [create] hands over a handle without error only after the
    connection was made; and a creation that ends before the connection is
    made (no method, a failing assertion factory, a refused connection)
    reports an error and leaves options, user, [max] and request as they
    were. *)
Theorem create_without_connection (k : HdbPool.closure) (w : HdbPool.world) :
  let r := HdbPool.create k w in
  (HdbPool.cr_err r = None -> connected r = true)
  /\ (connected r = false ->
      is_Some (HdbPool.cr_err r) /\ HdbPool.cr_closure r = k).
Proof.
  intros r. subst r. unfold HdbPool.create, connected.
  destruct (HdbPool.choose _ _ _) as [c| |]; cbn [HdbPool.finish].
  - unfold HdbPool.conn. destruct (HdbPool.connectAnswer w); cbn;
      (split; [try discriminate; reflexivity|]); try discriminate.
    intros _. split; [eexists; reflexivity | reflexivity].
  - destruct (HdbPool.assertionFactory _ w); cbn.
    + split; [discriminate|]. intros _. split; [eexists|]; reflexivity.
    + unfold HdbPool.conn. destruct (HdbPool.connectAnswer w); cbn;
        (split; [try discriminate; reflexivity|]); try discriminate.
      intros _. split; [eexists; reflexivity | reflexivity].
  - cbn. split; [discriminate|]. intros _. split; [eexists|]; reflexivity.
Qed.

(** ** The dispatcher without a request *)

Lemma standalone_mono (b : bool) (s : Dispatcher.state) :
  standalone b s -> standalone (b || true) s /\ standalone (b || false) s.
Proof.
  rewrite orb_false_r. intros H. split; [|exact H].
  destruct H as (Hf & Hc & Hr & Hm & Hw). rewrite orb_true_r.
  repeat (split; [assumption|]).
  destruct (Dispatcher.waits s); [exact Hw|].
  destruct Hw as [H|[H|(_ & H)]]; auto.
Qed.




(** The exception at work: the statement answers with an empty
    [dummyRows]; nothing is pending any more, the handle was not released
    and the caller was not called. *)
Example empty_answer_keeps_the_handle :
  let s := Dispatcher.run
             (Dispatcher.query http_pool Dispatcher.EXEC false None None
                true "uuid-1" 1000)
             [Dispatcher.Acquired None 1010; Dispatcher.AnsweredEmpty 1050] in
  Dispatcher.waits s = None
  /\ Dispatcher.released s = O
  /\ Dispatcher.called s = [].
Proof. vm_compute. repeat split; reflexivity. Qed.

(** A stream whose last stage finishes and one of whose stages then
    reports an error: [exCb] runs for each, so the handle is released
    twice and the caller called twice. *)
Example stream_events_each_call :
  let s := Dispatcher.run
             (Dispatcher.query http_pool Dispatcher.STREAM false
                (Some http_request) (Some ∅) true "uuid-1" 1000)
             [Dispatcher.Acquired None 1010;
              Dispatcher.Answered None None None 1050;
              Dispatcher.Streamed None;
              Dispatcher.Streamed (Some (Req.ErrStr "write after end"))] in
  Dispatcher.released s = 2%nat
  /\ Dispatcher.called s
     = [(None, None); (Some (Req.ErrStr "write after end"), None)].
Proof. vm_compute. repeat split; reflexivity. Qed.

(** ** The id of a request *)

Lemma store_keeps_id (p : HDBPool.t) (r : Req.request) :
  exists r', Dispatcher.store p (Some r) = Some r'
             /\ Req.hdbPoolRequestId r' = Req.hdbPoolRequestId r.
Proof.
  unfold Dispatcher.store, HdbPool.storeIntoSession.
  destruct (_ && _ && _); [|now exists r].
  destruct (Req.req_session r) as [ss|]; [|now exists r].
  destruct (Req.passport_user_of ss); [|now exists r].
  eexists. split; reflexivity.
Qed.

Lemma initRequest_reuses (p2 : HDBPool.t) (r : Req.request)
    (c : ascii) (i uuid2 : string) :
  Req.hdbPoolRequestId r = Some (String c i) ->
  Dispatcher.initRequest p2 (Some r) uuid2
  = (String c i, <[String c i := true]> (HDBPool.reqQueue p2),
     Dispatcher.store p2 (Some r)).
Proof.
  intros Hid. unfold Dispatcher.initRequest.
  destruct (store_keeps_id p2 r) as (r' & -> & Hid').
  now rewrite Hid', Hid.
Qed.

(** X10. All dispatches of one request run under one id: the request that
    [initRequest] leaves carries the id of its first dispatch, and every
    later dispatch of that request, on whatever pool and with whatever
    fresh uuid, takes this id again, opens the entry of that id in the
    queue of its pool, and changes the request only by what
    [storeIntoSession] writes into its session for that pool. *)
Theorem request_id_is_reused (p : HDBPool.t) (r : Req.request)
    (uuid : string) :
  JS.truthy_str uuid = true ->
  let '(id, queue, req') := Dispatcher.initRequest p (Some r) uuid in
  queue !! id = Some true
  /\ req' ≫= Req.hdbPoolRequestId = Some id
  /\ forall (p2 : HDBPool.t) (uuid2 : string),
       Dispatcher.initRequest p2 req' uuid2
       = (id, <[id := true]> (HDBPool.reqQueue p2), Dispatcher.store p2 req').
Proof.
  intros Hu. unfold Dispatcher.initRequest.
  destruct uuid as [|c u]; [discriminate Hu|].
  destruct (store_keeps_id p r) as (r' & -> & Hid').
  rewrite Hid'.
  destruct (Req.hdbPoolRequestId r) as [[|c' i]|] eqn:Hid;
    cbn [JS.or_else JS.truthy];
    (split; [apply lookup_insert_eq|]);
    (split; [first [exact Hid' | reflexivity]|]);
    intros p2 uuid2; now apply initRequest_reuses.
Qed.

Lemma request_id_is_reused_witness :
  let '(id, queue, req') :=
    Dispatcher.initRequest http_pool (Some http_request) "uuid-1" in
  queue !! id = Some true
  /\ req' ≫= Req.hdbPoolRequestId = Some id
  /\ forall (p2 : HDBPool.t) (uuid2 : string),
       Dispatcher.initRequest p2 req' uuid2
       = (id, <[id := true]> (HDBPool.reqQueue p2), Dispatcher.store p2 req').
Proof.
  apply (request_id_is_reused http_pool http_request "uuid-1"). reflexivity.
Defined.

(** ** A dispatch that gets no handle *)

(** X11. A dispatch that gets no handle, because the creation failed or
    because it was asked to stream without a list of streams, tells the
    caller the error once, and whatever happens to the request afterwards
    it releases nothing, sends nothing and does not call again. *)
Theorem dispatch_without_handle
    (p : HDBPool.t) (mode : Dispatcher.QUERYMODE) (prep : bool)
    (req : option Req.request) (resp : option (gmap string JS.value))
    (uuid : string) (now t : Z) (e : Req.error)
    (evs : list Dispatcher.event) :
  let failed :=
    Dispatcher.run (Dispatcher.query p mode prep req resp true uuid now)
      (Dispatcher.Acquired (Some e) t :: evs) in
  let streamless :=
    Dispatcher.run
      (Dispatcher.query p Dispatcher.STREAM prep req resp false uuid now)
      evs in
  (Dispatcher.called failed = [(Some e, None)]
   /\ Dispatcher.released failed = O /\ Dispatcher.sent failed = [])
  /\ (Dispatcher.called streamless
      = [(Some (Req.ErrStr "streams[] is missing or empty"), None)]
      /\ Dispatcher.released streamless = O
      /\ Dispatcher.sent streamless = []).
Proof.
  intros failed streamless. subst failed streamless. split.
  - cbn [Dispatcher.run fold_left].
    match goal with
    | |- context [fold_left Dispatcher.step evs ?s1] =>
        destruct (settled_stays s1 evs) as (H1 & H2 & H3);
          [destruct mode; reflexivity | destruct mode; reflexivity |];
          fold (Dispatcher.run s1 evs); rewrite H1, H2, H3
    end.
    destruct mode; now repeat split.
  - match goal with
    | |- context [Dispatcher.run ?s1 evs] =>
        destruct (settled_stays s1 evs) as (H1 & H2 & H3);
          [reflexivity | reflexivity |]; rewrite H1, H2, H3
    end.
    now repeat split.
Qed.


(** * The registry, the cleanup and the routing *)

(** ** The registry of user pools *)

Section RegistryFacts.

Import Registry.

Variable url_parse_query : string -> gmap string string.
Variable NameID : string -> option string.
Variable randomBytes : nat -> ascii.

Local Abbreviation createUserPool :=
  (Registry.createUserPool url_parse_query NameID randomBytes).
Local Abbreviation hasUserPool := (Registry.hasUserPool url_parse_query).

Lemma overwrite_truthy (env : string) (v : option string) :
  JS.truthy_str env = true -> JS.truthy_str (MetaPool.overwrite env v) = true.
Proof.
  intros He. unfold MetaPool.overwrite.
  destruct v as [[|a s]|]; cbn; auto.
Qed.

Lemma getEnvFromRequest_truthy (c : MetaPool.Conf) (req : option Req.request) :
  JS.truthy_str (MetaPool.getEnvFromRequest url_parse_query c req) = true.
Proof.
  unfold MetaPool.getEnvFromRequest.
  apply overwrite_truthy.
  set (e1 := MetaPool.overwrite (MetaPool.overwrite _ _) _).
  assert (H1 : JS.truthy_str e1 = true).
  { subst e1. do 2 apply overwrite_truthy.
    unfold JS.or_else.
    destruct (MetaPool.default_env (MetaPool.conf_db c)) as [[|a s]|];
      reflexivity. }
  destruct (JS.truthy _) eqn:Hq.
  - revert Hq. generalize (match req with
                           | Some r => MetaPool.field (Req.query r)
                                         (MetaPool.sourceSysField c)
                           | None => None
                           end).
    intros [[|a s]|]; try discriminate. reflexivity.
  - destruct req as [r|]; [|exact H1].
    destruct (Req.req_session r) as [s|]; [|exact H1].
    destruct (Req.returnTo s) as [[|a u]|]; try exact H1.
    now apply overwrite_truthy.
Qed.

(** What a call of [createUserPool] that ends in [cb(null, userId, env)]
    went through. *)
Lemma createUserPool_Ok (c : MetaPool.Conf) (x : Settings) (wss : wssclient)
    (now : Z) (req : option Req.request) (env : string)
    (reg : gmap string entry) (net : list HDBPool.dial)
    (uid e : string) (reg' : gmap string entry) (net' : list HDBPool.dial) :
  createUserPool c x wss now req env reg net = (Ok uid e, reg', net') ->
  exists r s u sid,
    req = Some r /\ Req.req_session r = Some s
    /\ Req.passport_user_of s = Some u
    /\ Req.sess_id s = Some sid /\ JS.truthy_str sid = true
    /\ getUserId c req = Some uid /\ JS.truthy_str uid = true
    /\ e = (if JS.truthy_str env then env
            else MetaPool.getEnvFromRequest url_parse_query c req)
    /\ MetaPool.truthy_entry (MetaPool.db_get (MetaPool.conf_db c) e) = true
    /\ let o := touch (reg !! uid) sid s now in
       (has_pool (pools o) e = true /\ reg' = <[uid := o]> reg /\ net' = net)
       \/ (has_pool (pools o) e = false
           /\ exists i,
               choose_auth wss uid e u <> Refused (Req.ErrStr EmptyString)
               /\ method_of (choose_auth wss uid e u) <> None
               /\ HDBPool.createPool NameID randomBytes
                    (auth_options c x e (choose_auth wss uid e u)) req net
                  = (Some i, net')
               /\ reg' = <[uid := set_pool o e
                                    {| instance := i;
                                       _authMethod :=
                                         method_of (choose_auth wss uid e u) |}]>
                           reg).
Proof.
  unfold Registry.createUserPool.
  destruct req as [r|]; cbn [mbind option_bind];
    [|cbn; discriminate].
  destruct (Req.req_session r) as [s|] eqn:Hs; cbn [mbind option_bind].
  2:{ cbn. unfold getUserId, Req.authenticated_user. cbn. rewrite Hs. cbn.
      discriminate. }
  destruct (Req.sess_id s) as [sid|] eqn:Hsid.
  2:{ rewrite bool_decide_true by eauto. cbn [JS.truthy negb andb].
      discriminate. }
  destruct (JS.truthy (Some sid)) eqn:Ht.
  2:{ rewrite bool_decide_true by eauto. cbn [negb andb]. discriminate. }
  rewrite andb_false_r.
  destruct (getUserId c (Some r)) as [[|a0 uid0]|] eqn:Hu; try discriminate.
  destruct (Req.authenticated_user (Some r)) as [u|] eqn:Hau;
    try discriminate.
  cbv zeta.
  set (e0 := if JS.truthy_str env then env else _).
  destruct (negb (MetaPool.truthy_entry _)) eqn:Hdb; [discriminate|].
  destruct (bool_decide _ && inherited _) eqn:Hinh; [discriminate|].
  change (default EmptyString (Some sid)) with sid.
  set (o := touch _ sid s now).
  assert (Hps : Req.passport_user_of s = Some u).
  { unfold Req.authenticated_user in Hau. cbn in Hau. rewrite Hs in Hau.
    exact Hau. }
  assert (Hsidt : JS.truthy_str sid = true) by (destruct sid; auto).
  assert (Hdb' : MetaPool.truthy_entry
                   (MetaPool.db_get (MetaPool.conf_db c) e0) = true)
    by now apply negb_false_iff.
  destruct (has_pool (pools o) e0) eqn:Hhas.
  - intros [= <- <- <- <-].
    exists r, s, u, sid.
    split; [reflexivity|]. split; [exact Hs|]. split; [exact Hps|].
    split; [exact Hsid|]. split; [exact Hsidt|]. split; [first [exact Hu | reflexivity]|].
    split; [reflexivity|]. split; [reflexivity|]. split; [exact Hdb'|].
    left. fold o. auto.
  - destruct (choose_auth wss (String a0 uid0) e0 u) as [hu ck|au a|err] eqn:Hc;
      try discriminate;
      (destruct (HDBPool.createPool _ _ _ _ _) as [[i|] net1] eqn:Hcp;
         [|discriminate]);
      intros [= <- <- <- <-];
      exists r, s, u, sid;
      (split; [reflexivity|]); (split; [exact Hs|]); (split; [exact Hps|]);
      (split; [exact Hsid|]); (split; [exact Hsidt|]); (split; [first [exact Hu | reflexivity]|]);
      (split; [reflexivity|]); (split; [reflexivity|]);
      (split; [exact Hdb'|]);
      right; fold o; (split; [exact Hhas|]);
      exists i; rewrite Hc; cbn [method_of];
      repeat split; try discriminate; auto.
Qed.


Lemma createUserPool_Ok_pool (c : MetaPool.Conf) (x : Settings)
    (wss : wssclient) (now : Z) (req : option Req.request) (env : string)
    (reg : gmap string entry) (net : list HDBPool.dial)
    (uid e : string) (reg' : gmap string entry) (net' : list HDBPool.dial) :
  createUserPool c x wss now req env reg net = (Ok uid e, reg', net') ->
  JS.truthy_str uid = true /\ JS.truthy_str e = true
  /\ MetaPool.truthy_entry (MetaPool.db_get (MetaPool.conf_db c) e) = true
  /\ exists o, reg' !! uid = Some o /\ has_pool (pools o) e = true.
Proof.
  intros H.
  destruct (createUserPool_Ok _ _ _ _ _ _ _ _ _ _ _ _ H)
    as (r & s & u & sid & -> & Hs & Hps & Hsid & Hsidt & Hu & Hut & He & Hdb
        & Hcase).
  split; [exact Hut|]. split.
  { rewrite He. destruct (JS.truthy_str env) eqn:Hen; [exact Hen|].
    apply getEnvFromRequest_truthy. }
  split; [exact Hdb|].
  destruct Hcase as [(Hhas & -> & _) | (Hhas & i & _ & _ & _ & ->)];
    eexists; (split; [apply lookup_insert_eq|]); [exact Hhas|].
  unfold has_pool, set_pool. cbn [pools]. now rewrite lookup_insert_eq.
Qed.

(** X12. One pool for a user and an environment: once [createUserPool] has
    answered with a user and an environment, every later call for that
    user and environment, from any request of the user with a session id,
    answers the same without asking the network, and leaves every pool of
    the registry as it is. *)
Theorem createUserPool_reuses_pool (c : MetaPool.Conf) (x : Settings)
    (wss : wssclient) (now : Z) (req : option Req.request) (env : string)
    (reg : gmap string entry) (net : list HDBPool.dial)
    (uid e : string) (reg1 : gmap string entry) (net1 : list HDBPool.dial)
    (wss2 : wssclient) (now2 : Z) (req2 : option Req.request)
    (net2 : list HDBPool.dial) :
  createUserPool c x wss now req env reg net = (Ok uid e, reg1, net1) ->
  getUserId c req2 = Some uid ->
  JS.truthy ((req2 ≫= Req.req_session) ≫= Req.sess_id) = true ->
  exists reg2,
    createUserPool c x wss2 now2 req2 e reg1 net2 = (Ok uid e, reg2, net2)
    /\ forall u' e', pool_at reg2 u' e' = pool_at reg1 u' e'.
Proof.
  intros H Hu2 Hsid2.
  destruct (createUserPool_Ok_pool _ _ _ _ _ _ _ _ _ _ _ _ H)
    as (Hut & Het & Hdb & o1 & Ho1 & Hhas).
  unfold Registry.createUserPool.
  rewrite Hsid2, andb_false_r.
  destruct req2 as [r2|]; [|discriminate Hu2].
  rewrite Hu2.
  destruct uid as [|a0 uid0]; [discriminate Hut|].
  assert (Hau : exists u2, Req.authenticated_user (Some r2) = Some u2).
  { unfold getUserId in Hu2.
    destruct (Req.authenticated_user (Some r2)); [eauto | discriminate]. }
  destruct Hau as [u2 Hau]. rewrite Hau.
  destruct (Some r2 ≫= Req.req_session) as [s2|] eqn:Hs2;
    [|discriminate Hsid2].
  cbv zeta. rewrite Het, Hdb. cbn [negb].
  rewrite Ho1. rewrite bool_decide_false by discriminate. cbn [andb].
  set (o2 := touch (Some o1) _ s2 now2).
  assert (Hp : pools o2 = pools o1) by reflexivity.
  rewrite Hp, Hhas.
  eexists. split; [reflexivity|].
  intros u' e'. unfold pool_at.
  destruct (decide (u' = String a0 uid0)) as [->|Hne].
  - rewrite lookup_insert_eq, Ho1. cbn [mbind option_bind]. now rewrite Hp.
  - now rewrite lookup_insert_ne by congruence.
Qed.


Lemma construct_one (k : HdbPool.closure) :
  HdbPool.c_max k = Some 1 ->
  GenericPool.creating (GenericPool.construct randomBytes k 1)
  = match HdbPool.choose (HdbPool.c_options k) (HdbPool.c_user k)
            (randomBytes 0) with
    | HdbPool.NoMethod => []
    | b => [b]
    end.
Proof.
  intros Hmax.
  unfold GenericPool.construct, GenericPool.ensureMinimum.
  cbn [GenericPool.min].
  change (Z.to_nat (1 - GenericPool.count _)) with 1%nat.
  rewrite Nat.iter_succ. cbn [Nat.iter].
  assert (Hb : forall q, GenericPool.closure q = k ->
                         GenericPool.creating q = [] ->
                         GenericPool.idle q = [] -> GenericPool.inUse q = [] ->
                         GenericPool.below_max q = true).
  { intros q Hk Hc Hi Hu. unfold GenericPool.below_max, GenericPool.count.
    now rewrite Hk, Hmax, Hc, Hi, Hu. }
  unfold GenericPool.top_up. rewrite Hb by reflexivity.
  unfold GenericPool.start.
  cbn [GenericPool.closure GenericPool.started GenericPool.creating].
  destruct (HdbPool.choose _ _ _); reflexivity.
Qed.

Lemma new_user_pool_ready (c : MetaPool.Conf) (x : Settings) (e : string)
    (a : auth) (req : option Req.request) :
  match a with
  | ByCookie hu _ => JS.truthy hu = true
  | ByAssertion usr _ => JS.truthy_str usr = true
  | Refused _ => False
  end ->
  exists t k0,
    HDBPool.new NameID randomBytes (auth_options c x e a) req = HDBPool.Ready t
    /\ HDBPool.pool t = GenericPool.construct randomBytes k0 1
    /\ HdbPool.c_options k0 = auth_options c x e a
    /\ HdbPool.c_max k0 = Some 1.
Proof.
  intros Ha.
  assert (Hnew : exists t, HDBPool.new NameID randomBytes (auth_options c x e a) req
                           = HDBPool.Ready t).
  { unfold HDBPool.new.
    destruct a as [hu ck|usr [txt|]|err]; [| | |contradiction].
    - eexists; reflexivity.
    - destruct usr; [discriminate Ha|]. cbn. rewrite andb_false_r.
      eexists; reflexivity.
    - eexists; reflexivity. }
  destruct Hnew as [t Ht]. exists t.
  assert (Hmin : HdbPool.min_positive (auth_options c x e a) = true)
    by (destruct a; reflexivity).
  destruct (new_pool randomBytes NameID _ req t Hmin Ht)
    as (k0 & Hp & Ho & Hm).
  exists k0. split; [exact Ht|]. split; [|now split].
  rewrite Hp. destruct a; reflexivity.
Qed.


Lemma choose_auth_cases (wss : wssclient) (uid e : string) (r : Req.request)
    (s : Req.session) (u : Req.passport_user) :
  Req.req_session r = Some s -> Req.passport_user_of s = Some u ->
  match session_login (Some r) e with
  | Some pe =>
      choose_auth wss uid e u
      = ByCookie (Req.HANAUser pe) (Req.HANAsessionCookie pe)
      /\ JS.truthy (Req.HANAUser pe) = true
      /\ JS.truthy (Req.HANAsessionCookie pe) = true
  | None =>
      (exists a, choose_auth wss uid e u = ByAssertion uid a
                 /\ HdbPool.truthy_assertion (Some a) = true)
      \/ exists err, choose_auth wss uid e u = Refused err
  end.
Proof.
  intros Hs Hu.
  unfold session_login, Req.authenticated_user. cbn. rewrite Hs. cbn.
  rewrite Hu. cbn. unfold choose_auth.
  assert (Hby : forall b,
    b = (if JS.truthy (Req.pu_assertion u)
         then match wss with
              | NoClient =>
                  ByAssertion uid
                    (HdbPool.AssertionText
                       (default EmptyString (Req.pu_assertion u)))
              | Client notOnOrAfter clock fromNow =>
                  match getAssertionFactory notOnOrAfter clock fromNow with
                  | inl message =>
                      Refused (Req.ErrObj None (Some message) None)
                  | inr a => ByAssertion uid a
                  end
              end
         else Refused
                (Req.ErrStr "unsupported hdb user pool authentication mode")) ->
    (exists a, b = ByAssertion uid a /\ HdbPool.truthy_assertion (Some a) = true)
    \/ exists err, b = Refused err).
  { intros b ->.
    destruct (Req.pu_assertion u) as [[|a0 a]|]; cbn; eauto.
    destruct wss as [|exp clock fromNow]; [left; eauto|].
    unfold getAssertionFactory.
    destruct exp as [t|]; [destruct (Z.ltb t clock)|]; eauto. }
  destruct (Req.pu_envs u !! e) as [pe|]; cbn; [|now apply Hby].
  destruct (JS.truthy (Req.HANAUser pe)) eqn:H1; cbn; [|now apply Hby].
  destruct (JS.truthy (Req.HANAsessionCookie pe)) eqn:H2; cbn;
    [auto | now apply Hby].
Qed.

Lemma createUserPool_makes (c : MetaPool.Conf) (x : Settings)
    (wss : wssclient) (now : Z) (req : option Req.request) (env : string)
    (reg : gmap string entry) (net : list HDBPool.dial)
    (uid e : string) (reg' : gmap string entry) (net' : list HDBPool.dial) :
  createUserPool c x wss now req env reg net = (Ok uid e, reg', net') ->
  match reg !! uid with
  | Some o => has_pool (pools o) e
  | None => inherited e
  end = false ->
  exists t k0 b,
    pool_at reg' uid e
    = Some {| instance := HDBPool.Ready t; _authMethod := HdbPool.strategy b |}
    /\ HDBPool.pool t = GenericPool.construct randomBytes k0 1
    /\ HdbPool.c_max k0 = Some 1
    /\ GenericPool.creating (HDBPool.pool t) = [b]
    /\ net' = (net ++ [(env_conf_of c e ≫= MetaPool.HOST,
                        env_conf_of c e ≫= MetaPool.PORT)])%list
    /\ b = match session_login req e with
           | Some pe =>
               HdbPool.Connect
                 {| HdbPool.co_user := Req.HANAUser pe;
                    HdbPool.co_password :=
                      Some (String (randomBytes 0) EmptyString);
                    HdbPool.co_sessionCookie := Req.HANAsessionCookie pe;
                    HdbPool.co_assertion := None;
                    HdbPool.co_method := HdbPool.sessionCookie_ |}
           | None => HdbPool.AskFactory
           end
    /\ HdbPool.refreshIdle (HdbPool.c_options k0) = Some false
    /\ HdbPool.minPoolSize (HdbPool.c_options k0) = Some 1.
Proof.
  intros H Hnone.
  destruct (createUserPool_Ok _ _ _ _ _ _ _ _ _ _ _ _ H)
    as (r & s & u & sid & -> & Hs & Hps & Hsid & Hsidt & Hu & Hut & He & Hdb
        & Hcase).
  assert (Hno : has_pool (pools (touch (reg !! uid) sid s now)) e = false).
  { destruct (reg !! uid) as [o|]; [exact Hnone|].
    unfold has_pool, touch. cbn [pools]. now rewrite lookup_empty. }
  destruct Hcase as [(Hhas & _) | (_ & i & _ & Hnr & Hcp & ->)];
    [cbv zeta in Hhas; congruence|].
  pose proof (choose_auth_cases wss uid e r s u Hs Hps) as Hca.
  set (a := choose_auth wss uid e u) in *.
  unfold HDBPool.createPool in Hcp.
  destruct (negb (JS.truthy (HdbPool.host (auth_options c x e a))));
    [discriminate Hcp|].
  destruct (negb (HdbPool.truthy_num (HdbPool.port (auth_options c x e a))));
    [discriminate Hcp|].
  injection Hcp as <- <-.
  set (b := match session_login (Some r) e with
            | Some pe =>
                HdbPool.Connect
                  {| HdbPool.co_user := Req.HANAUser pe;
                     HdbPool.co_password :=
                       Some (String (randomBytes 0) EmptyString);
                     HdbPool.co_sessionCookie := Req.HANAsessionCookie pe;
                     HdbPool.co_assertion := None;
                     HdbPool.co_method := HdbPool.sessionCookie_ |}
            | None => HdbPool.AskFactory
            end).
  assert (Ha : match a with
               | ByCookie hu _ => JS.truthy hu = true
               | ByAssertion usr _ => JS.truthy_str usr = true
               | Refused _ => False
               end
               /\ (forall uv, HdbPool.choose (auth_options c x e a) uv
                                (randomBytes 0) = b)
               /\ method_of a = HdbPool.strategy b).
  { subst b. destruct (session_login (Some r) e) as [pe|].
    - destruct Hca as (Hca & H1 & H2). rewrite Hca.
      split; [exact H1|]. split; [|reflexivity].
      intros uv. unfold HdbPool.choose. cbn. rewrite H1, H2. reflexivity.
    - destruct Hca as [(asr & Hca & Hasr) | (err & Hca)];
        [|rewrite Hca in Hnr; now destruct Hnr].
      rewrite Hca. split; [exact Hut|]. split; [|reflexivity].
      intros uv. unfold HdbPool.choose. cbn.
      rewrite andb_false_r. cbn in Hasr. now rewrite Hasr. }
  destruct Ha as (Ha & Hch & Hm).
  destruct (new_user_pool_ready c x e a (Some r) Ha)
    as (t & k0 & Hnew & Hpool & Hopt & Hmax).
  assert (Hcr : GenericPool.creating (HDBPool.pool t) = [b]).
  { rewrite Hpool, (construct_one _ Hmax), Hopt, Hch.
    subst b. now destruct (session_login (Some r) e). }
  exists t, k0, b.
  split.
  { unfold pool_at. rewrite lookup_insert_eq. cbn [mbind option_bind].
    unfold set_pool. cbn [pools]. rewrite lookup_insert_eq. cbn.
    now rewrite Hnew, Hm. }
  split; [exact Hpool|]. split; [exact Hmax|]. split; [exact Hcr|].
  split; [|split; [reflexivity|rewrite Hopt; now destruct a]].
  rewrite Hnew. unfold HDBPool.dials. rewrite Hcr. cbn [map].
  unfold HDBPool.options. rewrite Hpool.
  unfold GenericPool.construct. rewrite ensureMinimum_closure.
  cbn [GenericPool.closure]. rewrite Hopt.
  now destruct a.
Qed.


Lemma top_up_min (q : GenericPool.pool) :
  GenericPool.min (GenericPool.top_up randomBytes q) = GenericPool.min q.
Proof.
  unfold GenericPool.top_up.
  destruct (GenericPool.below_max _); [|reflexivity].
  unfold GenericPool.start.
  destruct (HdbPool.choose _ _ _); cbn [GenericPool.min]; try reflexivity.
  unfold GenericPool.hand_over. cbn [GenericPool.waiting].
  destruct (GenericPool.waiting _); reflexivity.
Qed.

Lemma iter_top_up_min (m : nat) (q : GenericPool.pool) :
  GenericPool.min (Nat.iter m (GenericPool.top_up randomBytes) q)
  = GenericPool.min q.
Proof.
  induction m as [|m IH]; [reflexivity|].
  rewrite Nat.iter_succ, top_up_min. exact IH.
Qed.

Lemma construct_min (k : HdbPool.closure) (n : Z) :
  GenericPool.min (GenericPool.construct randomBytes k n) = n.
Proof.
  unfold GenericPool.construct, GenericPool.ensureMinimum.
  rewrite iter_top_up_min. reflexivity.
Qed.

(** X13. What [createUserPool] hands to the pool package for a new user
    pool, and how the first handle of that pool logs in: the pool is made
    with [max] 1, [min] 1 and [refreshIdle] false, and the creation of its
    first handle connects by session cookie, with the HANA user and the
    cookie of the session and a one-byte placeholder password, when the
    session holds both for the environment, and asks for the assertion
    otherwise; [_authMethod] records which. *)
Theorem new_user_pool_first_login (c : MetaPool.Conf) (x : Settings)
    (wss : wssclient) (now : Z) (req : option Req.request) (env : string)
    (reg : gmap string entry) (net : list HDBPool.dial)
    (uid e : string) (reg' : gmap string entry) (net' : list HDBPool.dial) :
  createUserPool c x wss now req env reg net = (Ok uid e, reg', net') ->
  pool_at reg uid e = None ->
  inherited e = false ->
  exists t b,
    let k0 := GenericPool.closure (HDBPool.pool t) in
    pool_at reg' uid e
    = Some {| instance := HDBPool.Ready t; _authMethod := HdbPool.strategy b |}
    /\ HdbPool.c_max k0 = Some 1
    /\ GenericPool.min (HDBPool.pool t) = 1
    /\ HdbPool.refreshIdle (HdbPool.c_options k0) = Some false
    /\ HdbPool.choose (HdbPool.c_options k0) (HdbPool.c_user k0)
         (randomBytes 0) = b
    /\ b = match session_login req e with
           | Some pe =>
               HdbPool.Connect
                 {| HdbPool.co_user := Req.HANAUser pe;
                    HdbPool.co_password :=
                      Some (String (randomBytes 0) EmptyString);
                    HdbPool.co_sessionCookie := Req.HANAsessionCookie pe;
                    HdbPool.co_assertion := None;
                    HdbPool.co_method := HdbPool.sessionCookie_ |}
           | None => HdbPool.AskFactory
           end.
Proof.
  intros H Hnone Hinh.
  destruct (createUserPool_makes c x wss now req env reg net uid e reg' net' H)
    as (t & k0 & b & Hpool_at & Hpool & Hmax & Hcr & _ & Hb & Hrefresh & _).
  { unfold pool_at in Hnone.
    destruct (reg !! uid) as [o|]; [|exact Hinh].
    cbn in Hnone. unfold has_pool.
    destruct (pools o !! e) as [[p|]|]; [discriminate Hnone| |]; auto. }
  assert (Hk : GenericPool.closure (HDBPool.pool t) = k0).
  { rewrite Hpool. unfold GenericPool.construct.
    now rewrite ensureMinimum_closure. }
  exists t, b. cbv zeta. rewrite Hk.
  split; [exact Hpool_at|]. split; [exact Hmax|].
  split; [rewrite Hpool; apply construct_min|].
  split; [exact Hrefresh|]. split; [|exact Hb].
  rewrite Hpool, (construct_one _ Hmax) in Hcr.
  destruct (HdbPool.choose _ _ _); congruence.
Qed.

Lemma no_cookie_no_session_login (req : option Req.request) (e : string) :
  JS.truthy (Req.stored_cookie req e) = false -> session_login req e = None.
Proof.
  unfold Req.stored_cookie, session_login.
  destruct (Req.authenticated_user req) as [u|]; [|reflexivity].
  cbn. destruct (Req.pu_envs u !! e) as [pe|]; [|reflexivity].
  cbn. intros ->. now rewrite andb_false_r.
Qed.

Lemma createUserPool_by_assertion (c : MetaPool.Conf) (x : Settings)
    (wss : wssclient) (now : Z) (req : option Req.request) (env : string)
    (reg : gmap string entry) (net : list HDBPool.dial)
    (uid e : string) (reg' : gmap string entry) (net' : list HDBPool.dial)
    (p : user_pool) :
  createUserPool c x wss now req env reg net = (Ok uid e, reg', net') ->
  session_login req e = None ->
  pool_at reg uid e = None ->
  pool_at reg' uid e = Some p ->
  _authMethod p = Some HdbPool.assertion_
  /\ exists t, instance p = HDBPool.Ready t
               /\ GenericPool.creating (HDBPool.pool t) = [HdbPool.AskFactory].
Proof.
  intros H Hlogin Hnone Hp.
  destruct (match reg !! uid with
            | Some o => has_pool (pools o) e
            | None => inherited e
            end) eqn:Hhas.
  - exfalso.
    destruct (createUserPool_Ok _ _ _ _ _ _ _ _ _ _ _ _ H)
      as (r & s & u & sid & -> & Hs & Hps & Hsid & Hsidt & Hu & Hut & He
          & Hdb & Hcase).
    assert (Hsame : has_pool (pools (touch (reg !! uid) sid s now)) e = true).
    { destruct (reg !! uid) as [o|]; [exact Hhas|].
      unfold has_pool, touch. cbn [pools]. now rewrite lookup_empty. }
    destruct Hcase as [(_ & -> & _) | (Hno & _)];
      [|cbv zeta in Hno; congruence].
    unfold pool_at in Hp, Hnone. rewrite lookup_insert_eq in Hp.
    cbn [mbind option_bind] in Hp.
    destruct (reg !! uid) as [o|]; cbn in Hnone, Hp.
    + congruence.
    + now rewrite lookup_empty in Hp.
  - destruct (createUserPool_makes _ _ _ _ _ _ _ _ _ _ _ _ H Hhas)
      as (t & k0 & b & Hpool & _ & _ & Hcr & _ & Hb & _).
    rewrite Hlogin in Hb. subst b.
    rewrite Hpool in Hp. injection Hp as <-. cbn.
    split; [reflexivity|]. eauto.
Qed.

(** X14. After the recovery has drained the pool of a user, the next login
    does not go back to the cookie: with a registry that holds the pools
    the recovered state holds, a [createUserPool] for the request of that
    state and the same environment makes, if it makes a pool, one that
    logs in by assertion. *)
Theorem login_after_recovery_is_by_assertion (c : MetaPool.Conf)
    (x : Settings) (wss : wssclient) (now : Z)
    (st st' : Recovery.state) (err : Req.error) (result : option string)
    (out : Recovery.outcome) (env : string)
    (reg : gmap string entry) (net : list HDBPool.dial)
    (uid e : string) (reg' : gmap string entry) (net' : list HDBPool.dial)
    (p : user_pool) :
  is_Some (Recovery.userPools st !! uid) ->
  Recovery._drain st uid env (Some err) result = (out, st') ->
  same_pools reg st' ->
  JS.truthy_str env = true ->
  createUserPool c x wss now (Some (Recovery.req st')) env reg net
  = (Ok uid e, reg', net') ->
  pool_at reg' uid e = Some p ->
  e = env
  /\ _authMethod p = Some HdbPool.assertion_
  /\ exists t, instance p = HDBPool.Ready t
               /\ GenericPool.creating (HDBPool.pool t) = [HdbPool.AskFactory].
Proof.
  intros Hreg Hdrain Hsame Henv H Hp.
  destruct (_drain_flushes st uid env err result Hreg)
    as (st1 & Hd & (_ & Hck & Hnone) & _).
  rewrite Hd in Hdrain. injection Hdrain as <- <-.
  assert (He : e = env).
  { destruct (createUserPool_Ok _ _ _ _ _ _ _ _ _ _ _ _ H)
      as (r & s & u & sid & _ & _ & _ & _ & _ & _ & _ & He & _).
    now rewrite Henv in He. }
  subst e. split; [reflexivity|].
  apply (createUserPool_by_assertion _ _ _ _ _ _ _ _ _ _ _ _ p H);
    [now apply no_cookie_no_session_login| |exact Hp].
  destruct (pool_at reg uid env) as [q|] eqn:Hq; [|reflexivity].
  destruct (proj1 (Hsame uid env)) as [q' Hq']; [rewrite Hq; eauto|].
  congruence.
Qed.

(** X15. [hasUserPool] and [createUserPool] agree: a request for which
    [createUserPool] has answered with a user and an environment has a
    user pool; and when a request has none, the pool [createUserPool]
    makes for it logs in by assertion. *)
Theorem hasUserPool_tells_the_login (c : MetaPool.Conf) (x : Settings)
    (wss : wssclient) (now : Z) (req : option Req.request)
    (reg : gmap string entry) (net : list HDBPool.dial)
    (uid e : string) (reg' : gmap string entry) (net' : list HDBPool.dial) :
  createUserPool c x wss now req EmptyString reg net = (Ok uid e, reg', net') ->
  hasUserPool c reg' req = true
  /\ (hasUserPool c reg req = false ->
      forall p, pool_at reg' uid e = Some p ->
        _authMethod p = Some HdbPool.assertion_
        /\ exists t, instance p = HDBPool.Ready t
                     /\ GenericPool.creating (HDBPool.pool t)
                        = [HdbPool.AskFactory]).
Proof.
  intros H.
  destruct (createUserPool_Ok _ _ _ _ _ _ _ _ _ _ _ _ H)
    as (r & s & u & sid & -> & Hs & Hps & Hsid & Hsidt & Hu & Hut & He & Hdb
        & _).
  cbn [JS.truthy_str] in He.
  destruct (createUserPool_Ok_pool _ _ _ _ _ _ _ _ _ _ _ _ H)
    as (_ & _ & _ & o & Ho & Hhas).
  unfold Registry.hasUserPool. rewrite Hu, <- He.
  change (default "null" (Some uid)) with uid.
  split; [now rewrite Ho, Hhas|].
  intros Hno p Hp.
  apply orb_false_iff in Hno. destruct Hno as [Hno Hck].
  apply (createUserPool_by_assertion _ _ _ _ _ _ _ _ _ _ _ _ p H);
    [now apply no_cookie_no_session_login| |exact Hp].
  unfold pool_at. destruct (reg !! uid) as [o0|]; [|reflexivity].
  cbn. unfold has_pool in Hno.
  destruct (pools o0 !! e) as [[q|]|]; [discriminate Hno| |]; reflexivity.
Qed.


(** X16. [createUserPool] changes nothing but the entry of the user of
    its request; and a call that does not answer with a user and an
    environment leaves the network alone and every pool of the registry
    where it was. *)
Theorem createUserPool_frame (c : MetaPool.Conf) (x : Settings)
    (wss : wssclient) (now : Z) (req : option Req.request) (env : string)
    (reg : gmap string entry) (net : list HDBPool.dial) :
  let '(out, reg', net') := createUserPool c x wss now req env reg net in
  (forall u, getUserId c req <> Some u -> reg' !! u = reg !! u)
  /\ match out with
     | Ok _ _ => True
     | _ => net' = net /\ forall u e, pool_at reg' u e = pool_at reg u e
     end.
Proof.
  assert (Htouch : forall uid sid s,
    (forall u, Some uid <> Some u ->
       <[uid := touch (reg !! uid) sid s now]> reg !! u = reg !! u)
    /\ forall u e, pool_at (<[uid := touch (reg !! uid) sid s now]> reg) u e
                   = pool_at reg u e).
  { intros uid sid s. split.
    - intros u Hu. apply lookup_insert_ne. congruence.
    - intros u e. unfold pool_at.
      destruct (decide (u = uid)) as [->|Hne];
        [|now rewrite lookup_insert_ne by congruence].
      rewrite lookup_insert_eq. cbn [mbind option_bind].
      destruct (reg !! uid) as [o|]; [reflexivity|].
      cbn. now rewrite lookup_empty. }
  unfold Registry.createUserPool.
  destruct (bool_decide _ && negb _); [now repeat split|].
  destruct req as [r|]; [|now repeat split].
  destruct (getUserId c (Some r)) as [[|a0 uid0]|] eqn:Hu;
    try (now repeat split).
  destruct (Some r ≫= Req.req_session) as [s|]; [|now repeat split].
  destruct (Req.authenticated_user (Some r)) as [u|]; [|now repeat split].
  cbv zeta.
  destruct (negb (MetaPool.truthy_entry _)); [now repeat split|].
  destruct (bool_decide _ && inherited _); [now repeat split|].
  set (e0 := if JS.truthy_str env then env else _).
  set (sid := default EmptyString _).
  destruct (Htouch (String a0 uid0) sid s) as [Ht1 Ht2].
  destruct (has_pool _ e0); [split; [exact Ht1 | exact I]|].
  destruct (choose_auth wss (String a0 uid0) e0 u) as [hu ck|au a|err];
    [| |now repeat split];
    (destruct (HDBPool.createPool _ _ _ _ _) as [[i|] net1] eqn:Hcp;
       [split; [|exact I]; intros u' Hu'; apply lookup_insert_ne; congruence|]);
    (split; [exact Ht1|]); (split; [|exact Ht2]);
    unfold HDBPool.createPool in Hcp;
    repeat match type of Hcp with
           | (if ?b then _ else _) = _ => destruct b
           end; congruence.
Qed.

Lemma expire_fold (c : MetaPool.Conf) (threshold : Z)
    (l : list (string * entry)) :
  forall (regc : gmap string entry) (cl : list Req.session),
    NoDup l.*1 ->
    (forall k v, (k, v) ∈ l -> regc !! k = Some v) ->
    (forall k v sid s, (k, v) ∈ l -> lastAccess v < threshold ->
       sessions v !! sid = Some s -> is_Some (Req.passport_user_of s)) ->
    exists regc' cl',
      fold_left (expire c threshold) l (Some (regc, cl)) = Some (regc', cl')
      /\ (forall k v, (k, v) ∈ l -> lastAccess v < threshold ->
            regc' !! k = None)
      /\ (forall k, (forall v, (k, v) ∈ l -> threshold <= lastAccess v) ->
            regc' !! k = regc !! k)
      /\ (forall s, s ∈ cl -> s ∈ cl')
      /\ (forall k v sid s, (k, v) ∈ l -> lastAccess v < threshold ->
            sessions v !! sid = Some s ->
            exists s', clear_session c s = Some s' /\ s' ∈ cl').
Proof.
  induction l as [|[k0 v0] l IH]; intros regc cl Hnd Hin Hok.
  - exists regc, cl. split; [reflexivity|].
    split; [intros k v Hv; inversion Hv|].
    split; [reflexivity|].
    split; [auto|]. intros k v sid s Hv. inversion Hv.
  - cbn [fold_left]. rewrite fmap_cons in Hnd. apply NoDup_cons in Hnd.
    destruct Hnd as [Hk0 Hnd]. cbn [fst] in Hk0.
    assert (Htail : forall k v, (k, v) ∈ l -> k <> k0).
    { intros k v Hv ->. apply Hk0. apply list_elem_of_fmap.
      exists (k0, v). split; [reflexivity | exact Hv]. }
    unfold expire at 2. cbn [fst snd].
    destruct (Z.ltb (lastAccess v0) threshold) eqn:Hexp.
    + apply Z.ltb_lt in Hexp.
      unfold drainUserPool.
      rewrite (Hin k0 v0) by (apply elem_of_cons; now left).
      assert (Hm : exists ss,
        mapM (clear_session c) (map snd (map_to_list (sessions v0))) = Some ss
        /\ forall sid s, sessions v0 !! sid = Some s ->
             exists s', clear_session c s = Some s' /\ s' ∈ ss).
      { assert (His : is_Some (mapM (clear_session c)
                                 (map snd (map_to_list (sessions v0))))).
        { apply mapM_is_Some. apply Forall_forall. intros s Hs.
          apply list_elem_of_fmap in Hs. destruct Hs as ([sid s1] & -> & Hs).
          apply elem_of_map_to_list in Hs. cbn.
          destruct (Hok k0 v0 sid s1) as [u Hu];
            [apply elem_of_cons; now left | exact Hexp | exact Hs |].
          unfold clear_session. rewrite Hu. eauto. }
        destruct His as [ss Hss]. exists ss. split; [exact Hss|].
        intros sid s Hs. apply mapM_Some in Hss.
        assert (Hel : s ∈ map snd (map_to_list (sessions v0))).
        { apply list_elem_of_fmap. exists (sid, s). split; [reflexivity|].
          now apply elem_of_map_to_list. }
        apply list_elem_of_lookup in Hel. destruct Hel as [i Hi].
        destruct (Forall2_lookup_l _ _ _ _ _ Hss Hi) as (s' & Hs' & Hc).
        exists s'. split; [exact Hc|]. eapply list_elem_of_lookup_2; eauto. }
      destruct Hm as (ss & -> & Hcl).
      destruct (IH (delete k0 regc) (cl ++ ss)%list Hnd) as
        (regc' & cl' & Hf & Hgone & Hkept & Hsub & Hall).
      { intros k v Hv.
        rewrite lookup_delete_ne by (apply not_eq_sym; exact (Htail k v Hv)).
        apply Hin. apply elem_of_cons. now right. }
      { intros k v sid s Hv. apply (Hok k v sid s). apply elem_of_cons.
        now right. }
      exists regc', cl'. split; [exact Hf|]. split.
      { intros k v Hv Hlt. apply elem_of_cons in Hv.
        destruct Hv as [[= -> ->]|Hv]; [|eauto].
        rewrite Hkept; [apply lookup_delete_eq|].
        intros v Hv. exfalso. exact (Htail k0 v Hv eq_refl). }
      split.
      { intros k Hk. rewrite Hkept.
        - apply lookup_delete_ne. intros <-.
          specialize (Hk v0 ltac:(apply elem_of_cons; now left)). lia.
        - intros v Hv. apply Hk. apply elem_of_cons. now right. }
      split.
      { intros s Hs. apply Hsub. apply elem_of_app. now left. }
      intros k v sid s Hv Hlt Hs. apply elem_of_cons in Hv.
      destruct Hv as [[= -> ->]|Hv]; [|eauto].
      destruct (Hcl sid s Hs) as (s' & Hs' & Hel).
      exists s'. split; [exact Hs'|]. apply Hsub. apply elem_of_app. now right.
    + apply Z.ltb_ge in Hexp.
      destruct (IH regc cl Hnd) as
        (regc' & cl' & Hf & Hgone & Hkept & Hsub & Hall).
      { intros k v Hv. apply Hin. apply elem_of_cons. now right. }
      { intros k v sid s Hv. apply (Hok k v sid s). apply elem_of_cons.
        now right. }
      exists regc', cl'. split; [exact Hf|]. split.
      { intros k v Hv Hlt. apply elem_of_cons in Hv.
        destruct Hv as [[= -> ->]|Hv]; [lia | eauto]. }
      split.
      { intros k Hk. apply Hkept. intros v Hv. apply Hk.
        apply elem_of_cons. now right. }
      split; [exact Hsub|].
      intros k v sid s Hv Hlt Hs. apply elem_of_cons in Hv.
      destruct Hv as [[= -> ->]|Hv]; [lia | eauto].
Qed.


Lemma clear_session_cleared (c : MetaPool.Conf) (s s' : Req.session) :
  clear_session c s = Some s' ->
  Req.saved s' = S (Req.saved s)
  /\ exists u', Req.passport_user_of s' = Some u'
                /\ forall env, MetaPool.configured c env = true ->
                               Req.pu_envs u' !! env = None.
Proof.
  unfold clear_session.
  destruct (Req.passport_user_of s) as [u|]; [|discriminate].
  intros [= <-]. cbn. split; [reflexivity|].
  eexists. split; [reflexivity|]. cbn.
  intros env Henv. apply map_lookup_filter_None. right.
  intros pe _. cbn. rewrite Henv. cbn. auto.
Qed.

(** X17. The periodic cleanup evicts the idle users and nobody else: when
    the sessions registered for the idle users are authenticated, the
    registry afterwards holds exactly the users whose last access is not
    older than [USER_TIMEOUT] seconds, each with its entry as it was; and
    every session of an idle user has lost its entries for all the
    environments of the configuration and has been saved. *)
Theorem cleanupUserPools_evicts_idle_users (c : MetaPool.Conf)
    (x : Settings) (now : Z) (reg : gmap string entry) :
  map_Forall (fun _ o =>
      lastAccess o < now - USER_TIMEOUT x * 1000 ->
      map_Forall (fun _ s => is_Some (Req.passport_user_of s)) (sessions o))
    reg ->
  exists reg' cleared,
    cleanupUserPools c x now reg = Some (reg', cleared)
    /\ (forall uid,
          reg' !! uid
          = o ← reg !! uid;
            if Z.ltb (lastAccess o) (now - USER_TIMEOUT x * 1000)
            then None else Some o)
    /\ forall uid o sid s,
         reg !! uid = Some o ->
         lastAccess o < now - USER_TIMEOUT x * 1000 ->
         sessions o !! sid = Some s ->
         exists s' u',
           s' ∈ cleared
           /\ Req.saved s' = S (Req.saved s)
           /\ Req.passport_user_of s' = Some u'
           /\ forall env, MetaPool.configured c env = true ->
                          Req.pu_envs u' !! env = None.
Proof.
  intros Hok. unfold cleanupUserPools.
  set (th := now - USER_TIMEOUT x * 1000) in *.
  destruct (expire_fold c th (map_to_list reg) reg [])
    as (reg' & cleared & Hf & Hgone & Hkept & _ & Hall).
  { apply NoDup_fst_map_to_list. }
  { intros k v Hv. now apply elem_of_map_to_list. }
  { intros k v sid s Hv Hlt Hs. apply elem_of_map_to_list in Hv.
    exact (Hok k v Hv Hlt sid s Hs). }
  exists reg', cleared. split; [exact Hf|]. split.
  - intros uid. destruct (reg !! uid) as [o|] eqn:Ho; cbn.
    + destruct (Z.ltb (lastAccess o) th) eqn:Hexp.
      * apply Z.ltb_lt in Hexp. apply (Hgone uid o); [|exact Hexp].
        now apply elem_of_map_to_list.
      * apply Z.ltb_ge in Hexp. rewrite Hkept; [exact Ho|].
        intros v Hv. apply elem_of_map_to_list in Hv. congruence.
    + rewrite Hkept; [exact Ho|].
      intros v Hv. apply elem_of_map_to_list in Hv. congruence.
  - intros uid o sid s Ho Hlt Hs.
    destruct (Hall uid o sid s) as (s' & Hs' & Hel);
      [now apply elem_of_map_to_list | exact Hlt | exact Hs |].
    destruct (clear_session_cleared c s s' Hs') as (Hsv & u' & Hu' & Henv).
    exists s', u'. auto.
Qed.

Lemma hasEnv_tells (c : MetaPool.Conf) (r : Req.request) (b : bool) :
  hasEnv url_parse_query c r = Some b ->
  b = JS.truthy (MetaPool.from_header c (Some r))
      || JS.truthy (MetaPool.from_query url_parse_query c (Some r)).
Proof.
  unfold hasEnv, MetaPool.from_header, MetaPool.from_query, MetaPool.field.
  cbn [mbind option_bind].
  destruct (Req.headers r) as [h|]; [|discriminate].
  destruct (JS.truthy (h !! MetaPool.sourceSysField c)) eqn:Hh;
    [now intros [= <-]|].
  destruct (Req.query r) as [q|]; [|discriminate].
  destruct (JS.truthy (q !! MetaPool.sourceSysField c)) eqn:Hq.
  { intros [= <-]. cbn. now destruct (q !! MetaPool.sourceSysField c) as [[|]|]. }
  cbn [orb].
  destruct (Req.req_session r) as [s|]; cbn [mbind option_bind];
    [|now intros [= <-]].
  destruct (Req.returnTo s) as [[|a u]|]; cbn; now intros [= <-].
Qed.

Lemma getEnvFromRequest_overwrites (c : MetaPool.Conf) (r : Req.request) :
  MetaPool.getEnvFromRequest url_parse_query c (Some r)
  = MetaPool.overwrite
      (MetaPool.overwrite
         (MetaPool.overwrite
            (MetaPool.overwrite
               (JS.or_else (MetaPool.default_env (MetaPool.conf_db c)) "HDB")
               (MetaPool.from_session c (Some r)))
            (MetaPool.from_header c (Some r)))
         (MetaPool.from_query url_parse_query c (Some r)))
      (MetaPool.from_body c (Some r)).
Proof.
  unfold MetaPool.getEnvFromRequest, MetaPool.from_body, MetaPool.from_query,
    MetaPool.from_header, MetaPool.from_session.
  cbn [mbind option_bind]. f_equal.
  set (env := MetaPool.overwrite _ (MetaPool.field (Req.headers r) _)).
  replace (MetaPool.overwrite
             (MetaPool.overwrite
                (JS.or_else (MetaPool.default_env (MetaPool.conf_db c)) "HDB")
                (s ← Req.req_session r;
                 Req.sess_fields s !! MetaPool.sourceSysField c))
             (MetaPool.field (Req.headers r) (MetaPool.sourceSysField c)))
    with env by (subst env; destruct (Req.req_session r); reflexivity).
  clearbody env.
  destruct (JS.truthy (MetaPool.field (Req.query r) (MetaPool.sourceSysField c)))
    eqn:Hq.
  - unfold MetaPool.overwrite. now rewrite Hq.
  - destruct (Req.req_session r) as [s|]; cbn [mbind option_bind];
      [|reflexivity].
    destruct (Req.returnTo s) as [[|a u]|]; reflexivity.
Qed.

(** X18. What [hasEnv] answers about [getEnvFromRequest]: when it answers
    true, the environment is named by the request itself, in its body, its
    query or its header, whatever the session and the configuration hold;
    when it answers false, the environment is that of the body if the body
    names one, and else that of the session or the default: [hasEnv] does
    not look at the body. *)
Theorem hasEnv_and_getEnvFromRequest (c : MetaPool.Conf) (r : Req.request)
    (b : bool) :
  hasEnv url_parse_query c r = Some b ->
  if b
  then forall fallback,
         MetaPool.getEnvFromRequest url_parse_query c (Some r)
         = MetaPool.first_present
             [MetaPool.from_body c (Some r);
              MetaPool.from_query url_parse_query c (Some r);
              MetaPool.from_header c (Some r)] fallback
  else MetaPool.getEnvFromRequest url_parse_query c (Some r)
       = MetaPool.first_present
           [MetaPool.from_body c (Some r); MetaPool.from_session c (Some r)]
           (JS.or_else (MetaPool.default_env (MetaPool.conf_db c)) "HDB").
Proof.
  intros H. apply hasEnv_tells in H.
  rewrite getEnvFromRequest_overwrites, !first_present_cons.
  cbn [MetaPool.first_present].
  destruct (JS.truthy (MetaPool.from_header c (Some r))) eqn:Hh;
    destruct (JS.truthy (MetaPool.from_query url_parse_query c (Some r)))
      eqn:Hq; cbn in H; subst b; try intros fallback;
    unfold MetaPool.overwrite; rewrite ?Hh, ?Hq; try reflexivity.
  all: destruct (JS.truthy (MetaPool.from_body c (Some r))) eqn:Hb;
    apply default_truthy; assumption.
Qed.



(** X20. The pool of an environment is built without a login and logs in
    with the user and the password of the configuration: with host, port,
    user and password configured, [createPool] on the options of
    [initEnvPools] gives a pool and asks the network for nothing; the pool
    has room for [POOL_SIZE] handles (for one when that is not set), and a
    handle it creates connects by password. *)
Theorem env_pool_logs_in_by_password (x : Settings) (env : string)
    (e : MetaPool.env_conf) (net : list HDBPool.dial) :
  JS.truthy (MetaPool.HOST e) = true ->
  HdbPool.truthy_num (MetaPool.PORT e) = true ->
  JS.truthy (MetaPool.USER e) = true ->
  JS.truthy (MetaPool.PASS e) = true ->
  exists t,
    HDBPool.createPool NameID randomBytes (envPoolOpts x env e) None net
    = (Some (HDBPool.Ready t), net)
    /\ GenericPool.creating (HDBPool.pool t) = []
    /\ HdbPool.c_max (GenericPool.closure (HDBPool.pool t))
       = Some (HdbPool.num_or (MetaPool.POOL_SIZE e) 1)
    /\ forall rnd,
         HdbPool.choose (HDBPool.options t)
           (HdbPool.c_user (GenericPool.closure (HDBPool.pool t))) rnd
         = HdbPool.Connect
             {| HdbPool.co_user := MetaPool.USER e;
                HdbPool.co_password := MetaPool.PASS e;
                HdbPool.co_sessionCookie := None;
                HdbPool.co_assertion := None;
                HdbPool.co_method := HdbPool.password_ |}.
Proof.
  destruct e as [host_ port_ user_ pass_ schema_ size_].
  cbn [MetaPool.HOST MetaPool.PORT MetaPool.USER MetaPool.PASS
       MetaPool.POOL_SIZE].
  intros Hh Hp Hu Hpw.
  destruct user_ as [[|a u]|]; try discriminate Hu.
  destruct pass_ as [[|b p]|]; try discriminate Hpw.
  unfold HDBPool.createPool. cbn [envPoolOpts HdbPool.host HdbPool.port].
  cbn [MetaPool.HOST MetaPool.PORT].
  rewrite Hh, Hp. cbn [negb].
  unfold HDBPool.new. cbn [envPoolOpts HdbPool.assertion].
  eexists. rewrite app_nil_r. split; [reflexivity|].
  cbn. split; [reflexivity|]. split; [reflexivity|].
  intros rnd. reflexivity.
Qed.

End RegistryFacts.

(** ** On the sample data *)

Lemma createUserPool_reuses_pool_witness :
  exists reg2,
    Registry.createUserPool no_query (fun _ => None) (fun _ => "000"%char)
      Conf0 settings0 Registry.NoClient 2000 (Some alice_request) "HDB"
      first_call.1.2 []
    = (Registry.Ok "alice" "HDB", reg2, [])
    /\ forall u' e', Registry.pool_at reg2 u' e'
                     = Registry.pool_at first_call.1.2 u' e'.
Proof.
  apply (createUserPool_reuses_pool no_query (fun _ => None)
           (fun _ => "000"%char) Conf0 settings0 Registry.NoClient 1000
           (Some alice_request) EmptyString ∅ [] "alice" "HDB"
           first_call.1.2 first_call.2 Registry.NoClient 2000
           (Some alice_request) []);
    vm_compute; reflexivity.
Defined.

Lemma new_user_pool_first_login_witness :
  exists t b,
    let k0 := GenericPool.closure (HDBPool.pool t) in
    Registry.pool_at first_call.1.2 "alice" "HDB"
    = Some {| Registry.instance := HDBPool.Ready t;
              Registry._authMethod := HdbPool.strategy b |}
    /\ HdbPool.c_max k0 = Some 1
    /\ GenericPool.min (HDBPool.pool t) = 1
    /\ HdbPool.refreshIdle (HdbPool.c_options k0) = Some false
    /\ HdbPool.choose (HdbPool.c_options k0) (HdbPool.c_user k0) "000"%char
       = b
    /\ b = HdbPool.Connect
             {| HdbPool.co_user := Some "ALICE";
                HdbPool.co_password := Some (String "000"%char EmptyString);
                HdbPool.co_sessionCookie := Some "c00kie";
                HdbPool.co_assertion := None;
                HdbPool.co_method := HdbPool.sessionCookie_ |}.
Proof.
  apply (new_user_pool_first_login no_query (fun _ => None)
           (fun _ => "000"%char) Conf0 settings0 Registry.NoClient 1000
           (Some alice_request) EmptyString ∅ [] "alice" "HDB"
           first_call.1.2 first_call.2);
    vm_compute; reflexivity.
Defined.

Lemma login_after_recovery_is_by_assertion_witness :
  exists p,
    Registry.pool_at
      (Registry.createUserPool no_query (fun _ => None) (fun _ => "000"%char)
         Conf0 settings0 Registry.NoClient 2000
         (Some (Recovery.req recovered.2)) "HDB" recovered_registry []).1.2
      "alice" "HDB" = Some p
    /\ Registry._authMethod p = Some HdbPool.assertion_.
Proof.
  eexists. split; [vm_compute; reflexivity|].
  refine (proj1 (proj2
    (login_after_recovery_is_by_assertion no_query (fun _ => None)
       (fun _ => "000"%char) Conf0 settings0 Registry.NoClient 2000
       (tenant_state HdbPool.sessionCookie_) recovered.2 (auth_failed None)
       None recovered.1 "HDB" recovered_registry [] "alice" "HDB" _ _ _
       _ _ _ _ _ _))).
  - vm_compute. eauto.
  - vm_compute. reflexivity.
  - intros u e. split; intros [q Hq]; exfalso.
    + unfold Registry.pool_at, recovered_registry in Hq.
      destruct (decide (u = "alice")) as [->|Hne].
      * rewrite lookup_singleton_eq in Hq. cbn in Hq.
        destruct (decide (e = "HDB")) as [->|Hne].
        -- rewrite lookup_singleton_eq in Hq. discriminate Hq.
        -- rewrite lookup_singleton_ne in Hq by congruence. discriminate Hq.
      * rewrite lookup_singleton_ne in Hq by congruence. discriminate Hq.
    + unfold Recovery.registered in Hq.
      change (Recovery.userPools recovered.2)
        with (<["alice" := <["HDB" := None]>
                 ({["HDB" := Some (Recovery.tenant
                                     (tenant_state HdbPool.sessionCookie_))]}
                  : gmap string (option Recovery.user_pool))]>
                (Recovery.userPools (tenant_state HdbPool.sessionCookie_)))
        in Hq.
      destruct (decide (u = "alice")) as [->|Hne].
      * rewrite lookup_insert_eq in Hq. cbn in Hq.
        destruct (decide (e = "HDB")) as [->|Hne].
        -- rewrite lookup_insert_eq in Hq. discriminate Hq.
        -- rewrite lookup_insert_ne, lookup_singleton_ne in Hq by congruence.
           discriminate Hq.
      * rewrite lookup_insert_ne in Hq by congruence.
        unfold tenant_state in Hq. cbn in Hq.
        rewrite lookup_singleton_ne in Hq by congruence. discriminate Hq.
  - reflexivity.
  - vm_compute. reflexivity.
  - vm_compute. reflexivity.
Defined.

Lemma hasUserPool_tells_the_login_witness :
  Registry.hasUserPool no_query Conf0 first_call.1.2 (Some alice_request)
  = true.
Proof.
  refine (proj1
    (hasUserPool_tells_the_login no_query (fun _ => None)
       (fun _ => "000"%char) Conf0 settings0 Registry.NoClient 1000
       (Some alice_request) ∅ [] "alice" "HDB" first_call.1.2 first_call.2 _)).
  vm_compute. reflexivity.
Defined.

Lemma cleanupUserPools_evicts_idle_users_witness :
  exists reg' cleared,
    Registry.cleanupUserPools Conf0 settings0 100000 two_users
    = Some (reg', cleared)
    /\ reg' !! "alice" = None
    /\ is_Some (reg' !! "bob").
Proof.
  destruct (cleanupUserPools_evicts_idle_users Conf0 settings0 100000
              two_users) as (reg' & cleared & H & Hreg & _).
  { refine (bool_decide_unpack _ _). vm_compute. exact I. }
  exists reg', cleared. split; [exact H|].
  rewrite !Hreg. split; vm_compute; eauto.
Defined.

Lemma hasEnv_and_getEnvFromRequest_witness :
  MetaPool.getEnvFromRequest no_query Conf0 (Some (header_request "HDB"))
  = MetaPool.first_present
      [MetaPool.from_body Conf0 (Some (header_request "HDB"));
       MetaPool.from_query no_query Conf0 (Some (header_request "HDB"));
       MetaPool.from_header Conf0 (Some (header_request "HDB"))] "none".
Proof.
  apply (hasEnv_and_getEnvFromRequest no_query Conf0 (header_request "HDB")
           true).
  vm_compute. reflexivity.
Defined.


Lemma env_pool_logs_in_by_password_witness :
  exists t,
    HDBPool.createPool (fun _ => None) (fun _ => "000"%char)
      (Registry.envPoolOpts settings0 "HDB"
         {| MetaPool.HOST := Some "hdbhost"; MetaPool.PORT := Some 30015;
            MetaPool.USER := Some "USER"; MetaPool.PASS := Some "****";
            MetaPool.DEFAULT_SCHEMA := Some "USER";
            MetaPool.POOL_SIZE := Some 3 |}) None []
    = (Some (HDBPool.Ready t), [])
    /\ HdbPool.c_max (GenericPool.closure (HDBPool.pool t)) = Some 3.
Proof.
  destruct (env_pool_logs_in_by_password (fun _ => None) (fun _ => "000"%char)
              settings0 "HDB"
              {| MetaPool.HOST := Some "hdbhost"; MetaPool.PORT := Some 30015;
                 MetaPool.USER := Some "USER"; MetaPool.PASS := Some "****";
                 MetaPool.DEFAULT_SCHEMA := Some "USER";
                 MetaPool.POOL_SIZE := Some 3 |} [])
    as (t & H1 & _ & H3 & _); try reflexivity.
  exists t. split; [exact H1 | exact H3].
Defined.
